(** * Wallpaper Splitter: the computational core of [main.py]

    A shallow embedding of the resolution computation
    ([ScreenConfig.calculate_resolution]), of the screen list operations
    ([add_screen], [delete_screen], [update_config], [apply_reference]),
    of the preview projection ([draw_rectangles]) and of the export
    ([get_unique_filename], [extract_all]).

    Python [int] is [Z], Python [float] is the kernel's binary64 [float],
    Python [str] is [string].  Objects that are mutated through several
    references (the [ScreenConfig] instances, shared by the screen list and
    by their widgets) live in a store indexed by references.  Exceptions are
    values of [exn]; a method is a state transformer that returns a value,
    raises, or runs out of the fuel given to its [while True] loop. *)

From Stdlib Require Import ZArith Lia Uint63 Floats Ascii String.
From stdpp Require Import base option list strings pretty gmap.

Local Open Scope string_scope.
Local Open Scope Z_scope.

(** ** Exceptions *)

Inductive exn : Type :=
  | ValueError (msg : string)
  | OverflowError (msg : string)
  | ZeroDivisionError (msg : string)
  | IndexError (msg : string)
  | TypeError (msg : string)
  | OSError (msg : string).

(** [str(e)] *)
Definition exn_str (e : exn) : string :=
  match e with
  | ValueError m | OverflowError m | ZeroDivisionError m
  | IndexError m | TypeError m | OSError m => m
  end.

Definition is_ValueError (e : exn) : bool :=
  match e with ValueError _ => true | _ => false end.

(** ** Python's numeric primitives on [int] and [float] *)

Module Py.

(** [float(n)] for an [int]: the nearest binary64 value, ties to even;
    [OverflowError] when that is not finite. *)
Definition float_of_int (n : Z) : exn + float :=
  let f := SF2Prim (binary_normalize prec emax n 0 false) in
  if is_infinity f
  then inl (OverflowError "int too large to convert to float")
  else inr f.

(** [a / b] on two [int]s (true division): the exact quotient rounded once
    to binary64.  The quotient is taken with at least 54 significant bits
    and a sticky bit for the remainder, so that the single rounding of
    [binary_normalize] is the rounding of the exact quotient. *)
Definition truediv (a b : Z) : exn + float :=
  if b =? 0 then inl (ZeroDivisionError "division by zero") else
  let neg := xorb (a <? 0) (b <? 0) in
  let a' := Z.abs a in
  let b' := Z.abs b in
  let k := Z.max 0 (Z.log2 b' - Z.log2 a' + 55) in
  let q := (a' * 2 ^ k) / b' in
  let sticky := if (a' * 2 ^ k) mod b' =? 0 then 0 else 1 in
  let m := 2 * q + sticky in
  let f := SF2Prim (binary_normalize prec emax (cond_Zopp neg m) (- k - 1) neg) in
  if is_infinity f
  then inl (OverflowError "integer division result too large for a float")
  else inr f.

(** [m * 2^e] rounded to the nearest integer, ties to even ([m >= 0]). *)
Definition round_half_even (m e : Z) : Z :=
  if 0 <=? e then m * 2 ^ e
  else
    let d := 2 ^ (- e) in
    let q := m / d in
    match (2 * (m mod d)) ?= d with
    | Lt => q
    | Gt => q + 1
    | Eq => if Z.even q then q else q + 1
    end.

(** [m * 2^e] with its fraction dropped ([m >= 0]). *)
Definition truncate (m e : Z) : Z :=
  if 0 <=? e then m * 2 ^ e else m / 2 ^ (- e).

(** [round(f)] with one argument: an [int], ties to even. *)
Definition round (f : float) : exn + Z :=
  match Prim2SF f with
  | S754_nan => inl (ValueError "cannot convert float NaN to integer")
  | S754_infinity _ => inl (OverflowError "cannot convert float infinity to integer")
  | S754_zero _ => inr 0
  | S754_finite s m e => inr (cond_Zopp s (round_half_even (Zpos m) e))
  end.

(** [int(f)] on a [float]: truncation toward zero. *)
Definition int_of_float (f : float) : exn + Z :=
  match Prim2SF f with
  | S754_nan => inl (ValueError "cannot convert float NaN to integer")
  | S754_infinity _ => inl (OverflowError "cannot convert float infinity to integer")
  | S754_zero _ => inr 0
  | S754_finite s m e => inr (cond_Zopp s (truncate (Zpos m) e))
  end.

(** [math.floor(f)]: the largest integer not above [f].  The program never
    calls it; the specification of the preview projection does. *)
Definition floor (f : float) : exn + Z :=
  match Prim2SF f with
  | S754_nan => inl (ValueError "cannot convert float NaN to integer")
  | S754_infinity _ => inl (OverflowError "cannot convert float infinity to integer")
  | S754_zero _ => inr 0
  | S754_finite s m e =>
      inr (if 0 <=? e then cond_Zopp s (Zpos m) * 2 ^ e
           else cond_Zopp s (Zpos m) / 2 ^ (- e))
  end.

End Py.



(** ** [os.path] on POSIX path names *)

Module Path.

Definition chars (s : string) : list ascii := list_ascii_of_string s.
Definition of_chars (l : list ascii) : string := string_of_list_ascii l.

Definition is_dot (c : ascii) : bool := Ascii.eqb c "."%char.
Definition is_sep (c : ascii) : bool := Ascii.eqb c "/"%char.

(** The longest prefix of [l] on which [p] holds, and the rest. *)
Fixpoint span (p : ascii -> bool) (l : list ascii) : list ascii * list ascii :=
  match l with
  | [] => ([], [])
  | c :: l' =>
      if p c then let '(a, b) := span p l' in (c :: a, b) else ([], l)
  end.

(** [os.path.splitext(p)]: the extension starts at the last dot of the last
    path component, unless that component has nothing but dots before it.
    The scan runs from the end of [p]: [ext_rev] is what follows the last dot
    or separator, [stem_rev] what lies between the last separator and the
    last dot. *)
Definition splitext (p : string) : string * string :=
  let '(ext_rev, rest) :=
    span (fun c => negb (is_dot c || is_sep c)) (rev (chars p)) in
  match rest with
  | dot :: before =>
      if is_dot dot then
        let '(stem_rev, _) := span (fun c => negb (is_sep c)) before in
        if existsb (fun c => negb (is_dot c)) stem_rev
        then (of_chars (rev before), of_chars (dot :: rev ext_rev))
        else (p, "")
      else (p, "")
  | [] => (p, "")
  end.

Definition startswith_sep (s : string) : bool :=
  match s with String c _ => is_sep c | EmptyString => false end.

Definition endswith_sep (s : string) : bool :=
  match rev (chars s) with c :: _ => is_sep c | [] => false end.

(** [os.path.join(a, b)] *)
Definition join (a b : string) : string :=
  if startswith_sep b then b
  else if String.eqb a "" || endswith_sep a then a +:+ b
  else a +:+ "/" +:+ b.

End Path.

(** ** The data model *)

(** A decoded raster as PIL holds it. *)
Module Image.
Record t : Type := mk { size : Z * Z; pixels : list (list Z) }.
End Image.

(** A reference to a [ScreenConfig] instance. *)
Definition ref : Type := positive.

Module ScreenConfig.

Record t : Type := mk {
  id : Z;
  ratio_w : Z;
  ratio_h : Z;
  x : Z;
  y : Z;
  width : Z;
  height : Z;
  color : string
}.

Definition colors : list string :=
  ["#CC9709"; "#C74405"; "#CC0058"; "#692ECC"; "#2F6ECC"; "#080E24"].

(** [generate_color]: [colors[screen_id % len(colors)]] *)
Definition generate_color (screen_id : Z) : string :=
  colors !!! Z.to_nat (screen_id mod Z.of_nat (length colors)).

(** [__init__(screen_id, ratio_w=16, ratio_h=9, x=0, y=0)] *)
Definition init (screen_id ratio_w ratio_h x y : Z) : t :=
  mk screen_id ratio_w ratio_h x y 1920 1080 (generate_color screen_id).

Definition set_id (v : Z) (s : t) : t :=
  mk v (ratio_w s) (ratio_h s) (x s) (y s) (width s) (height s) (color s).
Definition set_ratio_w (v : Z) (s : t) : t :=
  mk (id s) v (ratio_h s) (x s) (y s) (width s) (height s) (color s).
Definition set_ratio_h (v : Z) (s : t) : t :=
  mk (id s) (ratio_w s) v (x s) (y s) (width s) (height s) (color s).
Definition set_x (v : Z) (s : t) : t :=
  mk (id s) (ratio_w s) (ratio_h s) v (y s) (width s) (height s) (color s).
Definition set_y (v : Z) (s : t) : t :=
  mk (id s) (ratio_w s) (ratio_h s) (x s) v (width s) (height s) (color s).
Definition set_width (v : Z) (s : t) : t :=
  mk (id s) (ratio_w s) (ratio_h s) (x s) (y s) v (height s) (color s).
Definition set_height (v : Z) (s : t) : t :=
  mk (id s) (ratio_w s) (ratio_h s) (x s) (y s) (width s) v (color s).
Definition set_color (v : string) (s : t) : t :=
  mk (id s) (ratio_w s) (ratio_h s) (x s) (y s) (width s) (height s) v.

(** [get_box]: the crop box [(left, top, right, bottom)] *)
Definition get_box (s : t) : Z * Z * Z * Z :=
  (x s, y s, x s + width s, y s + height s).

#[global] Instance inhabited : Inhabited t := populate (init 0 16 9 0 0).

End ScreenConfig.

(** The entry fields of a [ScreenConfigWidget] and the screen it edits. *)
Module ScreenConfigWidget.

Record t : Type := mk {
  screen_config : ref;
  ratio_w_entry : string;
  ratio_h_entry : string;
  x_entry : string;
  y_entry : string
}.

(** [create_widgets]: every entry starts as [str] of the screen's field. *)
Definition create (r : ref) (s : ScreenConfig.t) : t :=
  mk r (pretty (ScreenConfig.ratio_w s)) (pretty (ScreenConfig.ratio_h s))
       (pretty (ScreenConfig.x s)) (pretty (ScreenConfig.y s)).

End ScreenConfigWidget.

Module GlobalConfigWidget.

Record t : Type := mk {
  ref_width : Z;
  ref_height : Z;
  scale_percent : Z;
  ref_width_entry : string;
  ref_height_entry : string
}.

(** [__init__]: 2560 x 1440 at 50 percent. *)
Definition init : t := mk 2560 1440 50 "2560" "1440".

Definition set_reference (w h : Z) (g : t) : t :=
  mk w h (scale_percent g) (ref_width_entry g) (ref_height_entry g).
Definition set_scale_percent (v : Z) (g : t) : t :=
  mk (ref_width g) (ref_height g) v (ref_width_entry g) (ref_height_entry g).

End GlobalConfigWidget.

(** A rectangle drawn on the preview canvas: its corners and its outline. *)
Record rectangle : Type := Rectangle {
  rect_coords : Z * Z * Z * Z;
  rect_outline : string
}.

(** The attributes of [WallpaperSplitterApp] that the core reads or writes.
    [store] holds the [ScreenConfig] instances; [screens] and the widgets
    refer to them.  [scale_factor], [x_offset] and [y_offset] are set when
    the preview is rebuilt; the offsets do not exist before that. *)
Module App.

Record t : Type := mk {
  image : option Image.t;
  image_path : option string;
  store : gmap ref ScreenConfig.t;
  screens : list ref;
  screen_widgets : list ScreenConfigWidget.t;
  global_config : GlobalConfigWidget.t;
  background_image : option Image.t;
  scale_factor : float;
  x_offset : option Z;
  y_offset : option Z;
  canvas : list rectangle
}.

(** [__init__]: no image, no screen, scale factor 1.0. *)
Definition init : t :=
  mk None None ∅ [] [] GlobalConfigWidget.init None 1%float None None [].

Definition set_store (v : gmap ref ScreenConfig.t) (a : t) : t :=
  mk (image a) (image_path a) v (screens a) (screen_widgets a)
     (global_config a) (background_image a) (scale_factor a)
     (x_offset a) (y_offset a) (canvas a).
Definition set_screens (v : list ref) (a : t) : t :=
  mk (image a) (image_path a) (store a) v (screen_widgets a)
     (global_config a) (background_image a) (scale_factor a)
     (x_offset a) (y_offset a) (canvas a).
Definition set_screen_widgets (v : list ScreenConfigWidget.t) (a : t) : t :=
  mk (image a) (image_path a) (store a) (screens a) v
     (global_config a) (background_image a) (scale_factor a)
     (x_offset a) (y_offset a) (canvas a).
Definition set_global_config (v : GlobalConfigWidget.t) (a : t) : t :=
  mk (image a) (image_path a) (store a) (screens a) (screen_widgets a)
     v (background_image a) (scale_factor a)
     (x_offset a) (y_offset a) (canvas a).
Definition set_canvas (v : list rectangle) (a : t) : t :=
  mk (image a) (image_path a) (store a) (screens a) (screen_widgets a)
     (global_config a) (background_image a) (scale_factor a)
     (x_offset a) (y_offset a) v.

End App.

(** What a path of the file system holds: a raster written by PIL, or
    anything else (a directory, another file, a file left incomplete). *)
Inductive node : Type :=
  | Raster (im : Image.t)
  | Other.

(** The state a method runs in: the application object and the disk. *)
Record World : Type := mkWorld {
  app : App.t;
  disk : gmap string node
}.

(** ** Methods as state transformers *)

Inductive result (A : Type) : Type :=
  | Val (a : A)
  | Exc (e : exn)
  | OutOfFuel.
Arguments Val {A} a.
Arguments Exc {A} e.
Arguments OutOfFuel {A}.

Definition M (A : Type) : Type := World -> result A * World.

Definition ret {A} (a : A) : M A := fun w => (Val a, w).

Definition raise {A} (e : exn) : M A := fun w => (Exc e, w).

Definition bind {A B} (m : M A) (k : A -> M B) : M B :=
  fun w =>
    match m w with
    | (Val a, w') => k a w'
    | (Exc e, w') => (Exc e, w')
    | (OutOfFuel, w') => (OutOfFuel, w')
    end.

Notation "'let*' x ':=' m 'in' k" := (bind m (fun x => k))
  (at level 10, x pattern, m at level 100, k at level 200).
Notation "m1 *> m2" := (bind m1 (fun _ => m2))
  (at level 100, m2 at level 200, right associativity).

(** The value of an expression that may raise. *)
Definition lift {A} (r : exn + A) : M A :=
  match r with inl e => raise e | inr a => ret a end.

(** [try: body except Exception as e: handler(e)] *)
Definition try_except {A} (body : M A) (handler : exn -> M A) : M A :=
  fun w =>
    match body w with
    | (Exc e, w') => handler e w'
    | r => r
    end.

(** [try: body except ValueError: handler] *)
Definition try_except_ValueError {A} (body : M A) (handler : M A) : M A :=
  fun w =>
    match body w with
    | (Exc e, w') => if is_ValueError e then handler w' else (Exc e, w')
    | r => r
    end.

Definition get_app : M App.t := fun w => (Val (app w), w).
Definition modify_app (f : App.t -> App.t) : M unit :=
  fun w => (Val tt, mkWorld (f (app w)) (disk w)).
Definition get_disk : M (gmap string node) := fun w => (Val (disk w), w).
Definition modify_disk (f : gmap string node -> gmap string node) : M unit :=
  fun w => (Val tt, mkWorld (app w) (f (disk w))).

(** Reading the object behind a reference, and assigning to its attributes. *)
Definition read (r : ref) : M ScreenConfig.t :=
  fun w => (Val (App.store (app w) !!! r), w).
Definition assign (r : ref) (f : ScreenConfig.t -> ScreenConfig.t) : M unit :=
  modify_app (fun a => App.set_store (<[r := f (App.store a !!! r)]> (App.store a)) a).

(** [for v in l: body(v)] *)
Fixpoint for_each {A} (l : list A) (body : A -> M unit) : M unit :=
  match l with
  | [] => ret tt
  | v :: l' => body v *> for_each l' body
  end.

(** [for i, v in enumerate(l): body(i, v)], counting from [i]. *)
Fixpoint for_enumerate {A} (i : Z) (l : list A) (body : Z -> A -> M unit) : M unit :=
  match l with
  | [] => ret tt
  | v :: l' => body i v *> for_enumerate (i + 1) l' body
  end.

(** [l.index(v)]: the first position of [v], or [ValueError]. *)
Fixpoint index_from (i : nat) (v : ref) (l : list ref) : option nat :=
  match l with
  | [] => None
  | v' :: l' => if decide (v' = v) then Some i else index_from (S i) v l'
  end.
Definition list_index (l : list ref) (v : ref) : exn + nat :=
  match index_from 0 v l with
  | Some i => inr i
  | None => inl (ValueError "list.index(x): x not in list")
  end.

(** [l.pop(i)] for [0 <= i]: the element removed and the list left. *)
Definition list_pop {A} (l : list A) (i : nat) : exn + (A * list A) :=
  match l !! i with
  | Some v => inr (v, delete i l)
  | None => inl (IndexError "pop index out of range")
  end.

(** What [Image.save] did: it wrote the file, or it raised and left the path
    as it was ([None]) or holding what it had written so far. *)
Inductive save_outcome : Type :=
  | Saved
  | SaveRaised (e : exn) (left_behind : option node).

(** One entry of the export loop: the error recorded for the screen, or the
    path its crop was saved to. *)
Inductive exported : Type :=
  | Failed (error_msg : string)
  | Extracted (filepath : string).

(** What the result dialog of [extract_all] is built from. *)
Record ExtractionResult : Type := mkResult {
  extracted_count : Z;
  errors : list string
}.

(** [0.5 + (scale_percent / 100) * 1.5], as [calculate_resolution] and
    [on_slider_change] both compute it. *)
Definition scale_factor_of (scale_percent : Z) : exn + float :=
  match Py.truediv scale_percent 100 with
  | inl e => inl e
  | inr q => inr (0.5 + q * 1.5)%float
  end.

(** [ScreenConfig.calculate_resolution] *)
Definition calculate_resolution (self : ref)
    (ref_width ref_height scale_percent : Z) : M unit :=
  let* scale_factor := lift (scale_factor_of scale_percent) in
  let max_ref_side := Z.max ref_width ref_height in
  let* m := lift (Py.float_of_int max_ref_side) in
  let scaled_max_side := (m * scale_factor)%float in
  let* s := read self in
  if ScreenConfig.ratio_w s >=? ScreenConfig.ratio_h s then
    let* w := lift (Py.round scaled_max_side) in
    assign self (ScreenConfig.set_width w) *>
    let* r := lift (Py.truediv (ScreenConfig.ratio_h s) (ScreenConfig.ratio_w s)) in
    let* h := lift (Py.round (scaled_max_side * r)%float) in
    assign self (ScreenConfig.set_height h)
  else
    let* h := lift (Py.round scaled_max_side) in
    assign self (ScreenConfig.set_height h) *>
    let* r := lift (Py.truediv (ScreenConfig.ratio_w s) (ScreenConfig.ratio_h s)) in
    let* w := lift (Py.round (scaled_max_side * r)%float) in
    assign self (ScreenConfig.set_width w).

(** [int(n * scale_factor)] for an [int] [n]. *)
Definition scaled (n : Z) (scale_factor : float) : exn + Z :=
  match Py.float_of_int n with
  | inl e => inl e
  | inr f => Py.int_of_float (f * scale_factor)%float
  end.

(** The rectangle [draw_rectangles] computes for one screen:
    [int(screen.x * scale_factor) + x_offset] and so on. *)
Definition project (s : ScreenConfig.t) (scale_factor : float)
    (x_offset y_offset : Z) : exn + (Z * Z * Z * Z) :=
  match scaled (ScreenConfig.x s) scale_factor with
  | inl e => inl e
  | inr x1 =>
  match scaled (ScreenConfig.y s) scale_factor with
  | inl e => inl e
  | inr y1 =>
  match scaled (ScreenConfig.x s + ScreenConfig.width s) scale_factor with
  | inl e => inl e
  | inr x2 =>
  match scaled (ScreenConfig.y s + ScreenConfig.height s) scale_factor with
  | inl e => inl e
  | inr y2 => inr (x1 + x_offset, y1 + y_offset, x2 + x_offset, y2 + y_offset)
  end end end end.

(** [draw_rectangles] *)
Definition draw_rectangles : M unit :=
  let* a := get_app in
  match App.x_offset a, App.y_offset a with
  | Some x_offset, Some y_offset =>
      for_each (App.screens a) (fun screen =>
        let* s := read screen in
        let* box := lift (project s (App.scale_factor a) x_offset y_offset) in
        modify_app (fun a =>
          App.set_canvas (App.canvas a ++ [Rectangle box (ScreenConfig.color s)]) a))
  | _, _ => ret tt
  end.

(** [update_preview_rectangles] *)
Definition update_preview_rectangles : M unit :=
  let* a := get_app in
  match App.image a, App.background_image a with
  | Some _, Some _ =>
      modify_app (App.set_canvas []) *>
      draw_rectangles
  | _, _ => ret tt
  end.

(** [recalculate_all_resolutions] *)
Definition recalculate_all_resolutions : M unit :=
  let* a := get_app in
  let ref_width := GlobalConfigWidget.ref_width (App.global_config a) in
  let ref_height := GlobalConfigWidget.ref_height (App.global_config a) in
  let scale_percent := GlobalConfigWidget.scale_percent (App.global_config a) in
  for_each (App.screens a) (fun screen =>
    calculate_resolution screen ref_width ref_height scale_percent) *>
  update_preview_rectangles.

(** [on_screen_update] and [on_global_config_change] *)
Definition on_screen_update : M unit := recalculate_all_resolutions.
Definition on_global_config_change : M unit := recalculate_all_resolutions.

(** A fresh [ScreenConfig] instance. *)
Definition new_screen (s : ScreenConfig.t) : M ref :=
  let* a := get_app in
  let r := fresh (dom (App.store a)) in
  modify_app (App.set_store (<[r := s]> (App.store a))) *>
  ret r.

(** [ScreenConfigWidget(...)] for a screen, appended to [screen_widgets]. *)
Definition append_widget (screen : ref) : M unit :=
  let* s := read screen in
  modify_app (fun a =>
    App.set_screen_widgets
      (App.screen_widgets a ++ [ScreenConfigWidget.create screen s]) a).

(** [add_screen] *)
Definition add_screen : M unit :=
  let* a := get_app in
  let screen_id := Z.of_nat (length (App.screens a)) in
  let* screen_config := new_screen (ScreenConfig.init screen_id 16 9 0 0) in
  modify_app (fun a => App.set_screens (App.screens a ++ [screen_config]) a) *>
  append_widget screen_config *>
  recalculate_all_resolutions.

(** The body of the loop of [delete_screen] that reorganizes ids and colors. *)
Definition renumber (i : Z) (screen : ref) : M unit :=
  assign screen (ScreenConfig.set_id i) *>
  assign screen (ScreenConfig.set_color (ScreenConfig.generate_color i)).

(** [delete_screen] *)
Definition delete_screen (screen_config : ref) : M unit :=
  try_except
    (let* a := get_app in
     let* index := lift (list_index (App.screens a) screen_config) in
     let* popped := lift (list_pop (App.screens a) index) in
     modify_app (App.set_screens (snd popped)) *>
     let* a := get_app in
     let* popped := lift (list_pop (App.screen_widgets a) index) in
     modify_app (App.set_screen_widgets (snd popped)) *>
     let* a := get_app in
     for_enumerate 0 (App.screens a) renumber *>
     modify_app (App.set_screen_widgets []) *>
     let* a := get_app in
     for_each (App.screens a) append_widget *>
     recalculate_all_resolutions)
    (fun _ => ret tt).

(** [on_slider_change]: the slider hands over a [float]. *)
Definition on_slider_change (value : float) : M unit :=
  let* scale_percent := lift (Py.int_of_float value) in
  modify_app (fun a =>
    App.set_global_config
      (GlobalConfigWidget.set_scale_percent scale_percent (App.global_config a)) a) *>
  let* scale_factor := lift (scale_factor_of scale_percent) in
  on_global_config_change.

(** [f"{name}_{counter}{ext}"]: the path [get_unique_filename] tries for a
    counter. *)
Definition numbered (name ext : string) (counter : Z) : string :=
  name +:+ "_" +:+ pretty counter +:+ ext.

(** [f"wallpaper_screen_{screen.ratio_w}-{screen.ratio_h}"]: the file name
    [extract_all] starts from, before the extension is appended. *)
Definition screen_stem (s : ScreenConfig.t) : string :=
  "wallpaper_screen_" +:+ pretty (ScreenConfig.ratio_w s) +:+ "-"
  +:+ pretty (ScreenConfig.ratio_h s).

(** The two error messages of the export loop. *)
Definition boundary_msg (s : ScreenConfig.t) : string :=
  "Screen " +:+ pretty (ScreenConfig.id s + 1) +:+ " exceeds image boundaries".
Definition error_msg_of (s : ScreenConfig.t) (e : exn) : string :=
  "Error screen " +:+ pretty (ScreenConfig.id s + 1) +:+ ": " +:+ exn_str e.

(** [os.path.exists] *)
Definition exists_ (p : string) : M bool :=
  let* d := get_disk in ret (bool_decide (is_Some (d !! p))).

(** The [while True] loop of [get_unique_filename]. *)
Fixpoint unique_loop (fuel : nat) (name ext : string) (counter : Z) : M string :=
  match fuel with
  | O => fun w => (OutOfFuel, w)
  | S fuel' =>
      let new_path := numbered name ext counter in
      let* found := exists_ new_path in
      if negb found then ret new_path
      else unique_loop fuel' name ext (counter + 1)
  end.

(** [get_unique_filename] *)
Definition get_unique_filename (fuel : nat) (base_path : string) : M string :=
  let* found := exists_ base_path in
  if negb found then ret base_path
  else
    let '(name, ext) := Path.splitext base_path in
    unique_loop fuel name ext 2.

(** The bounds test of [extract_all], as the source writes it. *)
Definition exceeds (s : ScreenConfig.t) (img_width img_height : Z) : bool :=
  (ScreenConfig.x s <? 0) || (ScreenConfig.y s <? 0)
  || (ScreenConfig.x s + ScreenConfig.width s >? img_width)
  || (ScreenConfig.y s + ScreenConfig.height s >? img_height).

Section Collaborators.

(** [int(s)] on the text of an entry field: [None] stands for [ValueError]. *)
Variable int_of_str : string -> option Z.

(** PIL's [Image.crop(box)] and [Image.save(path)].  Saving touches no path
    but its own. *)
Variable crop : Image.t -> Z * Z * Z * Z -> exn + Image.t.
Variable save : gmap string node -> Image.t -> string -> save_outcome.

Definition int_ (s : string) : M Z :=
  match int_of_str s with
  | Some n => ret n
  | None => raise (ValueError "invalid literal for int() with base 10")
  end.

(** [ScreenConfigWidget.update_config] *)
Definition update_config (self : ScreenConfigWidget.t) : M unit :=
  try_except_ValueError
    (let* ratio_w := int_ (ScreenConfigWidget.ratio_w_entry self) in
     let* ratio_h := int_ (ScreenConfigWidget.ratio_h_entry self) in
     let* x := int_ (ScreenConfigWidget.x_entry self) in
     let* y := int_ (ScreenConfigWidget.y_entry self) in
     if (ratio_w <=? 0) || (ratio_h <=? 0) then ret tt
     else
       let screen_config := ScreenConfigWidget.screen_config self in
       assign screen_config (ScreenConfig.set_ratio_w ratio_w) *>
       assign screen_config (ScreenConfig.set_ratio_h ratio_h) *>
       assign screen_config (ScreenConfig.set_x x) *>
       assign screen_config (ScreenConfig.set_y y) *>
       on_screen_update)
    (ret tt).

(** [GlobalConfigWidget.apply_reference] *)
Definition apply_reference : M unit :=
  try_except_ValueError
    (let* a := get_app in
     let* new_width := int_ (GlobalConfigWidget.ref_width_entry (App.global_config a)) in
     let* new_height := int_ (GlobalConfigWidget.ref_height_entry (App.global_config a)) in
     if (new_width <=? 0) || (new_height <=? 0) then ret tt
     else
       modify_app (fun a =>
         App.set_global_config
           (GlobalConfigWidget.set_reference new_width new_height (App.global_config a)) a) *>
       on_global_config_change)
    (ret tt).

(** [cropped.save(filepath)] *)
Definition save_image (cropped : Image.t) (filepath : string) : M unit :=
  let* d := get_disk in
  match save d cropped filepath with
  | Saved => modify_disk (insert filepath (Raster cropped))
  | SaveRaised e None => raise e
  | SaveRaised e (Some n) => modify_disk (insert filepath n) *> raise e
  end.

(** The body of the [try] in the loop of [extract_all], for one screen. *)
Definition extract_screen (fuel : nat) (output_folder : string) (screen : ref)
    : M exported :=
  let* a := get_app in
  let* s := read screen in
  match App.image a with
  | None => raise (TypeError "'NoneType' object has no attribute 'size'")
  | Some image =>
      let '(img_width, img_height) := Image.size image in
      if exceeds s img_width img_height then
        ret (Failed (boundary_msg s))
      else
        let* cropped := lift (crop image (ScreenConfig.get_box s)) in
        match App.image_path a with
        | None => raise (TypeError "expected str, bytes or os.PathLike object, not NoneType")
        | Some image_path =>
            let ext := snd (Path.splitext image_path) in
            let filename := screen_stem s +:+ ext in
            let filepath := Path.join output_folder filename in
            let* filepath := get_unique_filename fuel filepath in
            save_image cropped filepath *>
            ret (Extracted filepath)
        end
  end.

(** The [try] statement in the loop of [extract_all]: the body, and the
    error recorded when it raises. *)
Definition extract_step (fuel : nat) (output_folder : string) (screen : ref)
    : M exported :=
  try_except (extract_screen fuel output_folder screen)
    (fun e =>
       let* s := read screen in
       ret (Failed (error_msg_of s e))).

(** The loop of [extract_all] with its two counters. *)
Fixpoint extract_loop (fuel : nat) (output_folder : string) (l : list ref)
    (extracted_count : Z) (errors : list string) : M ExtractionResult :=
  match l with
  | [] => ret (mkResult extracted_count errors)
  | screen :: l' =>
      let* r := extract_step fuel output_folder screen in
      match r with
      | Failed error_msg =>
          extract_loop fuel output_folder l' extracted_count (errors ++ [error_msg])
      | Extracted _ =>
          extract_loop fuel output_folder l' (extracted_count + 1) errors
      end
  end.

(** [extract_all], given the folder the user chose (empty when the dialog was
    cancelled); [None] when it returns before the loop. *)
Definition extract_all (fuel : nat) (output_folder : string)
    : M (option ExtractionResult) :=
  let* a := get_app in
  match App.image a with
  | None => ret None
  | Some _ =>
      if (length (App.screens a) =? 0)%nat then ret None
      else if String.eqb output_folder "" then ret None
      else
        let* r := extract_loop fuel output_folder (App.screens a) 0 [] in
        ret (Some r)
  end.

End Collaborators.

(** ** The specification's contracts, read on the methods *)

(** A world that holds one screen of the given ratio and nothing else. *)
Definition single_screen (ratio_w ratio_h : Z) : World :=
  mkWorld
    (App.set_screens [1%positive]
       (App.set_store {[ 1%positive := ScreenConfig.init 0 ratio_w ratio_h 0 0 ]}
          App.init))
    ∅.

(** [compute_resolution(ratio_w, ratio_h, reference_width, reference_height,
    scale_percent) -> (width, height)]: what [calculate_resolution] leaves in
    the [width] and [height] of a screen of that ratio. *)
Definition compute_resolution
    (ratio_w ratio_h reference_width reference_height scale_percent : Z)
    : result (Z * Z) :=
  match calculate_resolution 1%positive reference_width reference_height
          scale_percent (single_screen ratio_w ratio_h) with
  | (Val _, w) =>
      let s := App.store (app w) !!! 1%positive in
      Val (ScreenConfig.width s, ScreenConfig.height s)
  | (Exc e, _) => Exc e
  | (OutOfFuel, _) => OutOfFuel
  end.

(** [scaled_max_side = max(reference_width, reference_height) * scale_factor] *)
Definition scaled_max_side (reference_width reference_height scale_percent : Z)
    : exn + float :=
  match scale_factor_of scale_percent with
  | inl e => inl e
  | inr scale_factor =>
      match Py.float_of_int (Z.max reference_width reference_height) with
      | inl e => inl e
      | inr m => inr (m * scale_factor)%float
      end
  end.

(** The algorithm in the specification's words: the first dimension is
    [round(scaled_max_side)], the second one is computed from that rounded
    dimension, [round(width * ratio_h / ratio_w)]. *)
Definition spec_compute_resolution
    (ratio_w ratio_h reference_width reference_height scale_percent : Z)
    : exn + (Z * Z) :=
  match scaled_max_side reference_width reference_height scale_percent with
  | inl e => inl e
  | inr side =>
      match Py.round side with
      | inl e => inl e
      | inr first =>
          if ratio_w >=? ratio_h then
            match Py.truediv (first * ratio_h) ratio_w with
            | inl e => inl e
            | inr q =>
                match Py.round q with
                | inl e => inl e
                | inr height => inr (first, height)
                end
            end
          else
            match Py.truediv (first * ratio_w) ratio_h with
            | inl e => inl e
            | inr q =>
                match Py.round q with
                | inl e => inl e
                | inr width => inr (width, first)
                end
            end
      end
  end.

(** The algorithm with the second dimension taken from the side before it is
    rounded: [round(scaled_max_side * (ratio_h / ratio_w))]. *)
Definition resolution_from_scaled_side
    (ratio_w ratio_h reference_width reference_height scale_percent : Z)
    : exn + (Z * Z) :=
  match scaled_max_side reference_width reference_height scale_percent with
  | inl e => inl e
  | inr side =>
      match Py.round side with
      | inl e => inl e
      | inr first =>
          let '(num, den) :=
            if ratio_w >=? ratio_h then (ratio_h, ratio_w) else (ratio_w, ratio_h) in
          match Py.truediv num den with
          | inl e => inl e
          | inr q =>
              match Py.round (side * q)%float with
              | inl e => inl e
              | inr second =>
                  inr (if ratio_w >=? ratio_h then (first, second) else (second, first))
              end
          end
      end
  end.

(** [floor(n * scale_factor)] for an [int] [n]. *)
Definition floored (n : Z) (scale_factor : float) : exn + Z :=
  match Py.float_of_int n with
  | inl e => inl e
  | inr f => Py.floor (f * scale_factor)%float
  end.

(** The preview projection in the specification's words:
    [floor(screen.x * scale_factor) + x_offset] and so on. *)
Definition spec_project (s : ScreenConfig.t) (scale_factor : float)
    (x_offset y_offset : Z) : exn + (Z * Z * Z * Z) :=
  match floored (ScreenConfig.x s) scale_factor with
  | inl e => inl e
  | inr x1 =>
  match floored (ScreenConfig.y s) scale_factor with
  | inl e => inl e
  | inr y1 =>
  match floored (ScreenConfig.x s + ScreenConfig.width s) scale_factor with
  | inl e => inl e
  | inr x2 =>
  match floored (ScreenConfig.y s + ScreenConfig.height s) scale_factor with
  | inl e => inl e
  | inr y2 => inr (x1 + x_offset, y1 + y_offset, x2 + x_offset, y2 + y_offset)
  end end end end.

(** [int(n * scale_factor)] read through [floor]: the floor of a product that
    is not below zero, and the opposite of the floor of the opposite product
    (the ceiling) of one that is.  This is what dropping the fraction means. *)
Definition truncated (n : Z) (scale_factor : float) : exn + Z :=
  match Py.float_of_int n with
  | inl e => inl e
  | inr f =>
      let v := (f * scale_factor)%float in
      if (v <? 0)%float then
        match Py.floor (- v) with
        | inl e => inl e
        | inr z => inr (- z)
        end
      else Py.floor v
  end.

(** The preview projection with every product rounded toward zero. *)
Definition truncated_project (s : ScreenConfig.t) (scale_factor : float)
    (x_offset y_offset : Z) : exn + (Z * Z * Z * Z) :=
  match truncated (ScreenConfig.x s) scale_factor with
  | inl e => inl e
  | inr x1 =>
  match truncated (ScreenConfig.y s) scale_factor with
  | inl e => inl e
  | inr y1 =>
  match truncated (ScreenConfig.x s + ScreenConfig.width s) scale_factor with
  | inl e => inl e
  | inr x2 =>
  match truncated (ScreenConfig.y s + ScreenConfig.height s) scale_factor with
  | inl e => inl e
  | inr y2 => inr (x1 + x_offset, y1 + y_offset, x2 + x_offset, y2 + y_offset)
  end end end end.

(** The screen list and the widget list run in parallel, no instance is
    listed twice, and every screen listed is in the store: what [__init__]
    sets up and [add_screen] and [delete_screen] keep. *)
Definition consistent (a : App.t) : Prop :=
  NoDup (App.screens a) /\
  length (App.screen_widgets a) = length (App.screens a) /\
  forall r, r ∈ App.screens a -> is_Some (App.store a !! r).

(** The attributes of a screen that only [update_config] and
    [delete_screen] assign: everything but the computed resolution. *)
Definition identity_of (s : ScreenConfig.t) : Z * Z * Z * Z * Z * string :=
  (ScreenConfig.id s, ScreenConfig.ratio_w s, ScreenConfig.ratio_h s,
   ScreenConfig.x s, ScreenConfig.y s, ScreenConfig.color s).

(** ** Collaborators for the worked examples *)

(** [int(s)] on plain decimal literals with an optional minus sign. *)
Fixpoint digits_value (acc : Z) (l : list ascii) : option Z :=
  match l with
  | [] => Some acc
  | c :: l' =>
      let n := Z.of_nat (nat_of_ascii c) in
      if (48 <=? n) && (n <=? 57) then digits_value (10 * acc + (n - 48)) l'
      else None
  end.
Definition decimal_int (s : string) : option Z :=
  match Path.chars s with
  | [] => None
  | c :: l =>
      if Ascii.eqb c "-"%char
      then match l with [] => None | _ => Z.opp <$> digits_value 0 l end
      else digits_value 0 (c :: l)
  end.

(** Cropping a raster held as rows of pixels. *)
Definition crop_pixels (im : Image.t) (box : Z * Z * Z * Z) : exn + Image.t :=
  let '(x0, y0, x1, y1) := box in
  inr (Image.mk (x1 - x0, y1 - y0)
         ((fun row => take (Z.to_nat (x1 - x0)) (drop (Z.to_nat x0) row))
            <$> take (Z.to_nat (y1 - y0)) (drop (Z.to_nat y0) (Image.pixels im)))).

(** Saving as PIL decides it from the extension: a format it does not know
    raises before any file is opened. *)
Definition save_by_extension (d : gmap string node) (im : Image.t)
    (filepath : string) : save_outcome :=
  let ext := snd (Path.splitext filepath) in
  if bool_decide (ext ∈ [".png"; ".jpg"; ".jpeg"; ".bmp"; ".gif"])
  then Saved
  else SaveRaised (ValueError ("unknown file extension: " +:+ ext)) None.

(** A 4 x 3 raster. *)
Definition small_image : Image.t :=
  Image.mk (4, 3) [[1; 2; 3; 4]; [5; 6; 7; 8]; [9; 10; 11; 12]].

(** The world after [self.width] and [self.height] were assigned. *)
Definition with_resolution (w : World) (self : ref) (width height : Z) : World :=
  mkWorld
    (App.set_store
       (<[self := ScreenConfig.set_height height
                    (ScreenConfig.set_width width (App.store (app w) !!! self))]>
          (App.store (app w)))
       (app w))
    (disk w).


(** ** Notions the statements use *)

(** Not below zero: anything but a negative number or minus infinity. *)
Definition not_negative (x : spec_float) : Prop :=
  match x with
  | S754_finite true _ _ | S754_infinity true => False
  | _ => True
  end.

(** [wp m Q w]: running [m] from [w] ends in an outcome and a world that
    satisfy [Q]. *)
Definition wp {A} (m : M A) (Q : result A -> World -> Prop) (w : World) : Prop :=
  Q (fst (m w)) (snd (m w)).

(** The screen list, the widgets, the global settings, the disk, the
    instances of the store and everything about a screen but its
    resolution. *)
Definition same_settings (w w' : World) : Prop :=
  App.screens (app w') = App.screens (app w) /\
  App.screen_widgets (app w') = App.screen_widgets (app w) /\
  App.global_config (app w') = App.global_config (app w) /\
  disk w' = disk w /\
  dom (App.store (app w)) ⊆ dom (App.store (app w')) /\
  forall r, identity_of (App.store (app w') !!! r)
            = identity_of (App.store (app w) !!! r).

(** A screen after [renumber]. *)
Definition renumbered (i : Z) (s : ScreenConfig.t) : ScreenConfig.t :=
  ScreenConfig.set_color (ScreenConfig.generate_color i) (ScreenConfig.set_id i s).

(** The edit of a screen is refused: a field is no integer, or a term of the
    ratio is not positive. *)
Definition screen_edit_rejected (int_of_str : string -> option Z)
    (self : ScreenConfigWidget.t) : Prop :=
  int_of_str (ScreenConfigWidget.ratio_w_entry self) = None \/
  int_of_str (ScreenConfigWidget.ratio_h_entry self) = None \/
  int_of_str (ScreenConfigWidget.x_entry self) = None \/
  int_of_str (ScreenConfigWidget.y_entry self) = None \/
  (exists n, int_of_str (ScreenConfigWidget.ratio_w_entry self) = Some n /\ n <= 0) \/
  (exists n, int_of_str (ScreenConfigWidget.ratio_h_entry self) = Some n /\ n <= 0).

(** The edit of the reference resolution is refused: a field is no integer,
    or a dimension is not positive. *)
Definition reference_edit_rejected (int_of_str : string -> option Z)
    (g : GlobalConfigWidget.t) : Prop :=
  int_of_str (GlobalConfigWidget.ref_width_entry g) = None \/
  int_of_str (GlobalConfigWidget.ref_height_entry g) = None \/
  (exists n, int_of_str (GlobalConfigWidget.ref_width_entry g) = Some n /\ n <= 0) \/
  (exists n, int_of_str (GlobalConfigWidget.ref_height_entry g) = Some n /\ n <= 0).

(** [p] is the path [get_unique_filename] owes for [base_path] on disk [d]:
    free; [base_path] itself when that is free; otherwise numbered with the
    least counter from 2 on whose path is free. *)
Definition first_free (d : gmap string node) (base_path p : string) : Prop :=
  d !! p = None /\
  (d !! base_path = None -> p = base_path) /\
  (is_Some (d !! base_path) ->
   exists k,
     2 <= k /\
     p = numbered (fst (Path.splitext base_path)) (snd (Path.splitext base_path)) k /\
     forall j, 2 <= j < k ->
       is_Some (d !! numbered (fst (Path.splitext base_path))
                              (snd (Path.splitext base_path)) j)).




(** The bounds of the specification: the box of the screen lies within an
    image of the given size. *)
Definition in_bounds (s : ScreenConfig.t) (img_width img_height : Z) : Prop :=
  0 <= ScreenConfig.x s /\ 0 <= ScreenConfig.y s /\
  ScreenConfig.x s + ScreenConfig.width s <= img_width /\
  ScreenConfig.y s + ScreenConfig.height s <= img_height.

(** The number of screens saved, and the errors recorded, in loop order. *)
Fixpoint count_extracted (outs : list exported) : Z :=
  match outs with
  | [] => 0
  | Extracted _ :: outs' => 1 + count_extracted outs'
  | Failed _ :: outs' => count_extracted outs'
  end.
Fixpoint failures (outs : list exported) : list string :=
  match outs with
  | [] => []
  | Extracted _ :: outs' => failures outs'
  | Failed error_msg :: outs' => error_msg :: failures outs'
  end.

(** What an outcome of the export loop says of the files: the count of the
    screens saved, and the world left. *)
Definition saved_of (x : result ExtractionResult * World) : result Z * World :=
  (match fst x with
   | Val r => Val (extracted_count r)
   | Exc e => Exc e
   | OutOfFuel => OutOfFuel
   end, snd x).

(** A run of the export loop: every screen of the list gets its turn, in
    order, from the world the turn before left. *)
Inductive exports (step : ref -> M exported)
    : list ref -> World -> list exported -> World -> Prop :=
  | exports_nil w : exports step [] w [] w
  | exports_cons screen l w out w1 outs w2 :
      step screen w = (Val out, w1) ->
      exports step l w1 outs w2 ->
      exports step (screen :: l) w (out :: outs) w2.




(** ** Worked states *)

(** The application after four [add_screen]. *)
Definition four_screens : World :=
  snd (add_screen (snd (add_screen (snd (add_screen (snd (add_screen
    (mkWorld App.init ∅)))))))).

(** A 2 x 2 screen at the given position. *)
Definition small_screen (id x y : Z) : ScreenConfig.t :=
  ScreenConfig.mk id 16 9 x y 2 2 (ScreenConfig.generate_color id).

(** A loaded image with one screen inside it and one across its border, and
    a disk that already holds the first file name. *)
Definition export_world (image_path : string) : World :=
  mkWorld
    (App.mk (Some small_image) (Some image_path)
       {[ 1%positive := small_screen 0 1 1; 2%positive := small_screen 1 3 2 ]}
       [1%positive; 2%positive] [] GlobalConfigWidget.init None 1%float None None [])
    {[ "/out/wallpaper_screen_16-9.png" := Other ]}.

(** A widget whose ratio height was edited to 0. *)
Definition zero_height_widget : ScreenConfigWidget.t :=
  ScreenConfigWidget.mk 1%positive "16" "0" "5" "5".

(** A disk on which a name and its first numbered variant are taken. *)
Definition two_names_taken : World :=
  mkWorld App.init {[ "/out/a.png" := Other; "/out/a_2.png" := Other ]}.

(** A widget whose fields were edited to 4:3 at (10, 20). *)
Definition edited_widget : ScreenConfigWidget.t :=
  ScreenConfigWidget.mk 1%positive "4" "3" "10" "20".

(** An application whose reference width was edited to 0, and one whose
    reference was edited to 1920 x 1080. *)
Definition zero_reference : World :=
  mkWorld
    (App.set_global_config (GlobalConfigWidget.mk 2560 1440 50 "0" "1440") App.init) ∅.
Definition edited_reference : World :=
  mkWorld
    (App.set_global_config (GlobalConfigWidget.mk 2560 1440 50 "1920" "1080") App.init)
    ∅.

(** ** More of the program, and the notions of its further properties *)

(** [ScreenConfig.get_ratio_string]: [f"{self.ratio_w}:{self.ratio_h}"] *)
Definition get_ratio_string (s : ScreenConfig.t) : string :=
  pretty (ScreenConfig.ratio_w s) +:+ ":" +:+ pretty (ScreenConfig.ratio_h s).

(** [ScreenConfigWidget.delete_screen]: the Delete button of a widget hands
    its screen to [WallpaperSplitterApp.delete_screen]. *)
Definition widget_delete_screen (self : ScreenConfigWidget.t) : M unit :=
  delete_screen (ScreenConfigWidget.screen_config self).

(** Every screen of the list has its position as id, and the color of that
    id. *)
Definition numbered_in_order (a : App.t) : Prop :=
  forall k r,
    App.screens a !! k = Some r ->
    ScreenConfig.id (App.store a !!! r) = Z.of_nat k /\
    ScreenConfig.color (App.store a !!! r) = ScreenConfig.generate_color (Z.of_nat k).

(** The widget at a position edits the screen at that position. *)
Definition widgets_in_step (a : App.t) : Prop :=
  ScreenConfigWidget.screen_config <$> App.screen_widgets a = App.screens a.

(** The entry fields of every widget show the settings of its screen. *)
Definition widgets_fresh (a : App.t) : Prop :=
  App.screen_widgets a
  = (fun r => ScreenConfigWidget.create r (App.store a !!! r)) <$> App.screens a.

(** Both terms of the ratio of every screen of the list are positive, and so
    are both sides of the reference resolution. *)
Definition ratios_positive (a : App.t) : Prop :=
  forall r,
    r ∈ App.screens a ->
    0 < ScreenConfig.ratio_w (App.store a !!! r) /\
    0 < ScreenConfig.ratio_h (App.store a !!! r).
Definition reference_positive (a : App.t) : Prop :=
  0 < GlobalConfigWidget.ref_width (App.global_config a) /\
  0 < GlobalConfigWidget.ref_height (App.global_config a).

(** The world after [update_config] assigned the four settings of a screen. *)
Definition with_settings (w : World) (self : ref) (ratio_w ratio_h x y : Z) : World :=
  mkWorld
    (App.set_store
       (<[self := ScreenConfig.set_y y
                    (ScreenConfig.set_x x
                       (ScreenConfig.set_ratio_h ratio_h
                          (ScreenConfig.set_ratio_w ratio_w
                             (App.store (app w) !!! self))))]>
          (App.store (app w)))
       (app w))
    (disk w).

(** The world after [add_screen] appended a screen and its widget, before it
    recomputes the resolutions. *)
Definition with_new_screen (w : World) : World :=
  let r := fresh (dom (App.store (app w))) in
  let s := ScreenConfig.init (Z.of_nat (length (App.screens (app w)))) 16 9 0 0 in
  mkWorld
    (App.set_screen_widgets
       (App.screen_widgets (app w) ++ [ScreenConfigWidget.create r s])
       (App.set_screens (App.screens (app w) ++ [r])
          (App.set_store (<[r := s]> (App.store (app w))) (app w))))
    (disk w).

(** The world after [delete_screen] took out the entry at [index], gave the
    screens left the store [m] and built their widgets anew, before it
    recomputes the resolutions. *)
Definition without_screen (w : World) (index : nat) (m : gmap ref ScreenConfig.t)
    : World :=
  mkWorld
    (App.set_screen_widgets
       ((fun r => ScreenConfigWidget.create r (m !!! r))
          <$> delete index (App.screens (app w)))
       (App.set_screens (delete index (App.screens (app w)))
          (App.set_store m (app w))))
    (disk w).

(** The screen list and the widget list of an application in order: the
    application is consistent, its screens are numbered by position, and its
    widgets edit the screens of their positions. *)
Definition well_formed (a : App.t) : Prop :=
  consistent a /\ numbered_in_order a /\ widgets_in_step a.

(** The settings a division depends on are positive. *)
Definition positive_settings (a : App.t) : Prop :=
  ratios_positive a /\ reference_positive a.

(** ** Loading an image and building the preview *)

(** Assignments to the attributes of the preview. *)
Definition set_image (v : option Image.t) (a : App.t) : App.t :=
  App.mk v (App.image_path a) (App.store a) (App.screens a) (App.screen_widgets a)
    (App.global_config a) (App.background_image a) (App.scale_factor a)
    (App.x_offset a) (App.y_offset a) (App.canvas a).
Definition set_image_path (v : option string) (a : App.t) : App.t :=
  App.mk (App.image a) v (App.store a) (App.screens a) (App.screen_widgets a)
    (App.global_config a) (App.background_image a) (App.scale_factor a)
    (App.x_offset a) (App.y_offset a) (App.canvas a).
Definition set_background_image (v : option Image.t) (a : App.t) : App.t :=
  App.mk (App.image a) (App.image_path a) (App.store a) (App.screens a)
    (App.screen_widgets a) (App.global_config a) v (App.scale_factor a)
    (App.x_offset a) (App.y_offset a) (App.canvas a).
Definition set_scale_factor (v : float) (a : App.t) : App.t :=
  App.mk (App.image a) (App.image_path a) (App.store a) (App.screens a)
    (App.screen_widgets a) (App.global_config a) (App.background_image a) v
    (App.x_offset a) (App.y_offset a) (App.canvas a).
Definition set_x_offset (v : option Z) (a : App.t) : App.t :=
  App.mk (App.image a) (App.image_path a) (App.store a) (App.screens a)
    (App.screen_widgets a) (App.global_config a) (App.background_image a)
    (App.scale_factor a) v (App.y_offset a) (App.canvas a).
Definition set_y_offset (v : option Z) (a : App.t) : App.t :=
  App.mk (App.image a) (App.image_path a) (App.store a) (App.screens a)
    (App.screen_widgets a) (App.global_config a) (App.background_image a)
    (App.scale_factor a) (App.x_offset a) v (App.canvas a).

(** [min(a, b)] on two [float]s: [b] when [b < a], and [a] otherwise. *)
Definition min_float (a b : float) : float := if (b <? a)%float then b else a.

(** The [float] that the literal [0.9] denotes. *)
Definition nine_tenths : float := 0x1.ccccccccccccdp-1%float.

(** How [load_image] ends: the dialog was cancelled; the image is shown, the
    preview being drawn or put off by [root.after]; or the label reads
    [Loading error]. *)
Inductive loaded : Type :=
  | Cancelled
  | Shown (put_off : bool)
  | LoadingError.

Section Preview.

(** PIL's [Image.open(path)], [Image.resize(size, LANCZOS)] and
    [ImageTk.PhotoImage(image)]. *)
Variable open_ : gmap string node -> string -> exn + Image.t.
Variable resize : Image.t -> Z * Z -> exn + Image.t.
Variable photo_image : Image.t -> exn + unit.

(** [update_preview_full], given the width and the height that the canvas
    reports after [update()], no handler being run by that call.  It returns
    [true] when it has put itself off by [root.after].  Of the items of the
    canvas, [canvas] holds the rectangles: [delete("all")] empties it, and
    the background image that [create_image] shows is [background_image]
    at the offsets. *)
Definition update_preview_full (canvas_width canvas_height : Z) : M bool :=
  let* a := get_app in
  match App.image a with
  | None => ret false
  | Some image =>
      modify_app (App.set_canvas []) *>
      if (canvas_width <=? 1) || (canvas_height <=? 1) then ret true
      else
        let '(img_width, img_height) := Image.size image in
        let* scale_w := lift (Py.truediv canvas_width img_width) in
        let* scale_h := lift (Py.truediv canvas_height img_height) in
        let scale_factor := (min_float scale_w scale_h * nine_tenths)%float in
        modify_app (set_scale_factor scale_factor) *>
        let* new_width := lift (scaled img_width scale_factor) in
        let* new_height := lift (scaled img_height scale_factor) in
        let* background := lift (resize image (new_width, new_height)) in
        modify_app (set_background_image (Some background)) *>
        lift (photo_image background) *>
        modify_app (set_x_offset (Some ((canvas_width - new_width) / 2))) *>
        modify_app (set_y_offset (Some ((canvas_height - new_height) / 2))) *>
        draw_rectangles *>
        ret false
  end.

(** [load_image], given the path the dialog returned (empty when it was
    cancelled) and the size of the canvas. *)
Definition load_image (file_path : string) (canvas_width canvas_height : Z)
    : M loaded :=
  if String.eqb file_path "" then ret Cancelled
  else
    try_except
      (let* d := get_disk in
       let* image := lift (open_ d file_path) in
       modify_app (set_image (Some image)) *>
       modify_app (set_image_path (Some file_path)) *>
       let* put_off := update_preview_full canvas_width canvas_height in
       ret (Shown put_off))
      (fun _ => ret LoadingError).

End Preview.

(** The image, its path, the store, the two lists, the global settings and
    the disk: everything but the preview. *)
Definition same_document (w w' : World) : Prop :=
  App.image (app w') = App.image (app w) /\
  App.image_path (app w') = App.image_path (app w) /\
  App.store (app w') = App.store (app w) /\
  App.screens (app w') = App.screens (app w) /\
  App.screen_widgets (app w') = App.screen_widgets (app w) /\
  App.global_config (app w') = App.global_config (app w) /\
  disk w' = disk w.

(** Collaborators for the examples: opening reads the raster a path holds,
    resizing keeps the top left pixel, and a Tk image can be made of any
    raster that is not empty. *)
Definition open_raster (d : gmap string node) (file_path : string) : exn + Image.t :=
  match d !! file_path with
  | Some (Raster im) => inr im
  | Some Other => inl (OSError "cannot identify image file")
  | None => inl (OSError "No such file or directory")
  end.
Definition resize_flat (im : Image.t) (size : Z * Z) : exn + Image.t :=
  if (fst size <=? 0) || (snd size <=? 0)
  then inl (ValueError "height and width must be > 0")
  else
    inr (Image.mk size
           (replicate (Z.to_nat (snd size))
              (replicate (Z.to_nat (fst size))
                 (default 0 (head (default [] (head (Image.pixels im)))))))).
Definition photo_of (im : Image.t) : exn + unit := inr tt.

(** A disk with one picture and one file that is no picture, and an
    application that has loaded nothing yet. *)
Definition picture_world : World :=
  mkWorld App.init {[ "/pics/wall.png" := Raster small_image; "/pics/notes.txt" := Other ]}.

(** An image 100 pixels wide and one pixel high, on a disk. *)
Definition strip_image : Image.t := Image.mk (100, 1) [replicate 100 7].
Definition strip_world : World :=
  mkWorld App.init {[ "/pics/strip.png" := Raster strip_image ]}.

(** The resolution a screen holds is the one the algorithm gives for its
    ratio under the given reference and scale. *)
Definition resolved (ref_width ref_height scale_percent : Z) (s : ScreenConfig.t)
    : Prop :=
  resolution_from_scaled_side (ScreenConfig.ratio_w s) (ScreenConfig.ratio_h s)
    ref_width ref_height scale_percent
  = inr (ScreenConfig.width s, ScreenConfig.height s).

(** The screen behind [r] holds the resolution of its ratio under the global
    settings of the application. *)
Definition up_to_date (a : App.t) (r : ref) : Prop :=
  resolved (GlobalConfigWidget.ref_width (App.global_config a))
    (GlobalConfigWidget.ref_height (App.global_config a))
    (GlobalConfigWidget.scale_percent (App.global_config a))
    (App.store a !!! r).

(** An application with a screen of ratio 0:0 behind the first of two. *)
Definition zero_ratio_world : World :=
  mkWorld
    (App.set_screens [1%positive; 2%positive]
       (App.set_store
          {[ 1%positive := ScreenConfig.init 0 4 3 0 0;
             2%positive := ScreenConfig.init 1 0 0 0 0 ]}
          App.init))
    ∅.

(** What [draw_rectangles] draws for the screen behind [r]: the projection
    of the screen, outlined in its color. *)
Definition drawn (a : App.t) (x_offset y_offset : Z) (r : ref) (rect : rectangle)
    : Prop :=
  project (App.store a !!! r) (App.scale_factor a) x_offset y_offset
  = inr (rect_coords rect) /\
  rect_outline rect = ScreenConfig.color (App.store a !!! r).

(** An application with an image, a preview at scale 0.5 and offsets
    (10, 20), and two screens. *)
Definition preview_world : World :=
  mkWorld
    (App.mk (Some small_image) (Some "/pics/wall.png")
       {[ 1%positive := small_screen 0 0 0; 2%positive := small_screen 1 2 1 ]}
       [1%positive; 2%positive] [] GlobalConfigWidget.init (Some small_image)
       0.5%float (Some 10) (Some 20)
       [Rectangle (0, 0, 0, 0) "#000000"])
    ∅.

(** The same application before any preview, with a first screen that covers
    the image. *)
Definition covered_world : World :=
  mkWorld
    (App.mk (Some small_image) (Some "/pics/wall.png")
       {[ 1%positive := ScreenConfig.mk 0 4 3 0 0 4 3 (ScreenConfig.generate_color 0);
          2%positive := small_screen 1 2 1 ]}
       [1%positive; 2%positive] [] GlobalConfigWidget.init None
       1%float None None [])
    ∅.

(** The paths an export saved to, in loop order. *)
Fixpoint saved_paths (outs : list exported) : list string :=
  match outs with
  | [] => []
  | Extracted filepath :: outs' => filepath :: saved_paths outs'
  | Failed _ :: outs' => saved_paths outs'
  end.

(** What the export owes a screen whose turn ended in [out]: nothing when an
    error was recorded; otherwise the path was free before the export and
    holds the crop of the screen after it. *)
Definition holds_crop (crop : Image.t -> Z * Z * Z * Z -> exn + Image.t)
    (image : Image.t) (before : World) (after : World)
    (screen : ref) (out : exported) : Prop :=
  match out with
  | Failed _ => True
  | Extracted filepath =>
      disk before !! filepath = None /\
      exists cropped,
        crop image (ScreenConfig.get_box (App.store (app before) !!! screen))
        = inr cropped /\
        disk after !! filepath = Some (Raster cropped)
  end.

(** [crop] that refuses a box that is not within the image, and [save] that
    refuses a path that exists. *)
Definition crop_inside (im : Image.t) (box : Z * Z * Z * Z) : exn + Image.t :=
  let '(x0, y0, x1, y1) := box in
  if (0 <=? x0) && (0 <=? y0) && (x1 <=? fst (Image.size im))
     && (y1 <=? snd (Image.size im))
  then crop_pixels im box
  else inl (ValueError "box outside the image").
Definition save_new (d : gmap string node) (im : Image.t) (filepath : string)
    : save_outcome :=
  match d !! filepath with
  | Some _ => SaveRaised (OSError "file exists") None
  | None => save_by_extension d im filepath
  end.

(** A loaded image with two screens of one ratio inside it, and an empty
    disk. *)
Definition twin_world (image_path : string) : World :=
  mkWorld
    (App.mk (Some small_image) (Some image_path)
       {[ 1%positive := small_screen 0 0 0; 2%positive := small_screen 1 2 1 ]}
       [1%positive; 2%positive] [] GlobalConfigWidget.init None 1%float None None [])
    ∅.

(** Zero or a finite number: neither an infinity nor NaN; and anything but
    NaN. *)
Definition finite_or_zero (x : spec_float) : Prop :=
  match x with
  | S754_zero _ | S754_finite _ _ _ => True
  | _ => False
  end.
Definition a_number (x : spec_float) : Prop := x <> S754_nan.

(** * Properties *)

(** ** The numeric primitives on inputs whose results are known *)

Example float_of_int_2560 : Py.float_of_int 2560 = inr 2560%float.
Proof. reflexivity. Qed.

Example float_of_int_ties_even :
  Py.float_of_int (2 ^ 53 + 1) = inr 9007199254740992%float /\
  Py.float_of_int (2 ^ 53 + 3) = inr 9007199254740996%float.
Proof. split; reflexivity. Qed.

Example float_of_int_overflow :
  Py.float_of_int (2 ^ 1024) = inl (OverflowError "int too large to convert to float").
Proof. vm_compute. reflexivity. Qed.

Example truediv_small :
  Py.truediv 9 16 = inr 0.5625%float /\
  Py.truediv 1 3 = inr (1 / 3)%float /\
  Py.truediv 2 3 = inr (2 / 3)%float /\
  Py.truediv 7 100 = inr (7 / 100)%float /\
  Py.truediv (-7) 100 = inr (-7 / 100)%float /\
  Py.truediv 50 100 = inr 0.5%float /\
  Py.truediv 7 3 = inr 0x1.2aaaaaaaaaaabp+1%float /\
  Py.truediv 0 (-5) = inr (-0)%float.
Proof. repeat split; vm_compute; reflexivity. Qed.

(** Beyond 53 bits, in the subnormal range and at the overflow threshold,
    as CPython computes them. *)
Example truediv_large_and_tiny :
  Py.truediv (2 ^ 54 + 2) 2 = inr 0x1p+53%float /\
  Py.truediv (2 ^ 54 + 6) 2 = inr 0x1.0000000000002p+53%float /\
  Py.truediv 123456789123456789123456789 987654321 = inr 0x1.bc16d6387b226p+56%float /\
  Py.truediv (10 ^ 400) (10 ^ 399) = inr 10%float /\
  Py.truediv 1 (2 ^ 1074) = inr 0x1p-1074%float /\
  Py.truediv 1 (2 ^ 1075) = inr 0%float /\
  Py.truediv 3 (2 ^ 1075) = inr 0x1p-1073%float /\
  Py.truediv 5 (2 ^ 1076) = inr 0x1p-1074%float /\
  Py.truediv (2 ^ 1024 - 2 ^ 970 - 1) 1 = inr 0x1.fffffffffffffp+1023%float /\
  Py.truediv (2 ^ 1024 - 2 ^ 970) 1
  = inl (OverflowError "integer division result too large for a float") /\
  Py.truediv 1 0 = inl (ZeroDivisionError "division by zero").
Proof. repeat split; vm_compute; reflexivity. Qed.

Example round_ties :
  Py.round 0.5 = inr 0 /\ Py.round 1.5 = inr 2 /\ Py.round 2.5 = inr 2 /\
  Py.round (-0.5) = inr 0 /\ Py.round (-1.5) = inr (-2) /\ Py.round (-2.5) = inr (-2) /\
  Py.round 1.125 = inr 1 /\ Py.round 1799.75 = inr 1800.
Proof. repeat split; vm_compute; reflexivity. Qed.

Example int_of_float_truncates :
  Py.int_of_float 1.75 = inr 1 /\ Py.int_of_float (-0.5) = inr 0 /\
  Py.int_of_float (-1.5) = inr (-1) /\ Py.floor (-0.5) = inr (-1) /\
  Py.floor (-1.5) = inr (-2) /\ Py.floor 1.75 = inr 1.
Proof. repeat split; vm_compute; reflexivity. Qed.

Example splitext_examples :
  Path.splitext "/a/b.c/wall.png" = ("/a/b.c/wall", ".png") /\
  Path.splitext "/a/b.c/wall" = ("/a/b.c/wall", "") /\
  Path.splitext "/a/.bashrc" = ("/a/.bashrc", "") /\
  Path.splitext "..b.tar.gz" = ("..b.tar", ".gz") /\
  Path.splitext "a." = ("a", ".") /\
  Path.splitext "..." = ("...", "") /\
  Path.splitext "a/...b" = ("a/...b", "") /\
  Path.splitext ".a.b" = (".a", ".b") /\
  Path.splitext "/x.y/" = ("/x.y/", "") /\
  Path.splitext "a..b" = ("a.", ".b") /\
  Path.splitext "" = ("", "").
Proof. repeat split; vm_compute; reflexivity. Qed.

Example join_examples :
  Path.join "/a/b" "c.png" = "/a/b/c.png" /\
  Path.join "/a/b/" "c.png" = "/a/b/c.png" /\
  Path.join "/a/b" "/c.png" = "/c.png" /\
  Path.join "" "c.png" = "c.png".
Proof. repeat split; vm_compute; reflexivity. Qed.

(** ** Running the state transformers *)

Lemma bind_val {A B} (m : M A) (k : A -> M B) w a w' :
  m w = (Val a, w') -> bind m k w = k a w'.
Proof. unfold bind. intros ->. reflexivity. Qed.

Lemma bind_exc {A B} (m : M A) (k : A -> M B) w e w' :
  m w = (Exc e, w') -> bind m k w = (Exc e, w').
Proof. unfold bind. intros ->. reflexivity. Qed.

Lemma bind_out_of_fuel {A B} (m : M A) (k : A -> M B) w w' :
  m w = (OutOfFuel, w') -> bind m k w = (OutOfFuel, w').
Proof. unfold bind. intros ->. reflexivity. Qed.

Lemma lift_inr {A} (a : A) w : lift (inr a) w = (Val a, w).
Proof. reflexivity. Qed.

Lemma lift_inl {A} (e : exn) w : lift (A := A) (inl e) w = (Exc e, w).
Proof. reflexivity. Qed.

(** ** The resolution computation *)

Lemma store_assign_twice (m : gmap ref ScreenConfig.t) self
    (f g : ScreenConfig.t -> ScreenConfig.t) :
  <[self := g (<[self := f (m !!! self)]> m !!! self)]> (<[self := f (m !!! self)]> m)
  = <[self := g (f (m !!! self))]> m.
Proof. rewrite lookup_total_insert_eq, insert_insert_eq. reflexivity. Qed.

(** Unfolds the plumbing of the state transformers, and nothing else. *)
Ltac run :=
  cbv beta iota zeta delta
    [bind lift ret raise read assign modify_app get_app get_disk modify_disk
     try_except try_except_ValueError app disk fst snd].

(** [calculate_resolution] against the algorithm on the unrounded side, on
    every world and every screen: it returns exactly when the algorithm has a
    result, and then it has assigned that result and nothing else. *)
Lemma calculate_resolution_run self ref_width ref_height scale_percent w :
  let s := App.store (app w) !!! self in
  match resolution_from_scaled_side (ScreenConfig.ratio_w s) (ScreenConfig.ratio_h s)
          ref_width ref_height scale_percent with
  | inr (width, height) =>
      calculate_resolution self ref_width ref_height scale_percent w
      = (Val tt, with_resolution w self width height)
  | inl e =>
      fst (calculate_resolution self ref_width ref_height scale_percent w) = Exc e
  end.
Proof.
  unfold resolution_from_scaled_side, scaled_max_side, calculate_resolution,
    with_resolution.
  destruct w as [a d]. run.
  destruct (scale_factor_of scale_percent) as [e|factor]; [reflexivity|].
  destruct (Py.float_of_int (Z.max ref_width ref_height)) as [e|m]; [reflexivity|].
  destruct (ScreenConfig.ratio_w _ >=? ScreenConfig.ratio_h _);
    (destruct (Py.round (m * factor)) as [e|first]; [reflexivity|]);
    (destruct (Py.truediv _ _) as [e|q]; [reflexivity|]);
    (destruct (Py.round (m * factor * q)) as [e|second]; [reflexivity|]);
    cbn [App.store App.set_store]; rewrite store_assign_twice; reflexivity.
Qed.

(** The contract [compute_resolution] is the algorithm on the unrounded side. *)
Lemma compute_resolution_run ratio_w ratio_h reference_width reference_height
    scale_percent :
  compute_resolution ratio_w ratio_h reference_width reference_height scale_percent
  = match resolution_from_scaled_side ratio_w ratio_h reference_width
            reference_height scale_percent with
    | inr p => Val p
    | inl e => Exc e
    end.
Proof.
  unfold compute_resolution.
  pose proof (calculate_resolution_run 1%positive reference_width reference_height
                scale_percent (single_screen ratio_w ratio_h)) as H.
  cbn zeta in H.
  replace (App.store (app (single_screen ratio_w ratio_h)) !!! 1%positive)
    with (ScreenConfig.init 0 ratio_w ratio_h 0 0) in H by reflexivity.
  cbn [ScreenConfig.ratio_w ScreenConfig.ratio_h ScreenConfig.init] in H.
  destruct (resolution_from_scaled_side _ _ _ _ _) as [e|[width height]].
  - destruct (calculate_resolution _ _ _ _ _) as [[?|?|] ?]; cbn in H; congruence.
  - rewrite H. unfold with_resolution. cbn [app App.store App.set_store].
    rewrite lookup_total_insert_eq. reflexivity.
Qed.

(** Exchanging the two terms of a ratio exchanges width and height. *)
Lemma resolution_transposed ratio_w ratio_h reference_width reference_height
    scale_percent :
  ratio_h < ratio_w ->
  resolution_from_scaled_side ratio_h ratio_w reference_width reference_height
    scale_percent
  = match resolution_from_scaled_side ratio_w ratio_h reference_width
            reference_height scale_percent with
    | inr (width, height) => inr (height, width)
    | inl e => inl e
    end.
Proof.
  intros Hlt. unfold resolution_from_scaled_side.
  destruct (scaled_max_side _ _ _) as [e|side]; [reflexivity|].
  destruct (Py.round side) as [e|first]; [reflexivity|].
  assert ((ratio_w >=? ratio_h) = true) as -> by lia.
  assert ((ratio_h >=? ratio_w) = false) as -> by lia.
  destruct (Py.truediv ratio_h ratio_w) as [e|q]; [reflexivity|].
  destruct (Py.round (side * q)) as [e|second]; reflexivity.
Qed.

(** C1 (as amended).  On every world, for every screen and all integer
    arguments, [calculate_resolution] follows the algorithm whose second
    dimension comes from the unrounded [scaled_max_side]:
    [width = round(scaled_max_side)] and
    [height = round(scaled_max_side * (ratio_h / ratio_w))] when
    [ratio_w >= ratio_h], and [height = round(scaled_max_side)],
    [width = round(scaled_max_side * (ratio_w / ratio_h))] otherwise.  It
    assigns exactly these two attributes, and it raises exactly when a step
    of the algorithm does. *)
Theorem calculate_resolution_from_scaled_side :
  forall self ref_width ref_height scale_percent w,
    match resolution_from_scaled_side
            (ScreenConfig.ratio_w (App.store (app w) !!! self))
            (ScreenConfig.ratio_h (App.store (app w) !!! self))
            ref_width ref_height scale_percent with
    | inr (width, height) =>
        calculate_resolution self ref_width ref_height scale_percent w
        = (Val tt, with_resolution w self width height)
    | inl e =>
        fst (calculate_resolution self ref_width ref_height scale_percent w) = Exc e
    end.
Proof. intros. apply calculate_resolution_run. Qed.

(** C1 (as stated) fails.  For ratio 4:3, reference 3 x 3 and scale 0 the
    side is 1.5: the program returns [(2, 1)], from [round(1.5 * 0.75)], where
    the algorithm of the specification gives [(2, 2)], from [round(2 * 3 / 4)]. *)
Lemma second_dimension_not_from_rounded_first :
  compute_resolution 4 3 3 3 0 = Val (2, 1) /\
  spec_compute_resolution 4 3 3 3 0 = inr (2, 2).
Proof. split; vm_compute; reflexivity. Qed.

(** C2.  The scale mapping at its three marks: 0.5 at 0 and 2.0 at 100, but
    1.25 at 50, where the docstring of [calculate_resolution] and the labels
    of the slider promise 1.0. *)
Theorem scale_factor_marks :
  scale_factor_of 0 = inr 0.5%float /\
  scale_factor_of 50 = inr 1.25%float /\
  scale_factor_of 100 = inr 2%float /\
  scale_factor_of 50 <> inr 1%float.
Proof. repeat split; try (vm_compute; reflexivity). vm_compute. discriminate. Qed.

(** C3 (as stated) fails.  With reference 2560 x 1440 and scale 50 the
    program returns [(3200, 1800)] for 16:9 and [(1800, 3200)] for 9:16. *)
Lemma reference_example_at_scale_50 :
  compute_resolution 16 9 2560 1440 50 = Val (3200, 1800) /\
  compute_resolution 9 16 2560 1440 50 = Val (1800, 3200).
Proof. split; vm_compute; reflexivity. Qed.

(** C3 (as amended).  With reference 2560 x 1440, at every scale between 0
    and 100 the result for 9:16 is the result for 16:9 with width and height
    exchanged: both orientations take their longer side from the longer
    reference side, 2560.  At scale 0 (factor 0.5) the results are
    [(1280, 720)] and [(720, 1280)], at scale 100 (factor 2.0) they are
    [(5120, 2880)] and [(2880, 5120)]. *)
Theorem reference_example_transposed :
  forall scale_percent,
    0 <= scale_percent <= 100 ->
    exists long short,
      compute_resolution 16 9 2560 1440 scale_percent = Val (long, short) /\
      compute_resolution 9 16 2560 1440 scale_percent = Val (short, long) /\
      (scale_percent = 0 -> (long, short) = (1280, 720)) /\
      (scale_percent = 100 -> (long, short) = (5120, 2880)).
Proof.
  intros sp Hsp.
  rewrite !compute_resolution_run.
  rewrite (resolution_transposed 16 9) by lia.
  assert (forallb (fun sp =>
            match resolution_from_scaled_side 16 9 2560 1440 sp with
            | inr (long, short) =>
                (if sp =? 0 then (long =? 1280) && (short =? 720) else true)
                && (if sp =? 100 then (long =? 5120) && (short =? 2880) else true)
            | inl _ => false
            end) (seqZ 0 101) = true) as Hall by (vm_compute; reflexivity).
  rewrite forallb_forall in Hall.
  specialize (Hall sp). cbv beta in Hall.
  destruct (resolution_from_scaled_side 16 9 2560 1440 sp) as [e|[long short]].
  { discriminate Hall. apply list_elem_of_In, elem_of_seqZ. lia. }
  exists long, short. split; [reflexivity|]. split; [reflexivity|].
  assert (In sp (seqZ 0 101)) as Hin by (apply list_elem_of_In, elem_of_seqZ; lia).
  specialize (Hall Hin).
  split; intros ->; cbn in Hall; f_equal; lia.
Qed.

Lemma reference_example_transposed_at_0 :
  0 <= 0 <= 100 /\
  exists long short,
    compute_resolution 16 9 2560 1440 0 = Val (long, short) /\
    compute_resolution 9 16 2560 1440 0 = Val (short, long) /\
    (0 = 0 -> (long, short) = (1280, 720)) /\
    (0 = 100 -> (long, short) = (5120, 2880)).
Proof. split; [lia | apply (reference_example_transposed 0); lia]. Defined.
(** ** Signs of binary64 values *)

Lemma binary_round_aux_not_negative m e l :
  not_negative (binary_round_aux prec emax false m e l).
Proof.
  unfold binary_round_aux.
  destruct (shr_fexp prec emax m e l) as [mrs' e'].
  destruct (shr_fexp prec emax _ e' loc_Exact) as [mrs'' e''].
  destruct (shr_m mrs''); [exact I| |exact I].
  destruct (e'' <=? emax - prec); exact I.
Qed.

Lemma binary_round_not_negative m e :
  not_negative (binary_round prec emax false m e).
Proof.
  unfold binary_round. destruct (shl_align _ _ _) as [mz ez].
  apply binary_round_aux_not_negative.
Qed.

Lemma binary_normalize_not_negative n :
  0 <= n -> not_negative (binary_normalize prec emax n 0 false).
Proof.
  destruct n as [|p|p]; intros Hn; [exact I| |lia].
  apply binary_round_not_negative.
Qed.

Lemma SFldexp_not_negative x e :
  not_negative x -> not_negative (SFldexp prec emax x e).
Proof.
  destruct x as [s|s| |s m ex]; try (intros H; exact H).
  destruct s; [intros []|]. intros _. apply binary_round_not_negative.
Qed.

Lemma SFmul_not_negative x y :
  not_negative x -> not_negative y -> not_negative (SFmul prec emax x y).
Proof.
  destruct x as [[]|[]| |[] mx ex], y as [[]|[]| |[] my ey];
    cbn; try tauto.
  intros _ _. apply binary_round_aux_not_negative.
Qed.

Lemma Prim2SF_SF2Prim_not_negative x :
  not_negative x -> not_negative (Prim2SF (SF2Prim x)).
Proof.
  destruct x as [[]|[]| |[] m e]; intros H; try (vm_compute; exact I);
    try (destruct H; fail).
  unfold SF2Prim. cbv zeta. rewrite Z_ldexp_spec. apply SFldexp_not_negative.
  rewrite of_uint63_spec. apply binary_normalize_not_negative.
  apply Uint63.to_Z_bounded.
Qed.

Lemma float_of_int_not_negative n f :
  0 <= n -> Py.float_of_int n = inr f -> not_negative (Prim2SF f).
Proof.
  unfold Py.float_of_int. intros Hn.
  destruct (is_infinity _); [discriminate|]. intros [= <-].
  apply Prim2SF_SF2Prim_not_negative, binary_normalize_not_negative, Hn.
Qed.

Lemma leb_zero_not_negative f :
  (0 <=? f)%float = true -> not_negative (Prim2SF f).
Proof.
  rewrite leb_spec. change (Prim2SF 0) with (S754_zero false).
  destruct (Prim2SF f) as [[]|[]| |[] m e]; cbn; try discriminate; intros _; exact I.
Qed.

(** [int] and [floor] raise together; [int] is the floor of a value that is
    not negative, and the floor or one more otherwise. *)
Lemma int_of_float_floor f :
  match Py.int_of_float f, Py.floor f with
  | inr z, inr fl => fl <= z <= fl + 1 /\ (not_negative (Prim2SF f) -> z = fl)
  | inl e, inl e' => e = e'
  | _, _ => False
  end.
Proof.
  unfold Py.int_of_float, Py.floor, Py.truncate.
  destruct (Prim2SF f) as [s|s| |s m e]; try reflexivity.
  { split; [lia|reflexivity]. }
  destruct (0 <=? e) eqn:He.
  { destruct s; cbn [cond_Zopp]; split; try lia; intros _; lia. }
  assert (0 < 2 ^ (- e)) as Hpow by (apply Z.pow_pos_nonneg; lia).
  destruct s; cbn [cond_Zopp not_negative].
  - split; [|intros []].
    pose proof (Z.div_mod (Z.pos m) (2 ^ (- e)) ltac:(lia)) as Hm.
    pose proof (Z.mod_pos_bound (Z.pos m) (2 ^ (- e)) Hpow) as Hr.
    pose proof (Z.div_mod (- Z.pos m) (2 ^ (- e)) ltac:(lia)) as Hm'.
    pose proof (Z.mod_pos_bound (- Z.pos m) (2 ^ (- e)) Hpow) as Hr'.
    nia.
  - split; [lia|reflexivity].
Qed.

(** One coordinate: truncated against floored. *)
Lemma scaled_floored n scale_factor :
  match scaled n scale_factor, floored n scale_factor with
  | inr z, inr fl =>
      fl <= z <= fl + 1 /\
      (0 <= n -> (0 <=? scale_factor)%float = true -> z = fl)
  | inl e, inl e' => e = e'
  | _, _ => False
  end.
Proof.
  unfold scaled, floored.
  destruct (Py.float_of_int n) as [e|f] eqn:Hf; [reflexivity|].
  pose proof (int_of_float_floor (f * scale_factor)) as H.
  destruct (Py.int_of_float _) as [e|z], (Py.floor _) as [e'|fl]; try exact H.
  destruct H as [Hb Heq]. split; [exact Hb|]. intros Hn Hs. apply Heq.
  rewrite mul_spec. apply SFmul_not_negative.
  - eapply float_of_int_not_negative; eassumption.
  - apply leb_zero_not_negative, Hs.
Qed.

(** [int] of a float is its floor when it is not below zero, and the
    opposite of the floor of its opposite when it is. *)
Lemma int_of_float_toward_zero f :
  Py.int_of_float f
  = if (f <? 0)%float then
      match Py.floor (- f) with
      | inl e => inl e
      | inr z => inr (- z)
      end
    else Py.floor f.
Proof.
  rewrite ltb_spec. unfold Py.int_of_float, Py.floor at 2, Py.truncate.
  change (Prim2SF 0) with (S754_zero false).
  unfold Py.floor. rewrite opp_spec.
  destruct (Prim2SF f) as [s|s| |s m e]; cbn [SFltb SFcompare SFopp].
  - reflexivity.
  - destruct s; reflexivity.
  - reflexivity.
  - destruct s; cbn [negb cond_Zopp].
    + destruct (0 <=? e); f_equal; lia.
    + destruct (0 <=? e); reflexivity.
Qed.

Lemma scaled_truncated n scale_factor :
  scaled n scale_factor = truncated n scale_factor.
Proof.
  unfold scaled, truncated. destruct (Py.float_of_int n) as [e|f]; [reflexivity|].
  apply int_of_float_toward_zero.
Qed.

(** C9 (as amended).  For every screen, scale factor and offsets the
    projection is [int(screen.x * scale_factor) + x_offset] and so on, where
    [int] rounds toward zero: it is the floor of a product that is not below
    zero and the ceiling of one that is.  So the projection raises exactly
    when the floored projection of the specification does; each of its
    coordinates is that of the floored projection or one more; and the two
    projections are equal when [screen.x], [screen.y],
    [screen.x + screen.width], [screen.y + screen.height] and the scale
    factor are not negative. *)
Theorem project_truncates :
  forall s scale_factor x_offset y_offset,
    project s scale_factor x_offset y_offset
    = truncated_project s scale_factor x_offset y_offset /\
    match project s scale_factor x_offset y_offset,
          spec_project s scale_factor x_offset y_offset with
    | inr (x1, y1, x2, y2), inr (fx1, fy1, fx2, fy2) =>
        fx1 <= x1 <= fx1 + 1 /\ fy1 <= y1 <= fy1 + 1 /\
        fx2 <= x2 <= fx2 + 1 /\ fy2 <= y2 <= fy2 + 1
    | inl e, inl e' => e = e'
    | _, _ => False
    end /\
    (0 <= ScreenConfig.x s -> 0 <= ScreenConfig.y s ->
     0 <= ScreenConfig.x s + ScreenConfig.width s ->
     0 <= ScreenConfig.y s + ScreenConfig.height s ->
     (0 <=? scale_factor)%float = true ->
     project s scale_factor x_offset y_offset
     = spec_project s scale_factor x_offset y_offset).
Proof.
  intros s sf xo yo.
  split.
  { unfold project, truncated_project. rewrite !scaled_truncated. reflexivity. }
  unfold project, spec_project.
  pose proof (scaled_floored (ScreenConfig.x s) sf) as H1.
  pose proof (scaled_floored (ScreenConfig.y s) sf) as H2.
  pose proof (scaled_floored (ScreenConfig.x s + ScreenConfig.width s) sf) as H3.
  pose proof (scaled_floored (ScreenConfig.y s + ScreenConfig.height s) sf) as H4.
  destruct (scaled (ScreenConfig.x s) sf), (floored (ScreenConfig.x s) sf);
    try (destruct H1; fail); [split; [exact H1 | intros; congruence]|].
  destruct (scaled (ScreenConfig.y s) sf), (floored (ScreenConfig.y s) sf);
    try (destruct H2; fail); [split; [exact H2 | intros; congruence]|].
  destruct (scaled (ScreenConfig.x s + _) sf), (floored (ScreenConfig.x s + _) sf);
    try (destruct H3; fail); [split; [exact H3 | intros; congruence]|].
  destruct (scaled (ScreenConfig.y s + _) sf), (floored (ScreenConfig.y s + _) sf);
    try (destruct H4; fail); [split; [exact H4 | intros; congruence]|].
  destruct H1 as [? E1], H2 as [? E2], H3 as [? E3], H4 as [? E4].
  split; [repeat split; lia|].
  intros. rewrite E1, E2, E3, E4 by assumption. reflexivity.
Qed.

Lemma project_truncates_on_two_screens :
  project (ScreenConfig.init 0 16 9 (-3) (-1)) 0.5 10 20
  = truncated_project (ScreenConfig.init 0 16 9 (-3) (-1)) 0.5 10 20 /\
  truncated_project (ScreenConfig.init 0 16 9 (-3) (-1)) 0.5 10 20
  = inr (-1 + 10, 0 + 20, 958 + 10, 539 + 20) /\
  project (ScreenConfig.init 0 16 9 0 0) 0.5 10 20
  = spec_project (ScreenConfig.init 0 16 9 0 0) 0.5 10 20.
Proof.
  split; [|split].
  - apply (proj1 (project_truncates (ScreenConfig.init 0 16 9 (-3) (-1)) 0.5 10 20)).
  - vm_compute. reflexivity.
  - apply (proj2 (proj2 (project_truncates (ScreenConfig.init 0 16 9 0 0) 0.5 10 20)));
      cbn; first [lia | reflexivity].
Defined.

(** C9 (as stated) fails.  A screen at [x = -1] under scale factor 0.5 is
    drawn from [int(-0.5) = 0], where the specification has [floor(-0.5) = -1]. *)
Lemma project_not_floor_left_of_image :
  project (ScreenConfig.init 0 16 9 (-1) 0) 0.5 0 0 = inr (0, 0, 959, 540) /\
  spec_project (ScreenConfig.init 0 16 9 (-1) 0) 0.5 0 0 = inr (-1, 0, 959, 540).
Proof. split; vm_compute; reflexivity. Qed.

(** ** Reasoning on outcomes *)

Lemma wp_mono {A} (m : M A) (Q Q' : result A -> World -> Prop) w :
  wp m Q w -> (forall r w', Q r w' -> Q' r w') -> wp m Q' w.
Proof. unfold wp. auto. Qed.

Lemma wp_bind {A B} (m : M A) (k : A -> M B) (Q : result B -> World -> Prop) w :
  wp m (fun r w1 =>
          match r with
          | Val a => wp (k a) Q w1
          | Exc e => Q (Exc e) w1
          | OutOfFuel => Q OutOfFuel w1
          end) w ->
  wp (bind m k) Q w.
Proof. unfold wp, bind. destruct (m w) as [[a|e|] w1]; auto. Qed.

Lemma wp_try_except {A} (body : M A) handler (Q : result A -> World -> Prop) w :
  wp body (fun r w1 =>
             match r with
             | Exc e => wp (handler e) Q w1
             | _ => Q r w1
             end) w ->
  wp (try_except body handler) Q w.
Proof. unfold wp, try_except. destruct (body w) as [[a|e|] w1]; auto. Qed.

Lemma wp_elim {A} (m : M A) (Q : result A -> World -> Prop) w :
  wp m Q w -> exists r w', m w = (r, w') /\ Q r w'.
Proof. unfold wp. destruct (m w) as [r w']. eauto. Qed.

Lemma wp_ret {A} (a : A) (Q : result A -> World -> Prop) w :
  Q (Val a) w -> wp (ret a) Q w.
Proof. auto. Qed.

Lemma wp_get_app {B} (k : App.t -> M B) (Q : result B -> World -> Prop) w :
  wp (k (app w)) Q w -> wp (bind get_app k) Q w.
Proof. auto. Qed.

Lemma wp_get_disk {B} (k : gmap string node -> M B) (Q : result B -> World -> Prop) w :
  wp (k (disk w)) Q w -> wp (bind get_disk k) Q w.
Proof. auto. Qed.

Lemma wp_read {B} r (k : ScreenConfig.t -> M B) (Q : result B -> World -> Prop) w :
  wp (k (App.store (app w) !!! r)) Q w -> wp (bind (read r) k) Q w.
Proof. auto. Qed.

Lemma wp_modify_app {B} f (k : unit -> M B) (Q : result B -> World -> Prop) w :
  wp (k tt) Q (mkWorld (f (app w)) (disk w)) -> wp (bind (modify_app f) k) Q w.
Proof. auto. Qed.

Lemma wp_assign {B} r f (k : unit -> M B) (Q : result B -> World -> Prop) w :
  wp (k tt) Q (snd (assign r f w)) -> wp (bind (assign r f) k) Q w.
Proof. auto. Qed.

Lemma wp_lift {A B} (x : exn + A) (k : A -> M B) (Q : result B -> World -> Prop) w :
  match x with inr a => wp (k a) Q w | inl e => Q (Exc e) w end ->
  wp (bind (lift x) k) Q w.
Proof. destruct x; auto. Qed.

(** A loop keeps what its body keeps, and ends without running out of fuel
    when its body does. *)
Lemma wp_for_each {A} (I : World -> Prop) (l : list A) body w :
  I w ->
  (forall v w1, v ∈ l -> I w1 ->
     wp (body v) (fun r w2 => I w2 /\ r <> OutOfFuel) w1) ->
  wp (for_each l body) (fun r w2 => I w2 /\ r <> OutOfFuel) w.
Proof.
  revert w. induction l as [|v l IH]; intros w Hw Hbody.
  - split; [exact Hw | discriminate].
  - cbn [for_each]. apply wp_bind.
    eapply wp_mono; [apply Hbody; [left | exact Hw]|].
    intros [[]|e|] w1 [Hw1 Hr]; cbn; try (split; [exact Hw1 | discriminate]).
    + apply IH; [exact Hw1|]. intros v' w2 Hv'. apply Hbody. right. exact Hv'.
    + contradiction.
Qed.

(** ** What recomputing the resolutions leaves alone *)

Lemma same_settings_refl w : same_settings w w.
Proof. do 5 (split; [reflexivity|]). reflexivity. Qed.

Lemma same_settings_trans w1 w2 w3 :
  same_settings w1 w2 -> same_settings w2 w3 -> same_settings w1 w3.
Proof.
  intros (?&?&?&?&?&H12) (?&?&?&?&?&H23).
  split; [congruence|]. split; [congruence|]. split; [congruence|].
  split; [congruence|]. split; [set_solver|].
  intros r. rewrite H23. apply H12.
Qed.

Lemma same_settings_assign self f w :
  (forall s, identity_of (f s) = identity_of s) ->
  same_settings w (snd (assign self f w)).
Proof.
  intros Hf. do 4 (split; [reflexivity|]). split.
  - cbn. rewrite dom_insert_L. set_solver.
  - intros r. cbn. destruct (decide (r = self)) as [->|Hne].
    + rewrite lookup_total_insert_eq. apply Hf.
    + rewrite lookup_total_insert_ne by congruence. reflexivity.
Qed.

Lemma same_settings_canvas v w :
  same_settings w (mkWorld (App.set_canvas v (app w)) (disk w)).
Proof. do 5 (split; [reflexivity|]). reflexivity. Qed.

Lemma calculate_resolution_same_settings self ref_width ref_height scale_percent w :
  wp (calculate_resolution self ref_width ref_height scale_percent)
     (fun r w' => same_settings w w' /\ r <> OutOfFuel) w.
Proof.
  assert (forall v w0, same_settings w0 (snd (assign self (ScreenConfig.set_width v) w0)))
    as Hw by (intros; apply same_settings_assign; reflexivity).
  assert (forall v w0, same_settings w0 (snd (assign self (ScreenConfig.set_height v) w0)))
    as Hh by (intros; apply same_settings_assign; reflexivity).
  unfold wp, calculate_resolution. run.
  destruct (scale_factor_of scale_percent) as [e|factor];
    [split; [apply same_settings_refl | discriminate]|].
  destruct (Py.float_of_int _) as [e|m];
    [split; [apply same_settings_refl | discriminate]|].
  destruct (ScreenConfig.ratio_w _ >=? ScreenConfig.ratio_h _);
    (destruct (Py.round (m * factor)) as [e|first];
       [split; [apply same_settings_refl | discriminate]|]);
    (destruct (Py.truediv _ _) as [e|q];
       [split; [first [apply Hw | apply Hh] | discriminate]|]);
    (destruct (Py.round (m * factor * q)) as [e|second];
       [split; [first [apply Hw | apply Hh] | discriminate]|]);
    (split; [|discriminate]).
  - apply (same_settings_trans _ (snd (assign self (ScreenConfig.set_width first) w)));
      [apply Hw | apply Hh].
  - apply (same_settings_trans _ (snd (assign self (ScreenConfig.set_height first) w)));
      [apply Hh | apply Hw].
Qed.

Lemma draw_rectangles_same_settings w :
  wp draw_rectangles (fun r w' => same_settings w w' /\ r <> OutOfFuel) w.
Proof.
  unfold draw_rectangles. apply wp_get_app.
  destruct (App.x_offset (app w)) as [x_offset|];
    [|split; [apply same_settings_refl | discriminate]].
  destruct (App.y_offset (app w)) as [y_offset|];
    [|split; [apply same_settings_refl | discriminate]].
  apply (wp_for_each (same_settings w)); [apply same_settings_refl|].
  intros screen w1 _ Hw1. apply wp_read, wp_lift.
  destruct (project _ _ _ _) as [e|box]; [split; [exact Hw1 | discriminate]|].
  split; [|discriminate].
  eapply same_settings_trans; [exact Hw1 | apply same_settings_canvas].
Qed.

Lemma update_preview_rectangles_same_settings w :
  wp update_preview_rectangles (fun r w' => same_settings w w' /\ r <> OutOfFuel) w.
Proof.
  unfold update_preview_rectangles. apply wp_get_app.
  destruct (App.image (app w)); [|split; [apply same_settings_refl | discriminate]].
  destruct (App.background_image (app w));
    [|split; [apply same_settings_refl | discriminate]].
  apply wp_modify_app.
  eapply wp_mono; [apply draw_rectangles_same_settings|].
  intros r w' [Hs Hr]. split; [|exact Hr].
  eapply same_settings_trans; [apply same_settings_canvas | exact Hs].
Qed.

Lemma recalculate_all_resolutions_same_settings w :
  wp recalculate_all_resolutions (fun r w' => same_settings w w' /\ r <> OutOfFuel) w.
Proof.
  unfold recalculate_all_resolutions. apply wp_get_app, wp_bind.
  eapply wp_mono.
  { apply (wp_for_each (same_settings w)); [apply same_settings_refl|].
    intros screen w1 _ Hw1.
    eapply wp_mono; [apply calculate_resolution_same_settings|].
    intros r w2 [Hs Hr]. split; [|exact Hr].
    eapply same_settings_trans; eassumption. }
  intros [[]|e|] w1 [Hw1 Hr]; [|split; [exact Hw1 | discriminate]|contradiction].
  eapply wp_mono; [apply update_preview_rectangles_same_settings|].
  intros r w2 [Hs Hr']. split; [|exact Hr'].
  eapply same_settings_trans; eassumption.
Qed.

(** Consistency survives what keeps the settings. *)
Lemma same_settings_consistent w w' :
  same_settings w w' -> consistent (app w) -> consistent (app w').
Proof.
  intros (Hscr & Hwid & _ & _ & Hdom & _) (Hnd & Hlen & Hin).
  unfold consistent. rewrite Hscr, Hwid. split; [exact Hnd|]. split; [exact Hlen|].
  intros r Hr. apply elem_of_dom, Hdom, elem_of_dom, Hin, Hr.
Qed.

(** ** Deleting a screen *)

Lemma index_from_lookup (l : list ref) k i v :
  NoDup l -> l !! i = Some v -> index_from k v l = Some (k + i)%nat.
Proof.
  revert k i. induction l as [|v' l IH]; intros k i Hnd Hi; [discriminate|].
  apply NoDup_cons in Hnd as [Hv' Hnd]. cbn [index_from].
  destruct i as [|i]; cbn in Hi.
  - injection Hi as ->. rewrite decide_True by reflexivity. f_equal. lia.
  - rewrite decide_False.
    + rewrite (IH (S k) i Hnd Hi). f_equal. lia.
    + intros ->. apply Hv'. eapply list_elem_of_lookup_2. exact Hi.
Qed.

Lemma renumber_run i screen w :
  renumber i screen w
  = (Val tt,
     mkWorld (App.set_store
                (<[screen := renumbered i (App.store (app w) !!! screen)]>
                   (App.store (app w))) (app w))
             (disk w)).
Proof.
  unfold renumber. run. cbn [App.store App.set_store].
  rewrite store_assign_twice. reflexivity.
Qed.

Lemma renumber_loop (l : list ref) :
  forall k w,
    NoDup l ->
    exists m',
      for_enumerate k l renumber w
      = (Val tt, mkWorld (App.set_store m' (app w)) (disk w)) /\
      (forall j r, l !! j = Some r ->
         m' !!! r = renumbered (k + Z.of_nat j) (App.store (app w) !!! r)) /\
      (forall r, r ∉ l -> m' !!! r = App.store (app w) !!! r) /\
      (forall r, is_Some (App.store (app w) !! r) \/ r ∈ l -> is_Some (m' !! r)).
Proof.
  induction l as [|v l IH]; intros k w Hnd.
  - exists (App.store (app w)). split; [|split; [|split]].
    + destruct w as [[] ?]; reflexivity.
    + intros j r Hj. discriminate.
    + reflexivity.
    + intros r [Hr|Hr]; [exact Hr|]. apply elem_of_nil in Hr. contradiction.
  - apply NoDup_cons in Hnd as [Hv Hnd]. cbn [for_enumerate].
    rewrite (bind_val _ _ _ _ _ (renumber_run k v w)).
    match goal with
    | |- context [for_enumerate _ _ _ ?w1] =>
        destruct (IH (k + 1) w1 Hnd) as (m' & Hrun & Hin & Hout & Hdom)
    end.
    cbn [app disk App.store App.set_store] in Hin, Hout, Hdom.
    exists m'. split; [|split; [|split]].
    + rewrite Hrun. destruct w as [[] ?]; reflexivity.
    + intros [|j] r Hj; cbn in Hj.
      * injection Hj as ->. rewrite (Hout r Hv).
        rewrite lookup_total_insert_eq. f_equal; lia.
      * rewrite (Hin j r Hj).
        rewrite lookup_total_insert_ne.
        -- f_equal; lia.
        -- intros ->. apply Hv. eapply list_elem_of_lookup_2. exact Hj.
    + intros r Hr. apply not_elem_of_cons in Hr as [Hne Hr].
      rewrite (Hout r Hr).
      rewrite lookup_total_insert_ne by congruence. reflexivity.
    + intros r Hr. apply Hdom.
      destruct (decide (r = v)) as [->|Hne].
      * left. rewrite lookup_insert_eq. eauto.
      * rewrite lookup_insert_ne by congruence.
        destruct Hr as [Hr|Hr]; [left; exact Hr|].
        apply elem_of_cons in Hr as [->|Hr]; [contradiction | right; exact Hr].
Qed.

(** The loop of [delete_screen] that builds the widgets anew. *)
Lemma append_widgets_run (l : list ref) :
  forall w,
    for_each l append_widget w
    = (Val tt,
       mkWorld
         (App.set_screen_widgets
            (App.screen_widgets (app w)
             ++ ((fun r => ScreenConfigWidget.create r (App.store (app w) !!! r)) <$> l))
            (app w))
         (disk w)).
Proof.
  induction l as [|v l IH]; intros w.
  - cbn [for_each fmap list_fmap ret]. rewrite app_nil_r.
    destruct w as [[] ?]; reflexivity.
  - cbn [for_each]. unfold bind. cbn [append_widget bind read modify_app].
    rewrite IH. cbn [app disk App.store App.screen_widgets App.set_screen_widgets fmap
                     list_fmap].
    rewrite <- app_assoc. reflexivity.
Qed.

(** [__init__] sets up a consistent application, and [add_screen] keeps it
    consistent. *)
Lemma init_consistent : consistent App.init.
Proof.
  split; [constructor|]. split; [reflexivity|].
  intros r Hr. apply elem_of_nil in Hr. contradiction.
Qed.

Lemma add_screen_consistent w :
  consistent (app w) -> consistent (app (snd (add_screen w))).
Proof.
  intros (Hnd & Hlen & Hin).
  assert (wp add_screen (fun _ w' => consistent (app w')) w) as Hwp; [|exact Hwp].
  unfold add_screen. apply wp_get_app. unfold new_screen.
  apply wp_bind, wp_get_app, wp_modify_app, wp_ret. cbn [app disk App.store].
  set (r := fresh (dom (App.store (app w)))).
  assert (r ∉ App.screens (app w)) as Hfresh.
  { intros Hr. apply Hin, elem_of_dom in Hr. exact (is_fresh _ Hr). }
  apply wp_modify_app. unfold append_widget. apply wp_bind, wp_read.
  unfold wp at 1. cbn [modify_app fst snd].
  eapply wp_mono; [apply recalculate_all_resolutions_same_settings|].
  intros res w' [Hs _]. eapply same_settings_consistent; [exact Hs|].
  clear Hs. unfold consistent.
  cbn [app App.screens App.screen_widgets App.store App.set_store App.set_screens
       App.set_screen_widgets].
  split; [|split].
  - apply NoDup_app. split; [exact Hnd|]. split; [|apply NoDup_singleton].
    intros x Hx Hx'. apply list_elem_of_singleton in Hx' as ->. contradiction.
  - rewrite !length_app, Hlen. reflexivity.
  - intros x Hx. apply elem_of_app in Hx as [Hx|Hx].
    + destruct (decide (x = r)) as [->|Hne]; [contradiction|].
      rewrite lookup_insert_ne by congruence. apply Hin, Hx.
    + apply list_elem_of_singleton in Hx as ->. rewrite lookup_insert_eq. eauto.
Qed.

(** C6.  In a consistent application, deleting the screen at index [i]
    returns, leaves the screen list without exactly that entry and in its
    former order, and gives every remaining screen its new position as id
    and the color of that id, its ratio and its position being kept; the
    application stays consistent. *)
Theorem delete_screen_renumbers :
  forall w i screen_config,
    consistent (app w) ->
    App.screens (app w) !! i = Some screen_config ->
    exists w',
      delete_screen screen_config w = (Val tt, w') /\
      App.screens (app w') = delete i (App.screens (app w)) /\
      (forall j r,
         App.screens (app w') !! j = Some r ->
         identity_of (App.store (app w') !!! r)
         = (Z.of_nat j,
            ScreenConfig.ratio_w (App.store (app w) !!! r),
            ScreenConfig.ratio_h (App.store (app w) !!! r),
            ScreenConfig.x (App.store (app w) !!! r),
            ScreenConfig.y (App.store (app w) !!! r),
            ScreenConfig.generate_color (Z.of_nat j))) /\
      consistent (app w').
Proof.
  intros w i sc (Hnd & Hlen & Hstore) Hi.
  set (Q := fun (r : result unit) (w' : World) =>
    r = Val tt /\
    App.screens (app w') = delete i (App.screens (app w)) /\
    (forall j r',
       App.screens (app w') !! j = Some r' ->
       identity_of (App.store (app w') !!! r')
       = (Z.of_nat j,
          ScreenConfig.ratio_w (App.store (app w) !!! r'),
          ScreenConfig.ratio_h (App.store (app w) !!! r'),
          ScreenConfig.x (App.store (app w) !!! r'),
          ScreenConfig.y (App.store (app w) !!! r'),
          ScreenConfig.generate_color (Z.of_nat j))) /\
    consistent (app w')).
  assert (wp (delete_screen sc) Q w) as Hwp.
  2:{ apply wp_elim in Hwp as (r & w' & Hrun & -> & Hq). exists w'. split; assumption. }
  assert (list_index (App.screens (app w)) sc = inr i) as Hidx.
  { unfold list_index. rewrite (index_from_lookup _ 0 i sc Hnd Hi). reflexivity. }
  assert (list_pop (App.screens (app w)) i = inr (sc, delete i (App.screens (app w))))
    as Hpop by (unfold list_pop; rewrite Hi; reflexivity).
  assert (exists wd, list_pop (App.screen_widgets (app w)) i
                     = inr (wd, delete i (App.screen_widgets (app w)))) as [wd Hpopw].
  { unfold list_pop.
    destruct (lookup_lt_is_Some_2 (App.screen_widgets (app w)) i) as [wd ->].
    - rewrite Hlen. eapply lookup_lt_Some. exact Hi.
    - eauto. }
  assert (delete i (App.screens (app w)) `sublist_of` App.screens (app w)) as Hsub
    by apply sublist_delete.
  assert (NoDup (delete i (App.screens (app w)))) as Hnd'
    by (eapply sublist_NoDup; eauto).
  unfold delete_screen. apply wp_try_except, wp_get_app, wp_lift. rewrite Hidx.
  apply wp_lift. rewrite Hpop. apply wp_modify_app, wp_get_app, wp_lift.
  cbn [app App.screen_widgets App.set_screens snd]. rewrite Hpopw.
  apply wp_modify_app, wp_get_app, wp_bind.
  cbn [app App.screens App.set_screens App.set_screen_widgets snd].
  match goal with
  | |- wp (for_enumerate _ _ _) _ ?w1 =>
      destruct (renumber_loop _ 0 w1 Hnd') as (m' & Hrun & Hin & _ & Hdom)
  end.
  unfold wp at 1. rewrite Hrun. cbn [fst snd].
  cbn [app disk App.store App.set_store App.set_screens App.set_screen_widgets] in *.
  apply wp_modify_app, wp_get_app, wp_bind.
  unfold wp at 1. rewrite append_widgets_run. cbn [fst snd].
  cbn [app disk App.store App.screens App.screen_widgets App.set_store App.set_screens
       App.set_screen_widgets app_nil_l].
  match goal with |- wp _ _ ?w0 => set (w3 := w0) end.
  assert (forall w4, same_settings w3 w4 -> Q (Val tt) w4) as Hfinal.
  { intros w4 Hs. pose proof Hs as (Hscr & _ & _ & _ & _ & Hid).
    split; [reflexivity|]. split; [rewrite Hscr; reflexivity|]. split.
    - intros j r' Hj. rewrite Hid. rewrite Hscr in Hj. subst w3.
      cbn [app App.store App.screens App.set_store App.set_screens
           App.set_screen_widgets] in *.
      rewrite (Hin j r' Hj). reflexivity.
    - eapply same_settings_consistent; [exact Hs|]. subst w3.
      cbn [app App.store App.screens App.screen_widgets App.set_store App.set_screens
           App.set_screen_widgets].
      split; [exact Hnd'|]. split; [cbn; rewrite length_fmap; reflexivity|].
      intros r Hr. apply Hdom. right. exact Hr. }
  eapply wp_mono; [apply recalculate_all_resolutions_same_settings|].
  intros r w4 [Hs Hr]. pose proof (Hfinal w4 Hs) as HQ.
  destruct r as [[]|e|]; [exact HQ | exact HQ | contradiction].
Qed.

(** ** Edits *)

Section Edits.

Variable int_of_str : string -> option Z.

Lemma wp_try_except_ValueError {A} (body handler : M A)
    (Q : result A -> World -> Prop) w :
  wp body (fun r w1 =>
             match r with
             | Exc e => if is_ValueError e then wp handler Q w1 else Q (Exc e) w1
             | _ => Q r w1
             end) w ->
  wp (try_except_ValueError body handler) Q w.
Proof.
  unfold wp, try_except_ValueError.
  destruct (body w) as [[a|e|] w1]; cbn; try destruct (is_ValueError e); auto.
Qed.

Lemma wp_int_ {B} s (k : Z -> M B) (Q : result B -> World -> Prop) w :
  match int_of_str s with
  | Some n => wp (k n) Q w
  | None => Q (Exc (ValueError "invalid literal for int() with base 10")) w
  end ->
  wp (bind (int_ int_of_str s) k) Q w.
Proof. unfold int_. destruct (int_of_str s); auto. Qed.

Lemma update_config_run self w :
  match int_of_str (ScreenConfigWidget.ratio_w_entry self),
        int_of_str (ScreenConfigWidget.ratio_h_entry self),
        int_of_str (ScreenConfigWidget.x_entry self),
        int_of_str (ScreenConfigWidget.y_entry self) with
  | Some ratio_w, Some ratio_h, Some x, Some y =>
      if (ratio_w <=? 0) || (ratio_h <=? 0)
      then update_config int_of_str self w = (Val tt, w)
      else
        exists r w',
          update_config int_of_str self w = (r, w') /\ r <> OutOfFuel /\
          let s := App.store (app w) !!! ScreenConfigWidget.screen_config self in
          identity_of (App.store (app w') !!! ScreenConfigWidget.screen_config self)
          = (ScreenConfig.id s, ratio_w, ratio_h, x, y, ScreenConfig.color s)
  | _, _, _, _ => update_config int_of_str self w = (Val tt, w)
  end.
Proof.
  destruct (int_of_str (ScreenConfigWidget.ratio_w_entry self)) as [ratio_w|] eqn:Hrw;
    [|unfold update_config, try_except_ValueError, bind, int_; rewrite Hrw; reflexivity].
  destruct (int_of_str (ScreenConfigWidget.ratio_h_entry self)) as [ratio_h|] eqn:Hrh;
    [|unfold update_config, try_except_ValueError, bind, int_; rewrite Hrw, Hrh;
      reflexivity].
  destruct (int_of_str (ScreenConfigWidget.x_entry self)) as [x|] eqn:Hx;
    [|unfold update_config, try_except_ValueError, bind, int_; rewrite Hrw, Hrh, Hx;
      reflexivity].
  destruct (int_of_str (ScreenConfigWidget.y_entry self)) as [y|] eqn:Hy;
    [|unfold update_config, try_except_ValueError, bind, int_;
      rewrite Hrw, Hrh, Hx, Hy; reflexivity].
  destruct ((ratio_w <=? 0) || (ratio_h <=? 0)) eqn:Hpos.
  { unfold update_config, try_except_ValueError, bind, int_.
    rewrite Hrw, Hrh, Hx, Hy. cbn [ret]. rewrite Hpos. reflexivity. }
  apply wp_elim.
  set (sc := ScreenConfigWidget.screen_config self).
  unfold update_config. apply wp_try_except_ValueError.
  apply wp_int_; rewrite Hrw. apply wp_int_; rewrite Hrh.
  apply wp_int_; rewrite Hx. apply wp_int_; rewrite Hy. rewrite Hpos.
  fold sc. do 4 apply wp_assign.
  match goal with |- wp _ _ ?w0 => set (w1 := w0) end.
  assert (identity_of (App.store (app w1) !!! sc)
          = (ScreenConfig.id (App.store (app w) !!! sc), ratio_w, ratio_h, x, y,
             ScreenConfig.color (App.store (app w) !!! sc))) as Hw1.
  { subst w1. cbn [assign modify_app snd app App.store App.set_store].
    rewrite !lookup_total_insert_eq. reflexivity. }
  eapply wp_mono; [apply recalculate_all_resolutions_same_settings|].
  intros r w2 [(_ & _ & _ & _ & _ & Hid) Hr].
  assert (identity_of (App.store (app w2) !!! sc)
          = (ScreenConfig.id (App.store (app w) !!! sc), ratio_w, ratio_h, x, y,
             ScreenConfig.color (App.store (app w) !!! sc))) as Hw2
    by (rewrite Hid; exact Hw1).
  destruct r as [[]|e|]; [| |contradiction].
  - split; [discriminate | exact Hw2].
  - destruct (is_ValueError e); (split; [discriminate | exact Hw2]).
Qed.

Lemma apply_reference_run w :
  let g := App.global_config (app w) in
  match int_of_str (GlobalConfigWidget.ref_width_entry g),
        int_of_str (GlobalConfigWidget.ref_height_entry g) with
  | Some new_width, Some new_height =>
      if (new_width <=? 0) || (new_height <=? 0)
      then apply_reference int_of_str w = (Val tt, w)
      else
        exists r w',
          apply_reference int_of_str w = (r, w') /\ r <> OutOfFuel /\
          App.global_config (app w')
          = GlobalConfigWidget.set_reference new_width new_height g
  | _, _ => apply_reference int_of_str w = (Val tt, w)
  end.
Proof.
  intros g.
  destruct (int_of_str (GlobalConfigWidget.ref_width_entry g)) as [nw|] eqn:Hw;
    [|unfold apply_reference, try_except_ValueError, bind, int_; cbn [get_app];
      fold g; rewrite Hw; reflexivity].
  destruct (int_of_str (GlobalConfigWidget.ref_height_entry g)) as [nh|] eqn:Hh;
    [|unfold apply_reference, try_except_ValueError, bind, int_; cbn [get_app];
      fold g; rewrite Hw, Hh; reflexivity].
  destruct ((nw <=? 0) || (nh <=? 0)) eqn:Hpos.
  { unfold apply_reference, try_except_ValueError, bind, int_. cbn [get_app].
    fold g. rewrite Hw, Hh. cbn [ret]. rewrite Hpos. reflexivity. }
  apply wp_elim. unfold apply_reference. apply wp_try_except_ValueError, wp_get_app.
  fold g. apply wp_int_; rewrite Hw. apply wp_int_; rewrite Hh. rewrite Hpos.
  apply wp_modify_app.
  eapply wp_mono; [apply recalculate_all_resolutions_same_settings|].
  intros r w2 [(_ & _ & Hg & _) Hr].
  cbn [app App.global_config App.set_global_config] in Hg. fold g in Hg.
  destruct r as [[]|e|]; [| |contradiction].
  - split; [discriminate | exact Hg].
  - destruct (is_ValueError e); (split; [discriminate | exact Hg]).
Qed.

End Edits.

(** ** Strings as lists of characters *)

Lemma chars_app s1 s2 :
  Path.chars (s1 +:+ s2) = (Path.chars s1 ++ Path.chars s2)%list.
Proof.
  unfold Path.chars. induction s1 as [|c s1 IH]; [reflexivity|].
  change (String c s1 +:+ s2) with (String c (s1 +:+ s2)).
  cbn [list_ascii_of_string]. rewrite IH. reflexivity.
Qed.

Lemma chars_inj s1 s2 : Path.chars s1 = Path.chars s2 -> s1 = s2.
Proof.
  unfold Path.chars. intros H.
  rewrite <- (string_of_list_ascii_of_string s1), <- (string_of_list_ascii_of_string s2).
  rewrite H. reflexivity.
Qed.



Lemma append_inj_r s1 s2 e : s1 +:+ e = s2 +:+ e -> s1 = s2.
Proof.
  intros H. apply chars_inj. apply (f_equal Path.chars) in H.
  rewrite !chars_app in H. eapply app_inv_tail. exact H.
Qed.

(** ** Unique file names *)

Lemma numbered_inj name ext k j : numbered name ext k = numbered name ext j -> k = j.
Proof.
  unfold numbered. intros H.
  apply String.app_inj in H. apply String.app_inj in H.
  apply append_inj_r in H. apply (inj pretty) in H. exact H.
Qed.

(** Among more candidates than the disk has paths, one is free. *)
Lemma numbered_pigeonhole (d : gmap string node) name ext c n :
  (forall j, c <= j < c + Z.of_nat n -> is_Some (d !! numbered name ext j)) ->
  (n <= size d)%nat.
Proof.
  intros Hall.
  set (l := numbered name ext <$> seqZ c (Z.of_nat n)).
  assert (NoDup l) as Hnd.
  { apply NoDup_fmap_2; [intros k j; apply numbered_inj | apply NoDup_seqZ]. }
  assert (list_to_set l ⊆ dom d) as Hsub.
  { intros p Hp. apply elem_of_list_to_set in Hp.
    apply list_elem_of_fmap in Hp as (j & -> & Hj). apply elem_of_seqZ in Hj.
    apply elem_of_dom, Hall. lia. }
  apply subseteq_size in Hsub.
  rewrite size_list_to_set in Hsub by exact Hnd.
  rewrite size_dom in Hsub.
  unfold l in Hsub. rewrite length_fmap, length_seqZ in Hsub. lia.
Qed.

(** The loop returns the first free candidate from [counter] on, or runs out
    of fuel after as many occupied ones. *)
Lemma unique_loop_run fuel name ext :
  forall counter w,
    (exists k,
       counter <= k < counter + Z.of_nat fuel /\
       unique_loop fuel name ext counter w = (Val (numbered name ext k), w) /\
       disk w !! numbered name ext k = None /\
       forall j, counter <= j < k -> is_Some (disk w !! numbered name ext j)) \/
    (unique_loop fuel name ext counter w = (OutOfFuel, w) /\
     forall j, counter <= j < counter + Z.of_nat fuel ->
       is_Some (disk w !! numbered name ext j)).
Proof.
  induction fuel as [|fuel IH]; intros counter w.
  - right. split; [reflexivity|]. intros j Hj. lia.
  - cbn [unique_loop]. unfold exists_, bind at 1. cbn [get_disk bind ret].
    destruct (disk w !! numbered name ext counter) as [n|] eqn:Hc.
    + rewrite bool_decide_true by eauto. cbn [negb].
      destruct (IH (counter + 1) w) as [(k & Hk & Hrun & Hfree & Hocc)|[Hrun Hocc]].
      * left. exists k. split; [lia|]. split; [exact Hrun|]. split; [exact Hfree|].
        intros j Hj. destruct (decide (j = counter)) as [->|]; [eauto|].
        apply Hocc. lia.
      * right. split; [exact Hrun|].
        intros j Hj. destruct (decide (j = counter)) as [->|]; [eauto|].
        apply Hocc. lia.
    + rewrite bool_decide_false by (intros [? ?]; congruence). cbn [negb].
      left. exists counter. split; [lia|]. split; [reflexivity|].
      split; [exact Hc|]. intros j Hj. lia.
Qed.

Lemma get_unique_filename_cases fuel base_path w :
  (exists p,
     get_unique_filename fuel base_path w = (Val p, w) /\
     first_free (disk w) base_path p) \/
  (get_unique_filename fuel base_path w = (OutOfFuel, w) /\
   (fuel <= size (disk w))%nat).
Proof.
  unfold first_free, get_unique_filename, exists_, bind at 1.
  cbn [get_disk bind ret].
  destruct (disk w !! base_path) as [n|] eqn:Hbase.
  - rewrite bool_decide_true by eauto. cbn [negb].
    destruct (Path.splitext base_path) as [name ext]. cbn [fst snd].
    destruct (unique_loop_run fuel name ext 2 w)
      as [(k & Hk & Hrun & Hfree & Hocc)|[Hrun Hocc]].
    + left. exists (numbered name ext k). split; [exact Hrun|]. split; [exact Hfree|].
      split; [discriminate|]. intros _. exists k. split; [lia|]. split; [reflexivity|].
      exact Hocc.
    + right. split; [exact Hrun|]. eapply numbered_pigeonhole. exact Hocc.
  - rewrite bool_decide_false by (intros [? ?]; congruence). cbn [negb].
    left. exists base_path. split; [reflexivity|]. split; [exact Hbase|].
    split; [reflexivity|]. intros [? ?]. congruence.
Qed.

Lemma get_unique_filename_run fuel base_path w :
  (size (disk w) < fuel)%nat ->
  exists p,
    get_unique_filename fuel base_path w = (Val p, w) /\
    first_free (disk w) base_path p.
Proof.
  intros Hfuel.
  destruct (get_unique_filename_cases fuel base_path w) as [H|[_ H]]; [exact H | lia].
Qed.

(** ** Extensions and file names *)















(** ** Export *)

Lemma exceeds_false s img_width img_height :
  exceeds s img_width img_height = false <-> in_bounds s img_width img_height.
Proof. unfold exceeds, in_bounds. rewrite !orb_false_iff. lia. Qed.

Section ExportLoop.

Variable crop : Image.t -> Z * Z * Z * Z -> exn + Image.t.
Variable save : gmap string node -> Image.t -> string -> save_outcome.

(** One turn of the export loop, case by case. *)
Lemma extract_step_run fuel output_folder screen w image image_path :
  App.image (app w) = Some image ->
  App.image_path (app w) = Some image_path ->
  let s := App.store (app w) !!! screen in
  let base_path :=
    Path.join output_folder (screen_stem s +:+ snd (Path.splitext image_path)) in
  if exceeds s (fst (Image.size image)) (snd (Image.size image)) then
    extract_step crop save fuel output_folder screen w
    = (Val (Failed (boundary_msg s)), w)
  else
    match crop image (ScreenConfig.get_box s) with
    | inl e =>
        extract_step crop save fuel output_folder screen w
        = (Val (Failed (error_msg_of s e)), w)
    | inr cropped =>
        match fst (get_unique_filename fuel base_path w) with
        | Val p =>
            match save (disk w) cropped p with
            | Saved =>
                extract_step crop save fuel output_folder screen w
                = (Val (Extracted p),
                   mkWorld (app w) (<[p := Raster cropped]> (disk w)))
            | SaveRaised e None =>
                extract_step crop save fuel output_folder screen w
                = (Val (Failed (error_msg_of s e)), w)
            | SaveRaised e (Some n) =>
                extract_step crop save fuel output_folder screen w
                = (Val (Failed (error_msg_of s e)),
                   mkWorld (app w) (<[p := n]> (disk w)))
            end
        | _ =>
            extract_step crop save fuel output_folder screen w = (OutOfFuel, w)
        end
    end.
Proof.
  intros Him Hpath s base_path. subst s base_path.
  unfold extract_step, extract_screen.
  cbv beta iota zeta delta [bind lift ret raise read get_app try_except].
  rewrite Him, Hpath.
  destruct (Image.size image) as [img_width img_height]. cbn [fst snd].
  destruct (exceeds _ img_width img_height); [reflexivity|].
  destruct (crop image _) as [e|cropped]; [reflexivity|].
  destruct (get_unique_filename_cases fuel
              (Path.join output_folder
                 (screen_stem (App.store (app w) !!! screen)
                  +:+ snd (Path.splitext image_path))) w)
    as [(p & -> & _)|[-> _]]; cbn [fst]; [|reflexivity].
  unfold save_image.
  cbv beta iota zeta delta [bind lift ret raise read get_disk modify_disk].
  destruct (save (disk w) cropped p) as [|e [n|]]; reflexivity.
Qed.

(** Every turn of the loop leaves the application as it was, keeps what the
    disk held, and never lets an exception out. *)
Lemma extract_step_frame fuel output_folder screen w :
  app (snd (extract_step crop save fuel output_folder screen w)) = app w /\
  disk w ⊆ disk (snd (extract_step crop save fuel output_folder screen w)) /\
  forall e, fst (extract_step crop save fuel output_folder screen w) <> Exc e.
Proof.
  destruct (App.image (app w)) as [image|] eqn:Him.
  2:{ unfold extract_step, extract_screen.
      cbv beta iota zeta delta [bind lift ret raise read get_app try_except].
      rewrite Him. cbn. repeat split; [reflexivity | discriminate]. }
  destruct (App.image_path (app w)) as [image_path|] eqn:Hpath.
  2:{ unfold extract_step, extract_screen.
      cbv beta iota zeta delta [bind lift ret raise read get_app try_except].
      rewrite Him, Hpath. destruct (Image.size image) as [img_width img_height].
      destruct (exceeds _ _ _);
        [cbn; repeat split; [reflexivity | discriminate]|].
      destruct (crop image _);
        cbn; repeat split; first [reflexivity | discriminate]. }
  pose proof (extract_step_run fuel output_folder screen w image image_path Him Hpath)
    as Hrun. cbv zeta in Hrun.
  destruct (exceeds _ _ _);
    [rewrite Hrun; cbn; repeat split; [reflexivity | discriminate]|].
  destruct (crop image _) as [e|cropped];
    [rewrite Hrun; cbn; repeat split; [reflexivity | discriminate]|].
  destruct (get_unique_filename_cases fuel
              (Path.join output_folder
                 (screen_stem (App.store (app w) !!! screen)
                  +:+ snd (Path.splitext image_path))) w)
    as [(p & Hp & Hfree & _)|[Hp _]]; rewrite Hp in Hrun; cbn [fst] in Hrun.
  - destruct (save (disk w) cropped p) as [|e [n|]]; rewrite Hrun; cbn;
      repeat split; try reflexivity; try discriminate;
      apply insert_subseteq; exact Hfree.
  - rewrite Hrun. cbn. repeat split; [reflexivity | discriminate].
Qed.

Lemma extract_loop_frame fuel output_folder l :
  forall extracted_count errors w,
    app (snd (extract_loop crop save fuel output_folder l extracted_count errors w))
    = app w /\
    disk w ⊆ disk (snd (extract_loop crop save fuel output_folder l
                          extracted_count errors w)).
Proof.
  induction l as [|screen l IH]; intros cnt errs w; [split; reflexivity|].
  cbn [extract_loop]. unfold bind.
  pose proof (extract_step_frame fuel output_folder screen w) as (Happ & Hdisk & Hexc).
  destruct (extract_step crop save fuel output_folder screen w) as [[out|e|] w1];
    cbn [fst snd] in *.
  - destruct out as [error_msg|filepath].
    + destruct (IH cnt (errs ++ [error_msg])%list w1) as [Happ' Hdisk'].
      split; [congruence | etrans; eassumption].
    + destruct (IH (cnt + 1) errs w1) as [Happ' Hdisk'].
      split; [congruence | etrans; eassumption].
  - split; assumption.
  - split; assumption.
Qed.

Lemma extract_all_frame fuel output_folder w :
  app (snd (extract_all crop save fuel output_folder w)) = app w /\
  disk w ⊆ disk (snd (extract_all crop save fuel output_folder w)).
Proof.
  unfold extract_all. cbv beta iota zeta delta [bind get_app ret].
  destruct (App.image (app w)); [|split; reflexivity].
  destruct (length (App.screens (app w)) =? 0)%nat; [split; reflexivity|].
  destruct (String.eqb output_folder ""); [split; reflexivity|].
  pose proof (extract_loop_frame fuel output_folder (App.screens (app w)) 0 [] w) as H.
  destruct (extract_loop _ _ _ _ _ _ _ w) as [[r|e|] w']; exact H.
Qed.

(** One turn of the loop with fuel for the disk it meets: what it records,
    and what it leaves on the disk. *)
Lemma extract_step_outcome fuel output_folder screen w image image_path :
  App.image (app w) = Some image ->
  App.image_path (app w) = Some image_path ->
  (size (disk w) < fuel)%nat ->
  let s := App.store (app w) !!! screen in
  let base_path :=
    Path.join output_folder (screen_stem s +:+ snd (Path.splitext image_path)) in
  exists out w' p,
    extract_step crop save fuel output_folder screen w = (Val out, w') /\
    app w' = app w /\
    get_unique_filename fuel base_path w = (Val p, w) /\
    first_free (disk w) base_path p /\
    if exceeds s (fst (Image.size image)) (snd (Image.size image)) then
      out = Failed (boundary_msg s) /\ w' = w
    else
      match crop image (ScreenConfig.get_box s) with
      | inl e => out = Failed (error_msg_of s e) /\ w' = w
      | inr cropped =>
          match save (disk w) cropped p with
          | Saved =>
              out = Extracted p /\ disk w' = <[p := Raster cropped]> (disk w)
          | SaveRaised e None =>
              out = Failed (error_msg_of s e) /\ w' = w
          | SaveRaised e (Some n) =>
              out = Failed (error_msg_of s e) /\ disk w' = <[p := n]> (disk w)
          end
      end.
Proof.
  intros Him Hpath Hfuel s base_path.
  pose proof (extract_step_run fuel output_folder screen w image image_path Him Hpath)
    as Hrun. cbv zeta in Hrun. fold s base_path in Hrun.
  destruct (get_unique_filename_run fuel base_path w Hfuel) as (p & Hp & Hfree).
  rewrite Hp in Hrun. cbn [fst] in Hrun.
  assert (forall out w',
            extract_step crop save fuel output_folder screen w = (Val out, w') ->
            app w' = app w ->
            forall P : Prop, P ->
            extract_step crop save fuel output_folder screen w = (Val out, w') /\
            app w' = app w /\
            get_unique_filename fuel base_path w = (Val p, w) /\
            first_free (disk w) base_path p /\ P) as Hpack by auto.
  destruct (exceeds s _ _).
  { exists (Failed (boundary_msg s)), w, p. apply Hpack; auto. }
  destruct (crop image (ScreenConfig.get_box s)) as [e|cropped].
  { exists (Failed (error_msg_of s e)), w, p. apply Hpack; auto. }
  destruct (save (disk w) cropped p) as [|e [n|]] eqn:Hsave.
  - exists (Extracted p), (mkWorld (app w) (<[p := Raster cropped]> (disk w))), p.
    rewrite Hsave. apply Hpack; auto.
  - exists (Failed (error_msg_of s e)), (mkWorld (app w) (<[p := n]> (disk w))), p.
    rewrite Hsave. apply Hpack; auto.
  - exists (Failed (error_msg_of s e)), w, p. rewrite Hsave. apply Hpack; auto.
Qed.

Lemma extract_step_grows fuel output_folder screen w image image_path :
  App.image (app w) = Some image ->
  App.image_path (app w) = Some image_path ->
  (size (disk w) < fuel)%nat ->
  exists out w',
    extract_step crop save fuel output_folder screen w = (Val out, w') /\
    app w' = app w /\
    (size (disk w') <= S (size (disk w)))%nat.
Proof.
  intros Him Hpath Hfuel.
  destruct (extract_step_outcome fuel output_folder screen w image image_path
              Him Hpath Hfuel) as (out & w' & p & Hrun & Happ & _ & (Hfree & _) & Hcase).
  exists out, w'. split; [exact Hrun|]. split; [exact Happ|].
  destruct (exceeds _ _ _); [destruct Hcase as [_ ->]; lia|].
  destruct (crop image _) as [e|cropped]; [destruct Hcase as [_ ->]; lia|].
  destruct (save (disk w) cropped p) as [|e [n|]]; destruct Hcase as [_ Hd];
    try (rewrite Hd, map_size_insert_None by exact Hfree; lia).
  subst w'. lia.
Qed.

(** With fuel for the disk and one more path per screen, the loop gives every
    screen its turn and reports the count of the saved ones and the errors of
    the others. *)
Lemma extract_loop_exports fuel output_folder l :
  forall extracted_count errors w image image_path,
    App.image (app w) = Some image ->
    App.image_path (app w) = Some image_path ->
    (size (disk w) + length l < fuel)%nat ->
    exists outs w',
      exports (extract_step crop save fuel output_folder) l w outs w' /\
      extract_loop crop save fuel output_folder l extracted_count errors w
      = (Val (mkResult (extracted_count + count_extracted outs)
                       (errors ++ failures outs)), w').
Proof.
  induction l as [|screen l IH]; intros cnt errs w image image_path Him Hpath Hfuel.
  - exists [], w. split; [constructor|]. cbn. rewrite Z.add_0_r, app_nil_r. reflexivity.
  - cbn [length] in Hfuel.
    destruct (extract_step_grows fuel output_folder screen w image image_path
                Him Hpath ltac:(lia)) as (out & w1 & Hstep & Happ & Hsize).
    cbn [extract_loop]. rewrite (bind_val _ _ _ _ _ Hstep).
    destruct out as [error_msg|filepath].
    + destruct (IH cnt (errs ++ [error_msg])%list w1 image image_path)
        as (outs & w2 & Hexp & Hrun); [congruence | congruence | lia |].
      exists (Failed error_msg :: outs), w2. split; [econstructor; eassumption|].
      rewrite Hrun. cbn [count_extracted failures]. rewrite <- app_assoc. reflexivity.
    + destruct (IH (cnt + 1) errs w1 image image_path)
        as (outs & w2 & Hexp & Hrun); [congruence | congruence | lia |].
      exists (Extracted filepath :: outs), w2. split; [econstructor; eassumption|].
      rewrite Hrun. cbn [count_extracted failures]. do 3 f_equal. lia.
Qed.

(** A screen outside the bounds gets its error and changes nothing, whatever
    the path of the image. *)
Lemma extract_step_outside fuel output_folder screen w image :
  App.image (app w) = Some image ->
  exceeds (App.store (app w) !!! screen) (fst (Image.size image))
    (snd (Image.size image)) = true ->
  extract_step crop save fuel output_folder screen w
  = (Val (Failed (boundary_msg (App.store (app w) !!! screen))), w).
Proof.
  intros Him Hout. unfold extract_step, extract_screen.
  cbv beta iota zeta delta [bind lift ret raise read get_app try_except].
  rewrite Him. destruct (Image.size image) as [img_width img_height].
  cbn [fst snd] in Hout. rewrite Hout. reflexivity.
Qed.

Lemma extract_loop_errors fuel output_folder l :
  forall extracted_count errors errors' w,
    saved_of (extract_loop crop save fuel output_folder l extracted_count errors w)
    = saved_of (extract_loop crop save fuel output_folder l extracted_count errors' w).
Proof.
  induction l as [|screen l IH]; intros cnt errs errs' w; [reflexivity|].
  cbn [extract_loop]. unfold bind.
  destruct (extract_step crop save fuel output_folder screen w) as [[[m|p]|e|] w1];
    try reflexivity; apply IH.
Qed.

(** Without a screen that lies outside the bounds, the export saves the same
    screens to the same paths. *)
Lemma extract_loop_skips_outside fuel output_folder screen image l2 l1 :
  forall extracted_count errors w,
    App.image (app w) = Some image ->
    exceeds (App.store (app w) !!! screen) (fst (Image.size image))
      (snd (Image.size image)) = true ->
    saved_of (extract_loop crop save fuel output_folder (l1 ++ screen :: l2)
                extracted_count errors w)
    = saved_of (extract_loop crop save fuel output_folder (l1 ++ l2)
                  extracted_count errors w).
Proof.
  induction l1 as [|a l1 IH]; intros cnt errs w Him Hout.
  - cbn [List.app extract_loop].
    rewrite (bind_val _ _ _ _ _ (extract_step_outside fuel output_folder screen w
                                   image Him Hout)).
    apply extract_loop_errors.
  - cbn [List.app extract_loop]. unfold bind.
    pose proof (extract_step_frame fuel output_folder a w) as (Happ & _ & _).
    destruct (extract_step crop save fuel output_folder a w) as [[[m|p]|e|] w1];
      cbn [snd] in Happ; try reflexivity;
      apply IH; rewrite Happ; assumption.
Qed.

End ExportLoop.

(** ** The export as a run of turns *)

Section ExportRuns.

Variable crop : Image.t -> Z * Z * Z * Z -> exn + Image.t.
Variable save : gmap string node -> Image.t -> string -> save_outcome.





End ExportRuns.

(** ** Screens, edits and export *)

Example four_screens_ids :
  App.screens (app four_screens) = [1; 2; 3; 4]%positive /\
  (fun r => ScreenConfig.id (App.store (app four_screens) !!! r))
    <$> App.screens (app four_screens) = [0; 1; 2; 3].
Proof. split; vm_compute; reflexivity. Qed.

Lemma four_screens_consistent : consistent (app four_screens).
Proof. unfold four_screens. do 4 apply add_screen_consistent. apply init_consistent. Qed.

Lemma delete_second_of_four :
  exists w',
    delete_screen 2%positive four_screens = (Val tt, w') /\
    App.screens (app w') = delete 1%nat (App.screens (app four_screens)) /\
    consistent (app w').
Proof.
  destruct (delete_screen_renumbers four_screens 1%nat 2%positive)
    as (w' & Hrun & Hscreens & _ & Hcons).
  - exact four_screens_consistent.
  - vm_compute. reflexivity.
  - exists w'. split; [exact Hrun|]. split; [exact Hscreens | exact Hcons].
Defined.

Example delete_second_of_four_ids :
  App.screens (app (snd (delete_screen 2%positive four_screens))) = [1; 3; 4]%positive /\
  (fun r => ScreenConfig.id
              (App.store (app (snd (delete_screen 2%positive four_screens))) !!! r))
    <$> [1; 3; 4]%positive = [0; 1; 2].
Proof. split; vm_compute; reflexivity. Qed.

(** C7.  An edit of a screen with a field that is no integer or a ratio term
    that is not positive changes nothing, and so does an edit of the
    reference resolution with a field that is no integer or a dimension that
    is not positive.  Any other edit assigns all of [ratio_w], [ratio_h], [x]
    and [y], respectively both of [ref_width] and [ref_height]. *)
Theorem edits_are_atomic :
  forall int_of_str : string -> option Z,
    (forall self w,
       screen_edit_rejected int_of_str self ->
       update_config int_of_str self w = (Val tt, w)) /\
    (forall self w,
       ~ screen_edit_rejected int_of_str self ->
       exists ratio_w ratio_h x y r w',
         int_of_str (ScreenConfigWidget.ratio_w_entry self) = Some ratio_w /\
         int_of_str (ScreenConfigWidget.ratio_h_entry self) = Some ratio_h /\
         int_of_str (ScreenConfigWidget.x_entry self) = Some x /\
         int_of_str (ScreenConfigWidget.y_entry self) = Some y /\
         update_config int_of_str self w = (r, w') /\ r <> OutOfFuel /\
         let s := App.store (app w) !!! ScreenConfigWidget.screen_config self in
         identity_of (App.store (app w') !!! ScreenConfigWidget.screen_config self)
         = (ScreenConfig.id s, ratio_w, ratio_h, x, y, ScreenConfig.color s)) /\
    (forall w,
       reference_edit_rejected int_of_str (App.global_config (app w)) ->
       apply_reference int_of_str w = (Val tt, w)) /\
    (forall w,
       ~ reference_edit_rejected int_of_str (App.global_config (app w)) ->
       exists new_width new_height r w',
         int_of_str (GlobalConfigWidget.ref_width_entry (App.global_config (app w)))
         = Some new_width /\
         int_of_str (GlobalConfigWidget.ref_height_entry (App.global_config (app w)))
         = Some new_height /\
         apply_reference int_of_str w = (r, w') /\ r <> OutOfFuel /\
         App.global_config (app w')
         = GlobalConfigWidget.set_reference new_width new_height
             (App.global_config (app w))).
Proof.
  intros int_of_str. split; [|split; [|split]].
  - intros self w Hrej. pose proof (update_config_run int_of_str self w) as H.
    unfold screen_edit_rejected in Hrej.
    destruct (int_of_str (ScreenConfigWidget.ratio_w_entry self)) as [rw|]; [|exact H].
    destruct (int_of_str (ScreenConfigWidget.ratio_h_entry self)) as [rh|]; [|exact H].
    destruct (int_of_str (ScreenConfigWidget.x_entry self)) as [x|]; [|exact H].
    destruct (int_of_str (ScreenConfigWidget.y_entry self)) as [y|]; [|exact H].
    destruct ((rw <=? 0) || (rh <=? 0)) eqn:Hpos; [exact H|].
    apply orb_false_iff in Hpos as [Hrw Hrh].
    destruct Hrej as [?|[?|[?|[?|[(n & [= <-] & ?)|(n & [= <-] & ?)]]]]];
      try discriminate; lia.
  - intros self w Hacc. pose proof (update_config_run int_of_str self w) as H.
    unfold screen_edit_rejected in Hacc.
    destruct (int_of_str (ScreenConfigWidget.ratio_w_entry self)) as [rw|];
      [|tauto].
    destruct (int_of_str (ScreenConfigWidget.ratio_h_entry self)) as [rh|];
      [|tauto].
    destruct (int_of_str (ScreenConfigWidget.x_entry self)) as [x|]; [|tauto].
    destruct (int_of_str (ScreenConfigWidget.y_entry self)) as [y|]; [|tauto].
    destruct ((rw <=? 0) || (rh <=? 0)) eqn:Hpos.
    { exfalso. apply Hacc. apply orb_true_iff in Hpos as [Hrw|Hrh].
      - do 4 right. left. exists rw. split; [reflexivity | lia].
      - do 5 right. exists rh. split; [reflexivity | lia]. }
    destruct H as (r & w' & Hrun & Hr & Hid).
    exists rw, rh, x, y, r, w'. auto 10.
  - intros w Hrej. pose proof (apply_reference_run int_of_str w) as H.
    cbv zeta in H. unfold reference_edit_rejected in Hrej.
    destruct (int_of_str (GlobalConfigWidget.ref_width_entry _)) as [nw|]; [|exact H].
    destruct (int_of_str (GlobalConfigWidget.ref_height_entry _)) as [nh|]; [|exact H].
    destruct ((nw <=? 0) || (nh <=? 0)) eqn:Hpos; [exact H|].
    apply orb_false_iff in Hpos as [Hnw Hnh].
    destruct Hrej as [?|[?|[(n & [= <-] & ?)|(n & [= <-] & ?)]]];
      try discriminate; lia.
  - intros w Hacc. pose proof (apply_reference_run int_of_str w) as H.
    cbv zeta in H. unfold reference_edit_rejected in Hacc.
    destruct (int_of_str (GlobalConfigWidget.ref_width_entry _)) as [nw|]; [|tauto].
    destruct (int_of_str (GlobalConfigWidget.ref_height_entry _)) as [nh|]; [|tauto].
    destruct ((nw <=? 0) || (nh <=? 0)) eqn:Hpos.
    { exfalso. apply Hacc. apply orb_true_iff in Hpos as [Hnw|Hnh].
      - do 2 right. left. exists nw. split; [reflexivity | lia].
      - do 3 right. exists nh. split; [reflexivity | lia]. }
    destruct H as (r & w' & Hrun & Hr & Hg).
    exists nw, nh, r, w'. auto 10.
Qed.

Lemma zero_ratio_height_is_rejected :
  update_config decimal_int zero_height_widget four_screens = (Val tt, four_screens) /\
  (exists r w',
     update_config decimal_int edited_widget four_screens = (r, w') /\
     r <> OutOfFuel /\
     identity_of (App.store (app w') !!! 1%positive)
     = (0, 4, 3, 10, 20, ScreenConfig.generate_color 0)) /\
  apply_reference decimal_int zero_reference = (Val tt, zero_reference) /\
  (exists r w',
     apply_reference decimal_int edited_reference = (r, w') /\
     r <> OutOfFuel /\
     GlobalConfigWidget.ref_width (App.global_config (app w')) = 1920 /\
     GlobalConfigWidget.ref_height (App.global_config (app w')) = 1080).
Proof.
  destruct (edits_are_atomic decimal_int) as (Hrej & Hacc & Hrej' & Hacc').
  split; [|split; [|split]].
  - apply Hrej. do 5 right. exists 0. split; [reflexivity | lia].
  - destruct (Hacc edited_widget four_screens)
      as (rw & rh & x & y & r & w' & Hrw & Hrh & Hx & Hy & Hrun & Hr & Hid).
    + intros [H|[H|[H|[H|[(n & H & Hn)|(n & H & Hn)]]]]];
        vm_compute in H; try discriminate; injection H as <-; lia.
    + vm_compute in Hrw, Hrh, Hx, Hy.
      injection Hrw as <-. injection Hrh as <-. injection Hx as <-. injection Hy as <-.
      exists r, w'. split; [exact Hrun|]. split; [exact Hr|].
      cbv zeta in Hid.
      change (ScreenConfigWidget.screen_config edited_widget) with 1%positive in Hid.
      etrans; [exact Hid|]. vm_compute. reflexivity.
  - apply Hrej'. do 2 right. left. exists 0. split; [reflexivity | lia].
  - destruct (Hacc' edited_reference) as (nw & nh & r & w' & Hnw & Hnh & Hrun & Hr & Hg).
    + intros [H|[H|[(n & H & Hn)|(n & H & Hn)]]];
        vm_compute in H; try discriminate; injection H as <-; lia.
    + vm_compute in Hnw, Hnh. injection Hnw as <-. injection Hnh as <-.
      exists r, w'. split; [exact Hrun|]. split; [exact Hr|].
      rewrite Hg. split; reflexivity.
Defined.

(** C10.  On a disk with fewer paths than the fuel given,
    [get_unique_filename] returns, and leaves the world as it was.  The path
    returned is free; it is [base_path] when that is free, and otherwise
    [name_k ext] for the least [k >= 2] whose path is free, [(name, ext)]
    being [splitext(base_path)]. *)
Theorem get_unique_filename_first_free :
  forall fuel base_path w,
    (size (disk w) < fuel)%nat ->
    exists p,
      get_unique_filename fuel base_path w = (Val p, w) /\
      disk w !! p = None /\
      (disk w !! base_path = None -> p = base_path) /\
      (is_Some (disk w !! base_path) ->
       exists k,
         2 <= k /\
         p = fst (Path.splitext base_path) +:+ "_" +:+ pretty k
             +:+ snd (Path.splitext base_path) /\
         forall j, 2 <= j < k ->
           is_Some (disk w !! (fst (Path.splitext base_path) +:+ "_" +:+ pretty j
                               +:+ snd (Path.splitext base_path)))).
Proof.
  intros fuel base_path w Hfuel.
  destruct (get_unique_filename_run fuel base_path w Hfuel) as (p & Hrun & Hfree).
  exists p. split; [exact Hrun | exact Hfree].
Qed.

Lemma third_name_when_two_are_taken :
  exists p,
    get_unique_filename 3 "/out/a.png" two_names_taken = (Val p, two_names_taken) /\
    disk two_names_taken !! p = None.
Proof.
  destruct (get_unique_filename_first_free 3 "/out/a.png" two_names_taken)
    as (p & Hrun & Hfree & _).
  - vm_compute. lia.
  - exists p. split; [exact Hrun | exact Hfree].
Defined.

Example third_name_is_a_3 :
  get_unique_filename 3 "/out/a.png" two_names_taken
  = (Val "/out/a_3.png", two_names_taken).
Proof. vm_compute. reflexivity. Qed.

Section ExportClaims.

Variable crop : Image.t -> Z * Z * Z * Z -> exn + Image.t.
Variable save : gmap string node -> Image.t -> string -> save_outcome.


(** C8.  The export leaves the application object as it was: the image, the
    screen list and every attribute of every [ScreenConfig] in the store. *)
Theorem extract_all_leaves_the_application :
  forall fuel output_folder w,
    app (snd (extract_all crop save fuel output_folder w)) = app w.
Proof. intros. apply extract_all_frame. Qed.

(** C5 (as amended).  With an image loaded and fuel for the disk, a turn of
    the export loop always ends in a recorded outcome and leaves the
    application as it was.  A screen outside the bounds gets the error
    [Screen n exceeds image boundaries] and nothing else happens.  A screen
    is saved exactly when it is within the bounds and neither the crop nor
    the save raises; then the disk gains the crop at the path chosen.  A
    screen within the bounds whose crop raises [e] gets the error
    [Error screen n: e] and nothing else happens; one whose save raises [e]
    gets the error [Error screen n: e], and the disk holds what the save
    left behind at the path chosen, or is as it was.  The export gives every
    screen its turn, from the world the turn before left, and reports the
    count of the screens saved with the errors of the others, in order.
    Taking a screen that lies outside the bounds out of the list changes
    neither the count of the screens saved nor the files written. *)
Theorem export_screen_by_screen :
  (forall fuel output_folder screen w image image_path,
     App.image (app w) = Some image ->
     App.image_path (app w) = Some image_path ->
     (size (disk w) < fuel)%nat ->
     let s := App.store (app w) !!! screen in
     let inside := in_bounds s (fst (Image.size image)) (snd (Image.size image)) in
     let base_path :=
       Path.join output_folder (screen_stem s +:+ snd (Path.splitext image_path)) in
     exists out w',
       extract_step crop save fuel output_folder screen w = (Val out, w') /\
       app w' = app w /\
       (~ inside -> out = Failed (boundary_msg s) /\ w' = w) /\
       ((exists p, out = Extracted p) <->
        inside /\
        exists cropped p,
          crop image (ScreenConfig.get_box s) = inr cropped /\
          get_unique_filename fuel base_path w = (Val p, w) /\
          save (disk w) cropped p = Saved) /\
       (forall p, out = Extracted p ->
          exists cropped,
            crop image (ScreenConfig.get_box s) = inr cropped /\
            disk w' = <[p := Raster cropped]> (disk w)) /\
       (exists p,
          get_unique_filename fuel base_path w = (Val p, w) /\ disk w !! p = None) /\
       (forall e,
          inside ->
          crop image (ScreenConfig.get_box s) = inl e ->
          out = Failed (error_msg_of s e) /\ w' = w) /\
       (forall cropped p e left_behind,
          inside ->
          crop image (ScreenConfig.get_box s) = inr cropped ->
          get_unique_filename fuel base_path w = (Val p, w) ->
          save (disk w) cropped p = SaveRaised e left_behind ->
          out = Failed (error_msg_of s e) /\
          disk w' = match left_behind with
                    | Some n => <[p := n]> (disk w)
                    | None => disk w
                    end)) /\
  (forall fuel output_folder w image image_path,
     App.image (app w) = Some image ->
     App.image_path (app w) = Some image_path ->
     App.screens (app w) <> [] ->
     output_folder <> "" ->
     (size (disk w) + length (App.screens (app w)) < fuel)%nat ->
     exists outs w',
       exports (extract_step crop save fuel output_folder)
         (App.screens (app w)) w outs w' /\
       length outs = length (App.screens (app w)) /\
       extract_all crop save fuel output_folder w
       = (Val (Some (mkResult (count_extracted outs) (failures outs))), w')) /\
  (forall fuel output_folder l1 screen l2 w image,
     App.image (app w) = Some image ->
     ~ in_bounds (App.store (app w) !!! screen) (fst (Image.size image))
         (snd (Image.size image)) ->
     saved_of (extract_loop crop save fuel output_folder (l1 ++ screen :: l2) 0 [] w)
     = saved_of (extract_loop crop save fuel output_folder (l1 ++ l2) 0 [] w)).
Proof.
  split; [|split].
  - intros fuel output_folder screen w image image_path Him Hpath Hfuel s inside
      base_path.
    destruct (extract_step_outcome crop save fuel output_folder screen w image
                image_path Him Hpath Hfuel)
      as (out & w' & p & Hrun & Happ & Hp & (Hfree & _) & Hcase).
    fold s base_path in Hp, Hcase.
    exists out, w'. split; [exact Hrun|]. split; [exact Happ|].
    pose proof (exceeds_false s (fst (Image.size image)) (snd (Image.size image)))
      as Hb. fold inside in Hb.
    assert (exists p, get_unique_filename fuel base_path w = (Val p, w) /\
                      disk w !! p = None) as Hchosen by eauto.
    destruct (exceeds s _ _).
    { destruct Hcase as [-> ->].
      assert (~ inside) as Hout by (intros Hin; apply Hb in Hin; discriminate).
      split; [auto|]. split; [|split; [|split; [exact Hchosen | split]]].
      - split; [intros [q [=]] | intros [Hin _]; contradiction].
      - intros q [=].
      - intros e Hin. contradiction.
      - intros c q e l Hin. contradiction. }
    assert (inside) as Hin by (apply Hb; reflexivity).
    split; [intros Hout; contradiction|].
    destruct (crop image (ScreenConfig.get_box s)) as [e|cropped].
    { destruct Hcase as [-> ->]. split; [|split; [|split; [exact Hchosen | split]]].
      - split; [intros [q [=]] | intros (_ & c & q & [=] & _)].
      - intros q [=].
      - intros e' _ [= <-]. split; reflexivity.
      - intros c q e' l _ [=]. }
    destruct (save (disk w) cropped p) as [|e [n|]] eqn:Hsave.
    + destruct Hcase as [-> Hd]. split; [|split; [|split; [exact Hchosen | split]]].
      * split; [intros _; split; [exact Hin|]; exists cropped, p; auto | eauto].
      * intros q [= <-]. eauto.
      * intros e' _ [=].
      * intros c q e' l _ [= <-] Hq Hs. rewrite Hp in Hq. injection Hq as <-.
        congruence.
    + destruct Hcase as [-> Hd]. split; [|split; [|split; [exact Hchosen | split]]].
      * split; [intros [q [=]]|].
        intros (_ & c & q & [= <-] & Hq & Hs). rewrite Hp in Hq.
        injection Hq as <-. congruence.
      * intros q [=].
      * intros e' _ [=].
      * intros c q e' l _ [= <-] Hq Hs. rewrite Hp in Hq. injection Hq as <-.
        rewrite Hsave in Hs. injection Hs as <- <-. split; [reflexivity | exact Hd].
    + destruct Hcase as [-> Hd]. split; [|split; [|split; [exact Hchosen | split]]].
      * split; [intros [q [=]]|].
        intros (_ & c & q & [= <-] & Hq & Hs). rewrite Hp in Hq.
        injection Hq as <-. congruence.
      * intros q [=].
      * intros e' _ [=].
      * intros c q e' l _ [= <-] Hq Hs. rewrite Hp in Hq. injection Hq as <-.
        rewrite Hsave in Hs. injection Hs as <- <-. split; [reflexivity|].
        rewrite Hd. reflexivity.
  - intros fuel output_folder w image image_path Him Hpath Hscreens Hfolder Hfuel.
    destruct (extract_loop_exports crop save fuel output_folder (App.screens (app w))
                0 [] w image image_path Him Hpath Hfuel) as (outs & w' & Hexp & Hrun).
    exists outs, w'. split; [exact Hexp|]. split.
    { clear -Hexp. induction Hexp; cbn; congruence. }
    unfold extract_all. cbv beta iota zeta delta [bind get_app ret].
    rewrite Him.
    destruct (App.screens (app w)) as [|r l] eqn:Hl; [contradiction|].
    cbn [length Nat.eqb].
    destruct (String.eqb output_folder "") eqn:Hf;
      [apply String.eqb_eq in Hf; contradiction|].
    rewrite Hrun. reflexivity.
  - intros fuel output_folder l1 screen l2 w image Him Hout.
    apply (extract_loop_skips_outside crop save fuel output_folder screen image);
      [exact Him|].
    destruct (exceeds _ _ _) eqn:Hex; [reflexivity|].
    apply exceeds_false in Hex. contradiction.
Qed.

End ExportClaims.

(** ** The export on the worked states *)

Example export_of_two_screens :
  extract_all crop_pixels save_by_extension 5 "/out" (export_world "/pics/wall.png")
  = (Val (Some (mkResult 1 ["Screen 2 exceeds image boundaries"])),
     mkWorld (app (export_world "/pics/wall.png"))
       (<["/out/wallpaper_screen_16-9_2.png" := Raster (Image.mk (2, 2) [[6; 7]; [10; 11]])]>
          (disk (export_world "/pics/wall.png")))).
Proof. vm_compute. reflexivity. Qed.


Lemma export_of_two_screens_reports :
  (exists out w',
     extract_step crop_pixels save_by_extension 5 "/out" 2%positive
       (export_world "/pics/wall.png") = (Val out, w') /\
     out = Failed (boundary_msg (small_screen 1 3 2)) /\
     w' = export_world "/pics/wall.png") /\
  (exists out w',
     extract_step crop_pixels save_by_extension 5 "/out" 1%positive
       (export_world "/pics/wall") = (Val out, w') /\
     out = Failed (error_msg_of (small_screen 0 1 1)
                     (ValueError "unknown file extension: ")) /\
     disk w' = disk (export_world "/pics/wall")) /\
  (exists outs w',
     length outs = 2%nat /\
     extract_all crop_pixels save_by_extension 5 "/out" (export_world "/pics/wall.png")
     = (Val (Some (mkResult (count_extracted outs) (failures outs))), w')) /\
  saved_of (extract_loop crop_pixels save_by_extension 5 "/out"
              ([1%positive] ++ 2%positive :: []) 0 [] (export_world "/pics/wall.png"))
  = saved_of (extract_loop crop_pixels save_by_extension 5 "/out"
                ([1%positive] ++ []) 0 [] (export_world "/pics/wall.png")).
Proof.
  destruct (export_screen_by_screen crop_pixels save_by_extension)
    as (Hstep & Hall & Hskip).
  assert (~ in_bounds (App.store (app (export_world "/pics/wall.png")) !!! 2%positive)
            (fst (Image.size small_image)) (snd (Image.size small_image))) as Hout.
  { replace (App.store (app (export_world "/pics/wall.png")) !!! 2%positive)
      with (small_screen 1 3 2) by (vm_compute; reflexivity).
    unfold in_bounds. cbn. lia. }
  split; [|split; [|split]].
  - destruct (Hstep 5%nat "/out" 2%positive (export_world "/pics/wall.png")
                small_image "/pics/wall.png")
      as (out & w' & Hrun & _ & Hoob & _).
    + reflexivity.
    + reflexivity.
    + vm_compute. lia.
    + destruct (Hoob Hout) as [Ho Hw]. exists out, w'.
      split; [exact Hrun|]. split; [|exact Hw].
      rewrite Ho. vm_compute. reflexivity.
  - destruct (Hstep 5%nat "/out" 1%positive (export_world "/pics/wall")
                small_image "/pics/wall")
      as (out & w' & Hrun & _ & _ & _ & _ & _ & _ & Hraised).
    + reflexivity.
    + reflexivity.
    + vm_compute. lia.
    + destruct (Hraised (Image.mk (2, 2) [[6; 7]; [10; 11]]) "/out/wallpaper_screen_16-9"
                  (ValueError "unknown file extension: ") None) as [Ho Hd].
      * replace (App.store (app (export_world "/pics/wall")) !!! 1%positive)
          with (small_screen 0 1 1) by (vm_compute; reflexivity).
        unfold in_bounds. cbn. lia.
      * vm_compute. reflexivity.
      * vm_compute. reflexivity.
      * vm_compute. reflexivity.
      * exists out, w'. split; [exact Hrun|]. split; [|exact Hd].
        rewrite Ho. vm_compute. reflexivity.
  - destruct (Hall 5%nat "/out" (export_world "/pics/wall.png") small_image
                "/pics/wall.png") as (outs & w' & _ & Hlen & Hrun).
    + reflexivity.
    + reflexivity.
    + discriminate.
    + discriminate.
    + vm_compute. lia.
    + exists outs, w'. split; [exact Hlen | exact Hrun].
  - apply (Hskip 5%nat "/out" [1%positive] 2%positive [] (export_world "/pics/wall.png")
             small_image); [reflexivity | exact Hout].
Defined.

(** C5 (as stated) fails.  An image opened from a path without extension
    leaves [save] without a format: the first screen lies within the bounds
    and is not saved; its turn records an error and the disk stays as it
    was. *)
Lemma screen_in_bounds_not_saved :
  in_bounds (App.store (app (export_world "/pics/wall")) !!! 1%positive) 4 3 /\
  extract_step crop_pixels save_by_extension 5 "/out" 1%positive
    (export_world "/pics/wall")
  = (Val (Failed "Error screen 1: unknown file extension: "),
     export_world "/pics/wall").
Proof.
  split.
  - replace (App.store (app (export_world "/pics/wall")) !!! 1%positive)
      with (small_screen 0 1 1) by (vm_compute; reflexivity).
    unfold in_bounds. cbn. lia.
  - vm_compute. reflexivity.
Qed.

(** * Further properties *)

(** ** More on the export *)

(** One turn of the loop asks [crop] for a box within the image only, and
    [save] for a free path only. *)
Lemma extract_step_ext crop1 crop2 save1 save2 fuel output_folder screen w :
  (forall image s,
     in_bounds s (fst (Image.size image)) (snd (Image.size image)) ->
     crop1 image (ScreenConfig.get_box s) = crop2 image (ScreenConfig.get_box s)) ->
  (forall d cropped p, d !! p = None -> save1 d cropped p = save2 d cropped p) ->
  extract_step crop1 save1 fuel output_folder screen w
  = extract_step crop2 save2 fuel output_folder screen w.
Proof.
  intros Hcrop Hsave. unfold extract_step, extract_screen.
  cbv beta iota zeta delta [bind lift ret raise read get_app try_except].
  destruct (App.image (app w)) as [image|]; [|reflexivity].
  destruct (Image.size image) as [img_width img_height] eqn:Hsize.
  destruct (exceeds _ img_width img_height) eqn:Hex; [reflexivity|].
  apply exceeds_false in Hex.
  rewrite (Hcrop image (App.store (app w) !!! screen))
    by (rewrite Hsize; exact Hex).
  destruct (crop2 image _) as [e|cropped]; [reflexivity|].
  destruct (App.image_path (app w)) as [image_path|]; [|reflexivity].
  destruct (get_unique_filename_cases fuel
              (Path.join output_folder
                 (screen_stem (App.store (app w) !!! screen)
                  +:+ snd (Path.splitext image_path))) w)
    as [(p & -> & Hfree & _)|[-> _]]; [|reflexivity].
  unfold save_image.
  cbv beta iota zeta delta [bind lift ret raise read get_disk modify_disk].
  rewrite (Hsave (disk w) cropped p Hfree). reflexivity.
Qed.

Lemma extract_loop_ext crop1 crop2 save1 save2 fuel output_folder l :
  (forall screen w,
     extract_step crop1 save1 fuel output_folder screen w
     = extract_step crop2 save2 fuel output_folder screen w) ->
  forall extracted_count errors w,
    extract_loop crop1 save1 fuel output_folder l extracted_count errors w
    = extract_loop crop2 save2 fuel output_folder l extracted_count errors w.
Proof.
  intros Hstep. induction l as [|screen l IH]; intros cnt errs w; [reflexivity|].
  cbn [extract_loop]. unfold bind. rewrite Hstep.
  destruct (extract_step crop2 save2 fuel output_folder screen w) as [[[m|p]|e|] w1];
    try reflexivity; apply IH.
Qed.

(** X1.  The export asks PIL to crop only boxes that lie within the image,
    and to save only to paths that do not exist: two [crop] that agree on the
    boxes within the image, and two [save] that agree on the free paths, give
    the same export. *)
Theorem export_crops_inside_and_saves_to_free_paths :
  forall crop1 crop2 save1 save2,
    (forall image s,
       in_bounds s (fst (Image.size image)) (snd (Image.size image)) ->
       crop1 image (ScreenConfig.get_box s) = crop2 image (ScreenConfig.get_box s)) ->
    (forall d cropped p, d !! p = None -> save1 d cropped p = save2 d cropped p) ->
    forall fuel output_folder w,
      extract_all crop1 save1 fuel output_folder w
      = extract_all crop2 save2 fuel output_folder w.
Proof.
  intros crop1 crop2 save1 save2 Hcrop Hsave fuel output_folder w.
  unfold extract_all. cbv beta iota zeta delta [bind get_app ret].
  destruct (App.image (app w)); [|reflexivity].
  destruct (length (App.screens (app w)) =? 0)%nat; [reflexivity|].
  destruct (String.eqb output_folder ""); [reflexivity|].
  rewrite (extract_loop_ext crop1 crop2 save1 save2); [reflexivity|].
  intros screen w0. apply extract_step_ext; assumption.
Qed.

Lemma crop_inside_in_bounds image s :
  in_bounds s (fst (Image.size image)) (snd (Image.size image)) ->
  crop_inside image (ScreenConfig.get_box s) = crop_pixels image (ScreenConfig.get_box s).
Proof.
  unfold in_bounds, crop_inside, ScreenConfig.get_box. intros (Hx & Hy & Hw & Hh).
  assert ((0 <=? ScreenConfig.x s) = true) as -> by lia.
  assert ((0 <=? ScreenConfig.y s) = true) as -> by lia.
  assert ((ScreenConfig.x s + ScreenConfig.width s <=? fst (Image.size image)) = true)
    as -> by lia.
  assert ((ScreenConfig.y s + ScreenConfig.height s <=? snd (Image.size image)) = true)
    as -> by lia.
  reflexivity.
Qed.

Lemma save_new_free d cropped p :
  d !! p = None -> save_new d cropped p = save_by_extension d cropped p.
Proof. unfold save_new. intros ->. reflexivity. Qed.

Lemma export_with_checked_crop_and_save :
  extract_all crop_inside save_new 5 "/out" (export_world "/pics/wall.png")
  = extract_all crop_pixels save_by_extension 5 "/out" (export_world "/pics/wall.png").
Proof.
  apply (export_crops_inside_and_saves_to_free_paths
           crop_inside crop_pixels save_new save_by_extension
           crop_inside_in_bounds save_new_free).
Defined.

(** The loop never lets an exception out. *)
Lemma extract_loop_never_raises crop save fuel output_folder l :
  forall extracted_count errors w e,
    fst (extract_loop crop save fuel output_folder l extracted_count errors w) <> Exc e.
Proof.
  induction l as [|screen l IH]; intros cnt errs w e; [discriminate|].
  cbn [extract_loop]. unfold bind.
  pose proof (extract_step_frame crop save fuel output_folder screen w) as (_ & _ & Hexc).
  destruct (extract_step crop save fuel output_folder screen w) as [[[m|p]|e'|] w1];
    cbn [fst] in *; [apply IH | apply IH | exfalso; eapply Hexc; reflexivity | discriminate].
Qed.

(** X2.  [extract_all] lets no exception out, whatever PIL raises and
    whatever the state of the application; and it returns without a result
    exactly when there is no image, no screen, or no folder was chosen, the
    world being then as it was. *)
Theorem extract_all_never_raises :
  forall crop save fuel output_folder w,
    (forall e, fst (extract_all crop save fuel output_folder w) <> Exc e) /\
    (App.image (app w) = None \/ App.screens (app w) = [] \/ output_folder = "" ->
     extract_all crop save fuel output_folder w = (Val None, w)) /\
    (fst (extract_all crop save fuel output_folder w) = Val None ->
     App.image (app w) = None \/ App.screens (app w) = [] \/ output_folder = "").
Proof.
  intros crop save fuel output_folder w.
  unfold extract_all. cbv beta iota zeta delta [bind get_app ret].
  destruct (App.image (app w)) as [image|].
  2:{ split; [discriminate|]. split; [reflexivity | auto]. }
  destruct (App.screens (app w)) as [|screen l] eqn:Hl.
  { split; [discriminate|]. split; [reflexivity | auto]. }
  change (length (screen :: l) =? 0)%nat with false. cbv iota.
  destruct (String.eqb output_folder "") eqn:Hf.
  { apply String.eqb_eq in Hf. split; [discriminate|]. split; [reflexivity | auto]. }
  apply String.eqb_neq in Hf.
  pose proof (extract_loop_never_raises crop save fuel output_folder (screen :: l) 0 [] w)
    as Hexc.
  destruct (extract_loop crop save fuel output_folder (screen :: l) 0 [] w)
    as [[r|e|] w1]; cbn [fst] in *.
  - split; [discriminate|]. split; [|discriminate].
    intros [H|[H|H]]; [discriminate | discriminate | contradiction].
  - exfalso. eapply Hexc. reflexivity.
  - split; [discriminate|]. split; [|discriminate].
    intros [H|[H|H]]; [discriminate | discriminate | contradiction].
Qed.

Lemma export_without_an_image_does_nothing :
  extract_all crop_pixels save_by_extension 5 "/out" picture_world
  = (Val None, picture_world).
Proof.
  apply (proj1 (proj2 (extract_all_never_raises crop_pixels save_by_extension 5 "/out"
                         picture_world))).
  left. reflexivity.
Defined.

(** Every screen is counted once: as extracted, or with one error. *)
Lemma extract_loop_accounts crop save fuel output_folder l :
  forall cnt errs w r w',
    extract_loop crop save fuel output_folder l cnt errs w = (Val r, w') ->
    extracted_count r + Z.of_nat (length (errors r))
    = cnt + Z.of_nat (length errs) + Z.of_nat (length l) /\
    cnt <= extracted_count r.
Proof.
  induction l as [|screen l IH]; intros cnt errs w r w'.
  - cbn. intros [= <- <-]. cbn. lia.
  - cbn [extract_loop]. unfold bind.
    destruct (extract_step crop save fuel output_folder screen w) as [[[m|p]|e|] w1];
      try discriminate; intros Hrun; apply IH in Hrun; cbn [length] in *;
      rewrite ?length_app in Hrun; cbn [length] in Hrun; lia.
Qed.

(** X3.  With an image loaded, a folder chosen and fuel for the disk, the
    export returns a result in which every screen is counted once: the count
    of the screens extracted and the number of errors add up to the number of
    screens. *)
Theorem extract_all_counts_every_screen :
  forall crop save fuel output_folder w image image_path,
    App.image (app w) = Some image ->
    App.image_path (app w) = Some image_path ->
    App.screens (app w) <> [] ->
    output_folder <> "" ->
    (size (disk w) + length (App.screens (app w)) < fuel)%nat ->
    exists r w',
      extract_all crop save fuel output_folder w = (Val (Some r), w') /\
      0 <= extracted_count r /\
      extracted_count r + Z.of_nat (length (errors r))
      = Z.of_nat (length (App.screens (app w))).
Proof.
  intros crop save fuel output_folder w image image_path Him Hpath Hscreens Hfolder Hfuel.
  destruct (extract_loop_exports crop save fuel output_folder (App.screens (app w))
              0 [] w image image_path Him Hpath Hfuel) as (outs & w' & _ & Hrun).
  destruct (extract_loop_accounts crop save fuel output_folder _ _ _ _ _ _ Hrun)
    as [Hsum Hpos].
  eexists _, w'. split; [|split; [exact Hpos|cbn [length] in Hsum; lia]].
  unfold extract_all. cbv beta iota zeta delta [bind get_app ret].
  rewrite Him.
  destruct (App.screens (app w)) as [|s l] eqn:Hl; [contradiction|].
  cbn [length Nat.eqb].
  destruct (String.eqb output_folder "") eqn:Hf;
    [apply String.eqb_eq in Hf; contradiction|].
  rewrite Hrun. reflexivity.
Qed.

Lemma export_of_two_screens_counts_both :
  exists r w',
    extract_all crop_pixels save_by_extension 5 "/out" (export_world "/pics/wall.png")
    = (Val (Some r), w') /\
    0 <= extracted_count r /\
    extracted_count r + Z.of_nat (length (errors r)) = 2.
Proof.
  apply (extract_all_counts_every_screen crop_pixels save_by_extension 5 "/out"
           (export_world "/pics/wall.png") small_image "/pics/wall.png");
    [reflexivity | reflexivity | discriminate | discriminate | vm_compute; lia].
Defined.

(** A turn that ends in a file: the path was free, the crop succeeded, and
    the disk gained the crop at that path. *)
Lemma extract_step_extracted crop save fuel output_folder screen w image image_path p w' :
  App.image (app w) = Some image ->
  App.image_path (app w) = Some image_path ->
  extract_step crop save fuel output_folder screen w = (Val (Extracted p), w') ->
  disk w !! p = None /\
  exists cropped,
    crop image (ScreenConfig.get_box (App.store (app w) !!! screen)) = inr cropped /\
    disk w' = <[p := Raster cropped]> (disk w).
Proof.
  intros Him Hpath Hstep.
  pose proof (extract_step_run crop save fuel output_folder screen w image
                image_path Him Hpath) as Hrun.
  cbv zeta in Hrun. rewrite Hstep in Hrun.
  destruct (exceeds _ _ _); [discriminate Hrun|].
  destruct (crop image _) as [e|cropped]; [discriminate Hrun|].
  destruct (get_unique_filename_cases fuel
              (Path.join output_folder
                 (screen_stem (App.store (app w) !!! screen)
                  +:+ snd (Path.splitext image_path))) w)
    as [(p0 & Hp0 & Hfree & _)|[Hp0 _]];
    rewrite Hp0 in Hrun; cbn [fst] in Hrun; [|discriminate Hrun].
  destruct (save (disk w) cropped p0) as [|e [n|]]; try discriminate Hrun.
  injection Hrun as -> ->.
  split; [exact Hfree|]. exists cropped. split; reflexivity.
Qed.

(** A run of the loop: the files it reports are distinct, were not there
    before, and hold the crops when the run ends. *)
Lemma exports_hold_crops crop save fuel output_folder image image_path l w outs w' :
  exports (extract_step crop save fuel output_folder) l w outs w' ->
  App.image (app w) = Some image ->
  App.image_path (app w) = Some image_path ->
  app w' = app w /\
  disk w ⊆ disk w' /\
  NoDup (saved_paths outs) /\
  (forall p, p ∈ saved_paths outs -> disk w !! p = None) /\
  Forall2 (holds_crop crop image w w') l outs.
Proof.
  induction 1 as [w|screen l w out w1 outs w2 Hstep Hexp IH]; intros Him Hpath.
  - split; [reflexivity|]. split; [reflexivity|]. split; [constructor|].
    split; [|constructor]. intros p Hp. apply elem_of_nil in Hp. contradiction.
  - pose proof (extract_step_frame crop save fuel output_folder screen w)
      as (Happ & Hsub & _).
    rewrite Hstep in Happ, Hsub. cbn [snd] in Happ, Hsub.
    destruct IH as (Happ' & Hsub' & Hnd & Hfree & Hall); [congruence | congruence|].
    assert (Forall2 (holds_crop crop image w w2) l outs) as Hall'.
    { eapply Forall2_impl; [exact Hall|]. intros r [m|p]; [auto|].
      cbn [holds_crop]. rewrite Happ. intros [Hp Hc]. split; [|exact Hc].
      eapply lookup_weaken_None; eassumption. }
    split; [congruence|]. split; [etrans; eassumption|].
    destruct out as [m|p]; cbn [saved_paths].
    + split; [exact Hnd|]. split; [|constructor; [exact I | exact Hall']].
      intros p Hp. eapply lookup_weaken_None; [apply Hfree, Hp | exact Hsub].
    + destruct (extract_step_extracted crop save fuel output_folder screen w image
                  image_path p w1 Him Hpath Hstep) as (Hp & cropped & Hcrop & Hdisk).
      assert (disk w1 !! p = Some (Raster cropped)) as Hp1
        by (rewrite Hdisk; apply lookup_insert_eq).
      split; [|split].
      * apply NoDup_cons. split; [|exact Hnd].
        intros Hin. apply Hfree in Hin. congruence.
      * intros q Hq. apply elem_of_cons in Hq as [->|Hq]; [exact Hp|].
        eapply lookup_weaken_None; [apply Hfree, Hq | exact Hsub].
      * constructor; [|exact Hall'].
        split; [exact Hp|]. exists cropped. split; [exact Hcrop|].
        eapply lookup_weaken; eassumption.
Qed.

(** X4.  With an image loaded, a folder chosen and fuel for the disk, the
    files the export reports are pairwise distinct, none of them existed
    before, and when the export ends each of them holds the crop of its
    screen: no screen of one export overwrites the file of another. *)
Theorem exported_files_hold_the_crops :
  forall crop save fuel output_folder w image image_path,
    App.image (app w) = Some image ->
    App.image_path (app w) = Some image_path ->
    App.screens (app w) <> [] ->
    output_folder <> "" ->
    (size (disk w) + length (App.screens (app w)) < fuel)%nat ->
    exists outs w',
      extract_all crop save fuel output_folder w
      = (Val (Some (mkResult (count_extracted outs) (failures outs))), w') /\
      NoDup (saved_paths outs) /\
      Forall2 (holds_crop crop image w w') (App.screens (app w)) outs.
Proof.
  intros crop save fuel output_folder w image image_path Him Hpath Hscreens Hfolder Hfuel.
  destruct (extract_loop_exports crop save fuel output_folder (App.screens (app w))
              0 [] w image image_path Him Hpath Hfuel) as (outs & w' & Hexp & Hrun).
  destruct (exports_hold_crops crop save fuel output_folder image image_path _ _ _ _
              Hexp Him Hpath) as (_ & _ & Hnd & _ & Hall).
  exists outs, w'. split; [|split; [exact Hnd | exact Hall]].
  unfold extract_all. cbv beta iota zeta delta [bind get_app ret].
  rewrite Him.
  destruct (App.screens (app w)) as [|s l] eqn:Hl; [contradiction|].
  cbn [length Nat.eqb].
  destruct (String.eqb output_folder "") eqn:Hf;
    [apply String.eqb_eq in Hf; contradiction|].
  rewrite Hrun. reflexivity.
Qed.

Lemma two_screens_of_one_ratio_get_two_files :
  exists outs w',
    extract_all crop_pixels save_by_extension 5 "/out" (twin_world "/pics/wall.png")
    = (Val (Some (mkResult (count_extracted outs) (failures outs))), w') /\
    NoDup (saved_paths outs) /\
    Forall2 (holds_crop crop_pixels small_image (twin_world "/pics/wall.png") w')
      [1%positive; 2%positive] outs.
Proof.
  apply (exported_files_hold_the_crops crop_pixels save_by_extension 5 "/out"
           (twin_world "/pics/wall.png") small_image "/pics/wall.png");
    [reflexivity | reflexivity | discriminate | discriminate | vm_compute; lia].
Defined.

Example two_screens_of_one_ratio :
  extract_all crop_pixels save_by_extension 5 "/out" (twin_world "/pics/wall.png")
  = (Val (Some (mkResult 2 [])),
     mkWorld (app (twin_world "/pics/wall.png"))
       (<["/out/wallpaper_screen_16-9_2.png" := Raster (Image.mk (2, 2) [[7; 8]; [11; 12]])]>
          (<["/out/wallpaper_screen_16-9.png" := Raster (Image.mk (2, 2) [[1; 2]; [5; 6]])]>
             ∅))).
Proof. vm_compute. reflexivity. Qed.

(** ** Recomputing the resolutions *)

Lemma set_store_set_store m1 m2 a :
  App.set_store m2 (App.set_store m1 a) = App.set_store m2 a.
Proof. reflexivity. Qed.

Lemma world_eta w : w = mkWorld (App.set_store (App.store (app w)) (app w)) (disk w).
Proof. destruct w as [[] ?]. reflexivity. Qed.

(** The loop of [recalculate_all_resolutions]: when it returns, it has
    changed the store and nothing else, kept every ratio, and every screen of
    the list holds its resolution; it raises what the algorithm raises for a
    screen of the list. *)
Lemma calculate_loop_run ref_width ref_height scale_percent (l : list ref) :
  forall w,
    match for_each l (fun screen =>
            calculate_resolution screen ref_width ref_height scale_percent) w with
    | (Val _, w') =>
        (exists m', w' = mkWorld (App.set_store m' (app w)) (disk w)) /\
        (forall r,
           ScreenConfig.ratio_w (App.store (app w') !!! r)
           = ScreenConfig.ratio_w (App.store (app w) !!! r) /\
           ScreenConfig.ratio_h (App.store (app w') !!! r)
           = ScreenConfig.ratio_h (App.store (app w) !!! r)) /\
        (forall r,
           resolved ref_width ref_height scale_percent (App.store (app w) !!! r) ->
           resolved ref_width ref_height scale_percent (App.store (app w') !!! r)) /\
        (forall r, r ∈ l ->
           resolved ref_width ref_height scale_percent (App.store (app w') !!! r))
    | (Exc e, _) =>
        exists r,
          r ∈ l /\
          resolution_from_scaled_side
            (ScreenConfig.ratio_w (App.store (app w) !!! r))
            (ScreenConfig.ratio_h (App.store (app w) !!! r))
            ref_width ref_height scale_percent = inl e
    | (OutOfFuel, _) => False
    end.
Proof.
  induction l as [|v l IH]; intros w.
  - cbn [for_each ret]. split; [exists (App.store (app w)); apply world_eta|].
    split; [auto|]. split; [auto|]. intros r Hr. apply elem_of_nil in Hr. contradiction.
  - cbn [for_each].
    pose proof (calculate_resolution_run v ref_width ref_height scale_percent w) as Hv.
    cbv zeta in Hv.
    destruct (resolution_from_scaled_side _ _ _ _ _) as [e|[width height]] eqn:Hres.
    + unfold bind.
      destruct (calculate_resolution v ref_width ref_height scale_percent w)
        as [[a|e'|] w1]; cbn [fst] in Hv; try discriminate.
      injection Hv as ->. exists v. split; [left | exact Hres].
    + rewrite (bind_val _ _ _ _ _ Hv).
      set (w1 := with_resolution w v width height).
      assert (forall r,
                ScreenConfig.ratio_w (App.store (app w1) !!! r)
                = ScreenConfig.ratio_w (App.store (app w) !!! r) /\
                ScreenConfig.ratio_h (App.store (app w1) !!! r)
                = ScreenConfig.ratio_h (App.store (app w) !!! r)) as Hratio.
      { intros r. unfold w1, with_resolution. cbn [app App.store App.set_store].
        destruct (decide (r = v)) as [->|Hne].
        - rewrite lookup_total_insert_eq. split; reflexivity.
        - rewrite lookup_total_insert_ne by congruence. split; reflexivity. }
      assert (resolved ref_width ref_height scale_percent (App.store (app w1) !!! v))
        as Hdone.
      { unfold resolved. destruct (Hratio v) as [-> ->]. rewrite Hres.
        unfold w1, with_resolution. cbn [app App.store App.set_store].
        rewrite lookup_total_insert_eq. reflexivity. }
      assert (forall r,
                resolved ref_width ref_height scale_percent (App.store (app w) !!! r) ->
                resolved ref_width ref_height scale_percent (App.store (app w1) !!! r))
        as Hkeep.
      { intros r Hr. destruct (decide (r = v)) as [->|Hne]; [exact Hdone|].
        unfold w1, with_resolution. cbn [app App.store App.set_store].
        rewrite lookup_total_insert_ne by congruence. exact Hr. }
      specialize (IH w1).
      destruct (for_each l _ w1) as [[[]|e|] w2].
      * destruct IH as ((m' & ->) & Hratio' & Hkeep' & Hall).
        split; [|split; [|split]].
        -- exists m'. unfold w1, with_resolution. cbn [app disk].
           rewrite set_store_set_store. reflexivity.
        -- intros r. destruct (Hratio' r) as [-> ->]. apply Hratio.
        -- intros r Hr. apply Hkeep', Hkeep, Hr.
        -- intros r Hr. apply elem_of_cons in Hr as [->|Hr].
           ++ apply Hkeep', Hdone.
           ++ apply Hall, Hr.
      * destruct IH as (r & Hr & He). exists r. split; [right; exact Hr|].
        destruct (Hratio r) as [<- <-]. exact He.
      * exact IH.
Qed.

(** Drawing changes the canvas and nothing else. *)
Lemma draw_rectangles_canvas_only w :
  exists c, snd (draw_rectangles w) = mkWorld (App.set_canvas c (app w)) (disk w).
Proof.
  assert (wp draw_rectangles
            (fun r w' => (exists c, w' = mkWorld (App.set_canvas c (app w)) (disk w))
                         /\ r <> OutOfFuel) w) as [H _]; [|exact H].
  assert (exists c, w = mkWorld (App.set_canvas c (app w)) (disk w)) as Hw
    by (exists (App.canvas (app w)); destruct w as [[] ?]; reflexivity).
  unfold draw_rectangles. apply wp_get_app.
  destruct (App.x_offset (app w)) as [x_offset|]; [|split; [exact Hw | discriminate]].
  destruct (App.y_offset (app w)) as [y_offset|]; [|split; [exact Hw | discriminate]].
  apply (wp_for_each
           (fun w' => exists c, w' = mkWorld (App.set_canvas c (app w)) (disk w)));
    [exact Hw|].
  intros screen w1 _ Hw1. apply wp_read, wp_lift.
  destruct (project _ _ _ _) as [e|box]; [split; [exact Hw1 | discriminate]|].
  split; [|discriminate]. destruct Hw1 as [c ->]. cbn [modify_app snd app disk].
  eexists. reflexivity.
Qed.

Lemma update_preview_rectangles_canvas_only w :
  exists c,
    snd (update_preview_rectangles w) = mkWorld (App.set_canvas c (app w)) (disk w).
Proof.
  assert (exists c, w = mkWorld (App.set_canvas c (app w)) (disk w)) as Hw
    by (exists (App.canvas (app w)); destruct w as [[] ?]; reflexivity).
  unfold update_preview_rectangles. cbv beta iota zeta delta [bind get_app ret].
  destruct (App.image (app w)); [|exact Hw].
  destruct (App.background_image (app w)); [|exact Hw].
  cbn [modify_app].
  destruct (draw_rectangles_canvas_only (mkWorld (App.set_canvas [] (app w)) (disk w)))
    as [c Hc].
  destruct (draw_rectangles _) as [[[]|e|] w']; cbn [snd] in Hc; subst w';
    exists c; reflexivity.
Qed.

(** [recalculate_all_resolutions], outcome by outcome. *)
Lemma recalculate_all_resolutions_run w :
  same_settings w (snd (recalculate_all_resolutions w)) /\
  fst (recalculate_all_resolutions w) <> OutOfFuel /\
  (fst (recalculate_all_resolutions w) = Val tt ->
   (exists m' c',
      snd (recalculate_all_resolutions w)
      = mkWorld (App.set_canvas c' (App.set_store m' (app w))) (disk w)) /\
   forall r, r ∈ App.screens (app w) ->
     up_to_date (app (snd (recalculate_all_resolutions w))) r) /\
  (forall r e,
     r ∈ App.screens (app w) ->
     resolution_from_scaled_side
       (ScreenConfig.ratio_w (App.store (app w) !!! r))
       (ScreenConfig.ratio_h (App.store (app w) !!! r))
       (GlobalConfigWidget.ref_width (App.global_config (app w)))
       (GlobalConfigWidget.ref_height (App.global_config (app w)))
       (GlobalConfigWidget.scale_percent (App.global_config (app w))) = inl e ->
     exists e', fst (recalculate_all_resolutions w) = Exc e').
Proof.
  pose proof (recalculate_all_resolutions_same_settings w) as Hs. unfold wp in Hs.
  destruct Hs as [Hs Hfuel]. split; [exact Hs|]. split; [exact Hfuel|].
  revert Hs Hfuel. unfold recalculate_all_resolutions.
  cbv beta iota zeta delta [bind get_app].
  set (g := App.global_config (app w)).
  pose proof (calculate_loop_run (GlobalConfigWidget.ref_width g)
                (GlobalConfigWidget.ref_height g) (GlobalConfigWidget.scale_percent g)
                (App.screens (app w)) w) as Hloop.
  destruct (for_each _ _ w) as [[[]|e|] w1].
  - destruct Hloop as ((m' & ->) & Hratio & _ & Hall).
    destruct (update_preview_rectangles_canvas_only
                (mkWorld (App.set_store m' (app w)) (disk w))) as [c' Hc].
    cbn [app disk] in Hc.
    destruct (update_preview_rectangles _) as [res w2]. cbn [fst snd] in *. subst w2.
    intros _ _. split.
    + intros _. split; [exists m', c'; reflexivity|].
      intros r Hr. specialize (Hall r Hr). unfold up_to_date.
      cbn [app App.store App.global_config App.set_canvas App.set_store] in *.
      exact Hall.
    + intros r e Hr He. exfalso. specialize (Hall r Hr). unfold resolved in Hall.
      destruct (Hratio r) as [E1 E2]. rewrite E1, E2 in Hall. fold g in He.
      congruence.
  - intros _ _. cbn [fst snd]. split; [discriminate|]. intros; eauto.
  - destruct Hloop.
Qed.

(** X5.  When [recalculate_all_resolutions] returns, every screen of the
    list holds the resolution the algorithm gives for its ratio under the
    global settings, and nothing but resolutions and the canvas has changed;
    when the algorithm raises for a screen of the list, the recalculation
    raises. *)
Theorem recalculation_brings_screens_up_to_date :
  forall w,
    (forall w',
       recalculate_all_resolutions w = (Val tt, w') ->
       same_settings w w' /\
       (exists m' c', w' = mkWorld (App.set_canvas c' (App.set_store m' (app w))) (disk w)) /\
       forall r, r ∈ App.screens (app w) -> up_to_date (app w') r) /\
    (forall r e,
       r ∈ App.screens (app w) ->
       resolution_from_scaled_side
         (ScreenConfig.ratio_w (App.store (app w) !!! r))
         (ScreenConfig.ratio_h (App.store (app w) !!! r))
         (GlobalConfigWidget.ref_width (App.global_config (app w)))
         (GlobalConfigWidget.ref_height (App.global_config (app w)))
         (GlobalConfigWidget.scale_percent (App.global_config (app w))) = inl e ->
       exists e', fst (recalculate_all_resolutions w) = Exc e').
Proof.
  intros w. destruct (recalculate_all_resolutions_run w) as (Hs & _ & Hval & Hexc).
  split; [|exact Hexc].
  intros w' Hrun. rewrite Hrun in Hs, Hval. cbn [fst snd] in Hs, Hval.
  destruct (Hval eq_refl) as [Hframe Hall]. auto.
Qed.

Lemma recalculation_of_four_screens_and_of_a_zero_ratio :
  (exists w',
     recalculate_all_resolutions four_screens = (Val tt, w') /\
     up_to_date (app w') 1%positive) /\
  exists e', fst (recalculate_all_resolutions zero_ratio_world) = Exc e'.
Proof.
  destruct (recalculation_brings_screens_up_to_date four_screens) as [Hval _].
  destruct (recalculation_brings_screens_up_to_date zero_ratio_world) as [_ Hexc].
  split.
  - exists (snd (recalculate_all_resolutions four_screens)).
    assert (recalculate_all_resolutions four_screens
            = (Val tt, snd (recalculate_all_resolutions four_screens))) as Hrun
      by (vm_compute; reflexivity).
    split; [exact Hrun|].
    apply (Hval _ Hrun). vm_compute. left.
  - apply (Hexc 2%positive (ZeroDivisionError "division by zero")).
    + vm_compute. right. left.
    + vm_compute. reflexivity.
Defined.

(** ** Symmetries and signs of the resolution *)

Lemma resolution_reference_exchanged ratio_w ratio_h reference_width reference_height
    scale_percent :
  resolution_from_scaled_side ratio_w ratio_h reference_height reference_width
    scale_percent
  = resolution_from_scaled_side ratio_w ratio_h reference_width reference_height
      scale_percent.
Proof.
  unfold resolution_from_scaled_side, scaled_max_side.
  rewrite (Z.max_comm reference_height reference_width). reflexivity.
Qed.

(** X6.  The resolution depends on the reference through its longer side
    only: exchanging the reference width and height changes nothing.  And
    exchanging the two terms of a ratio that is not square exchanges the width
    and the height computed, for every reference and every scale, an exception
    being raised for the one ratio when it is raised for the other. *)
Theorem resolution_symmetries :
  forall ratio_w ratio_h reference_width reference_height scale_percent,
    compute_resolution ratio_w ratio_h reference_height reference_width scale_percent
    = compute_resolution ratio_w ratio_h reference_width reference_height scale_percent /\
    (ratio_w <> ratio_h ->
     compute_resolution ratio_h ratio_w reference_width reference_height scale_percent
     = match compute_resolution ratio_w ratio_h reference_width reference_height
               scale_percent with
       | Val (width, height) => Val (height, width)
       | Exc e => Exc e
       | OutOfFuel => OutOfFuel
       end).
Proof.
  intros a b rw rh sp. rewrite !compute_resolution_run. split.
  - rewrite resolution_reference_exchanged. reflexivity.
  - intros Hne. destruct (Z.lt_ge_cases b a) as [Hlt|Hge].
    + rewrite (resolution_transposed a b) by exact Hlt.
      destruct (resolution_from_scaled_side a b rw rh sp) as [e|[w h]]; reflexivity.
    + rewrite (resolution_transposed b a rw rh sp) by lia.
      destruct (resolution_from_scaled_side b a rw rh sp) as [e|[w h]]; reflexivity.
Qed.

Lemma resolution_symmetries_at_4_3 :
  compute_resolution 3 4 1920 1080 30
  = match compute_resolution 4 3 1920 1080 30 with
    | Val (width, height) => Val (height, width)
    | Exc e => Exc e
    | OutOfFuel => OutOfFuel
    end.
Proof.
  apply (proj2 (resolution_symmetries 4 3 1920 1080 30)). discriminate.
Defined.

Lemma binary_normalize_any_not_negative n e :
  0 <= n -> not_negative (binary_normalize prec emax n e false).
Proof.
  destruct n as [|p|p]; intros Hn; [exact I| |lia].
  apply binary_round_not_negative.
Qed.

Lemma SFadd_not_negative x y :
  not_negative x -> not_negative y -> not_negative (SFadd prec emax x y).
Proof.
  destruct x as [[]|[]| |[] mx ex], y as [[]|[]| |[] my ey];
    cbn; try tauto.
  intros _ _. apply binary_round_not_negative.
Qed.

Lemma truediv_not_negative a b f :
  0 <= a -> 0 < b -> Py.truediv a b = inr f -> not_negative (Prim2SF f).
Proof.
  intros Ha Hb. unfold Py.truediv.
  assert ((b =? 0) = false) as -> by lia.
  assert ((a <? 0) = false) as -> by lia.
  assert ((b <? 0) = false) as -> by lia.
  cbn [xorb cond_Zopp]. cbv zeta.
  destruct (is_infinity _); [discriminate|]. intros [= <-].
  apply Prim2SF_SF2Prim_not_negative, binary_normalize_any_not_negative.
  assert (0 <= Z.abs a * 2 ^ Z.max 0 (Z.log2 (Z.abs b) - Z.log2 (Z.abs a) + 55)
               / Z.abs b) as Hq.
  { apply Z.div_pos; [|lia]. apply Z.mul_nonneg_nonneg; [lia|].
    apply Z.pow_nonneg. lia. }
  destruct (_ =? 0); lia.
Qed.

Lemma scale_factor_of_not_negative scale_percent f :
  0 <= scale_percent -> scale_factor_of scale_percent = inr f ->
  not_negative (Prim2SF f).
Proof.
  intros Hsp. unfold scale_factor_of.
  destruct (Py.truediv scale_percent 100) as [e|q] eqn:Hq; [discriminate|].
  intros [= <-]. rewrite add_spec, mul_spec.
  apply SFadd_not_negative; [vm_compute; exact I|].
  apply SFmul_not_negative; [|vm_compute; exact I].
  eapply truediv_not_negative; [exact Hsp | | exact Hq]. lia.
Qed.

Lemma round_half_even_not_negative m e : 0 <= m -> 0 <= Py.round_half_even m e.
Proof.
  intros Hm. unfold Py.round_half_even.
  destruct (0 <=? e) eqn:He.
  - apply Z.mul_nonneg_nonneg; [exact Hm|]. apply Z.pow_nonneg. lia.
  - assert (0 < 2 ^ (- e)) as Hpow by (apply Z.pow_pos_nonneg; lia).
    assert (0 <= m / 2 ^ (- e)) as Hq by (apply Z.div_pos; lia).
    destruct (_ ?= _); [destruct (Z.even _)| |]; lia.
Qed.

Lemma round_not_negative f z :
  not_negative (Prim2SF f) -> Py.round f = inr z -> 0 <= z.
Proof.
  unfold Py.round. destruct (Prim2SF f) as [s|s| |s m e]; try discriminate.
  - intros _ [= <-]. lia.
  - destruct s; [intros []|]. intros _ [= <-]. cbn [cond_Zopp].
    apply round_half_even_not_negative. lia.
Qed.

(** X7.  For a ratio of two positive terms, a reference whose longer side is
    not negative and a scale that is not negative, the width and the height
    that [calculate_resolution] assigns are not negative. *)
Theorem resolution_is_not_negative :
  forall self ref_width ref_height scale_percent w w',
    0 < ScreenConfig.ratio_w (App.store (app w) !!! self) ->
    0 < ScreenConfig.ratio_h (App.store (app w) !!! self) ->
    0 <= Z.max ref_width ref_height ->
    0 <= scale_percent ->
    calculate_resolution self ref_width ref_height scale_percent w = (Val tt, w') ->
    0 <= ScreenConfig.width (App.store (app w') !!! self) /\
    0 <= ScreenConfig.height (App.store (app w') !!! self).
Proof.
  intros self rw rh sp w w' Hw Hh Href Hsp Hrun.
  pose proof (calculate_resolution_run self rw rh sp w) as H. cbv zeta in H.
  set (s := App.store (app w) !!! self) in *.
  destruct (resolution_from_scaled_side _ _ rw rh sp) as [e|[width height]] eqn:Hres.
  { rewrite Hrun in H. discriminate H. }
  rewrite Hrun in H. injection H as ->.
  unfold with_resolution. cbn [app App.store App.set_store].
  rewrite lookup_total_insert_eq.
  cbn [ScreenConfig.width ScreenConfig.height ScreenConfig.set_height
       ScreenConfig.set_width].
  revert Hres. unfold resolution_from_scaled_side, scaled_max_side.
  destruct (scale_factor_of sp) as [e|factor] eqn:Hf; [discriminate|].
  destruct (Py.float_of_int (Z.max rw rh)) as [e|m] eqn:Hm; [discriminate|].
  assert (not_negative (Prim2SF (m * factor))) as Hside.
  { rewrite mul_spec. apply SFmul_not_negative.
    - exact (float_of_int_not_negative _ _ Href Hm).
    - exact (scale_factor_of_not_negative _ _ Hsp Hf). }
  destruct (Py.round (m * factor)) as [e|first] eqn:Hfirst; [discriminate|].
  pose proof (round_not_negative _ _ Hside Hfirst) as Hfirst'.
  destruct (ScreenConfig.ratio_w s >=? ScreenConfig.ratio_h s);
    (destruct (Py.truediv _ _) as [e|q] eqn:Hq; [discriminate|]);
    (destruct (Py.round (m * factor * q)) as [e|second] eqn:Hsecond; [discriminate|]);
    intros [= <- <-];
    (assert (0 <= second) as Hsecond';
     [eapply round_not_negative; [|exact Hsecond];
      rewrite mul_spec; apply SFmul_not_negative; [exact Hside|];
      eapply truediv_not_negative; [| |exact Hq]; lia
     |]); split; assumption.
Qed.

Lemma resolution_of_the_first_of_four_is_not_negative :
  0 <= ScreenConfig.width
         (App.store (app (snd (calculate_resolution 1%positive 2560 1440 50 four_screens)))
            !!! 1%positive) /\
  0 <= ScreenConfig.height
         (App.store (app (snd (calculate_resolution 1%positive 2560 1440 50 four_screens)))
            !!! 1%positive).
Proof.
  apply (resolution_is_not_negative 1%positive 2560 1440 50 four_screens);
    [vm_compute; reflexivity | vm_compute; reflexivity | lia | lia
    | vm_compute; reflexivity].
Defined.

(** X8.  Between 0 and 100 percent the scale factor is defined, lies between
    0.5 and 2.0, and grows with the percentage. *)
Theorem scale_factor_grows :
  forall p q,
    0 <= p -> p < q -> q <= 100 ->
    exists fp fq,
      scale_factor_of p = inr fp /\
      scale_factor_of q = inr fq /\
      (0.5 <=? fp)%float = true /\
      (fp <? fq)%float = true /\
      (fq <=? 2)%float = true.
Proof.
  intros p q Hp Hpq Hq.
  assert (forallb (fun p =>
            forallb (fun q =>
              if p <? q then
                match scale_factor_of p, scale_factor_of q with
                | inr fp, inr fq =>
                    ((0.5 <=? fp) && (fp <? fq) && (fq <=? 2))%float
                | _, _ => false
                end
              else true) (seqZ 0 101)) (seqZ 0 101) = true) as Hall
    by (vm_compute; reflexivity).
  rewrite forallb_forall in Hall.
  assert (In p (seqZ 0 101)) as Hinp by (apply list_elem_of_In, elem_of_seqZ; lia).
  assert (In q (seqZ 0 101)) as Hinq by (apply list_elem_of_In, elem_of_seqZ; lia).
  specialize (Hall p Hinp). rewrite forallb_forall in Hall.
  specialize (Hall q Hinq). cbv beta in Hall.
  assert ((p <? q) = true) as Hlt by lia. rewrite Hlt in Hall.
  destruct (scale_factor_of p) as [e|fp]; [discriminate|].
  destruct (scale_factor_of q) as [e|fq]; [discriminate|].
  apply andb_prop in Hall as [Hall H3]. apply andb_prop in Hall as [H1 H2].
  exists fp, fq. auto.
Qed.

Lemma scale_factor_grows_from_25_to_75 :
  exists fp fq,
    scale_factor_of 25 = inr fp /\
    scale_factor_of 75 = inr fq /\
    (0.5 <=? fp)%float = true /\
    (fp <? fq)%float = true /\
    (fq <=? 2)%float = true.
Proof. apply (scale_factor_grows 25 75); lia. Defined.

(** ** The colors *)

(** X9.  [generate_color] returns one of the six colors, and two ids get one
    color exactly when they are equal modulo 6: the colors repeat from the
    seventh screen on. *)
Theorem generate_color_repeats_every_six :
  forall i j,
    ScreenConfig.generate_color i ∈ ScreenConfig.colors /\
    (ScreenConfig.generate_color i = ScreenConfig.generate_color j <->
     i mod 6 = j mod 6).
Proof.
  intros i j. unfold ScreenConfig.generate_color.
  change (Z.of_nat (length ScreenConfig.colors)) with 6.
  pose proof (Z.mod_pos_bound i 6 ltac:(lia)) as Hi.
  pose proof (Z.mod_pos_bound j 6 ltac:(lia)) as Hj.
  assert (i mod 6 = 0 \/ i mod 6 = 1 \/ i mod 6 = 2 \/ i mod 6 = 3 \/ i mod 6 = 4
          \/ i mod 6 = 5) as Hi' by lia.
  assert (j mod 6 = 0 \/ j mod 6 = 1 \/ j mod 6 = 2 \/ j mod 6 = 3 \/ j mod 6 = 4
          \/ j mod 6 = 5) as Hj' by lia.
  split.
  - apply list_elem_of_lookup_total_2. change (length ScreenConfig.colors) with 6%nat. lia.
  - destruct Hi' as [-> | [-> | [-> | [-> | [-> | ->]]]]];
      destruct Hj' as [-> | [-> | [-> | [-> | [-> | ->]]]]];
      vm_compute; split; intros H; first [reflexivity | discriminate H].
Qed.

Example seventh_screen_has_the_color_of_the_first :
  ScreenConfig.generate_color 6 = ScreenConfig.generate_color 0 /\
  ScreenConfig.generate_color (-1) = "#080E24".
Proof. split; vm_compute; reflexivity. Qed.

(** ** The handlers, step by step *)

(** [add_screen] appends the screen and its widget, and recomputes. *)
Lemma add_screen_run w :
  add_screen w = recalculate_all_resolutions (with_new_screen w).
Proof.
  unfold add_screen, new_screen, append_widget, with_new_screen.
  cbv beta iota zeta delta [bind ret read modify_app get_app app disk fst snd].
  cbn [App.store App.set_store App.set_screens App.screens App.screen_widgets].
  rewrite lookup_total_insert_eq. reflexivity.
Qed.

Lemma index_from_absent (l : list ref) k v : v ∉ l -> index_from k v l = None.
Proof.
  revert k. induction l as [|v' l IH]; intros k Hv; [reflexivity|].
  apply not_elem_of_cons in Hv as [Hne Hv]. cbn [index_from].
  rewrite decide_False by congruence. apply IH, Hv.
Qed.

(** Deleting a screen that is not in the list changes nothing. *)
Lemma delete_screen_absent screen_config w :
  screen_config ∉ App.screens (app w) -> delete_screen screen_config w = (Val tt, w).
Proof.
  intros Habs. unfold delete_screen, try_except, list_index.
  cbv beta iota zeta delta [bind get_app].
  rewrite (index_from_absent _ 0 screen_config Habs). reflexivity.
Qed.

Lemma for_enumerate_renumber_returns (l : list ref) :
  forall k w, exists w', for_enumerate k l renumber w = (Val tt, w').
Proof.
  induction l as [|v l IH]; intros k w; [eexists; reflexivity|].
  cbn [for_enumerate]. rewrite (bind_val _ _ _ _ _ (renumber_run k v w)). apply IH.
Qed.

(** [delete_screen] returns, whatever it meets. *)
Lemma delete_screen_returns screen_config w :
  fst (delete_screen screen_config w) = Val tt.
Proof.
  assert (wp (delete_screen screen_config) (fun r _ => r = Val tt) w) as H; [|exact H].
  unfold delete_screen. apply wp_try_except, wp_get_app, wp_lift.
  destruct (list_index _ _) as [e|index]; [reflexivity|].
  apply wp_lift. destruct (list_pop _ _) as [e|popped]; [reflexivity|].
  apply wp_modify_app, wp_get_app, wp_lift.
  destruct (list_pop _ _) as [e|popped']; [reflexivity|].
  apply wp_modify_app, wp_get_app, wp_bind.
  match goal with
  | |- wp (for_enumerate _ ?l _) _ ?w1 =>
      destruct (for_enumerate_renumber_returns l 0 w1) as [w2 Hrun]
  end.
  unfold wp at 1. rewrite Hrun. cbn [fst snd].
  apply wp_modify_app, wp_get_app, wp_bind.
  unfold wp at 1. rewrite append_widgets_run. cbn [fst snd].
  eapply wp_mono; [apply recalculate_all_resolutions_same_settings|].
  intros [[]|e|] w4 [_ Hr]; [reflexivity | reflexivity | contradiction].
Qed.

(** Deleting the screen at [index] of a consistent application: the list
    loses the entry, the screens left are renumbered, the widgets are built
    anew from them, and the resolutions are recomputed. *)
Lemma delete_screen_run w index screen_config :
  consistent (app w) ->
  App.screens (app w) !! index = Some screen_config ->
  exists m,
    delete_screen screen_config w
    = (Val tt, snd (recalculate_all_resolutions (without_screen w index m))) /\
    (forall j r,
       delete index (App.screens (app w)) !! j = Some r ->
       m !!! r = renumbered (Z.of_nat j) (App.store (app w) !!! r)) /\
    (forall r,
       r ∉ delete index (App.screens (app w)) -> m !!! r = App.store (app w) !!! r) /\
    (forall r, is_Some (App.store (app w) !! r) -> is_Some (m !! r)).
Proof.
  intros (Hnd & Hlen & Hstore) Hi.
  assert (list_index (App.screens (app w)) screen_config = inr index) as Hidx.
  { unfold list_index. rewrite (index_from_lookup _ 0 index screen_config Hnd Hi).
    reflexivity. }
  assert (list_pop (App.screens (app w)) index
          = inr (screen_config, delete index (App.screens (app w))))
    as Hpop by (unfold list_pop; rewrite Hi; reflexivity).
  assert (exists wd, list_pop (App.screen_widgets (app w)) index
                     = inr (wd, delete index (App.screen_widgets (app w)))) as [wd Hpopw].
  { unfold list_pop.
    destruct (lookup_lt_is_Some_2 (App.screen_widgets (app w)) index) as [wd ->].
    - rewrite Hlen. eapply lookup_lt_Some. exact Hi.
    - eauto. }
  assert (NoDup (delete index (App.screens (app w)))) as Hnd'
    by (eapply sublist_NoDup; eauto using sublist_delete).
  destruct (renumber_loop (delete index (App.screens (app w))) 0
              (mkWorld
                 (App.set_screen_widgets (delete index (App.screen_widgets (app w)))
                    (App.set_screens (delete index (App.screens (app w))) (app w)))
                 (disk w)) Hnd') as (m & Hrun & Hin & Hout & Hdom).
  cbn [app disk App.store App.set_screens App.set_screen_widgets] in Hin, Hout, Hdom, Hrun.
  exists m. split; [|split; [|split]].
  - unfold delete_screen, try_except.
    cbv beta iota zeta delta [bind get_app lift ret modify_app].
    rewrite Hidx. cbv beta iota. rewrite Hpop. cbv beta iota.
    cbn [app disk snd App.screen_widgets App.set_screens]. rewrite Hpopw. cbv beta iota.
    cbn [app disk snd App.screens App.set_screens App.set_screen_widgets].
    rewrite Hrun. cbv beta iota.
    cbn [app disk snd App.screens App.set_screens App.set_screen_widgets App.set_store].
    rewrite append_widgets_run.
    cbn [app disk App.store App.screens App.screen_widgets App.set_store App.set_screens
         App.set_screen_widgets app_nil_l].
    fold (without_screen w index m).
    pose proof (recalculate_all_resolutions_same_settings (without_screen w index m))
      as [_ Hfuel].
    unfold without_screen in *.
    destruct (recalculate_all_resolutions _) as [[[]|e|] w4]; cbn [fst snd] in *;
      [reflexivity | reflexivity | contradiction].
  - intros j r Hj. rewrite (Hin j r Hj). reflexivity.
  - exact Hout.
  - intros r Hr. apply Hdom. left. exact Hr.
Qed.

Section EditRuns.

Variable int_of_str : string -> option Z.

(** [update_config] leaves everything as it was, or assigns the four
    settings, both terms of the ratio being positive, and recomputes; of what
    the recalculation raises it lets out all but [ValueError]. *)
Lemma update_config_cases self w :
  update_config int_of_str self w = (Val tt, w) \/
  exists ratio_w ratio_h x y,
    int_of_str (ScreenConfigWidget.ratio_w_entry self) = Some ratio_w /\
    int_of_str (ScreenConfigWidget.ratio_h_entry self) = Some ratio_h /\
    int_of_str (ScreenConfigWidget.x_entry self) = Some x /\
    int_of_str (ScreenConfigWidget.y_entry self) = Some y /\
    0 < ratio_w /\ 0 < ratio_h /\
    let w1 :=
      with_settings w (ScreenConfigWidget.screen_config self) ratio_w ratio_h x y in
    snd (update_config int_of_str self w) = snd (recalculate_all_resolutions w1) /\
    (fst (update_config int_of_str self w) = fst (recalculate_all_resolutions w1) \/
     fst (update_config int_of_str self w) = Val tt /\
     exists msg, fst (recalculate_all_resolutions w1) = Exc (ValueError msg)).
Proof.
  unfold update_config, try_except_ValueError, bind, int_.
  destruct (int_of_str (ScreenConfigWidget.ratio_w_entry self)) as [ratio_w|] eqn:Hrw;
    [|left; reflexivity].
  destruct (int_of_str (ScreenConfigWidget.ratio_h_entry self)) as [ratio_h|] eqn:Hrh;
    [|left; reflexivity].
  destruct (int_of_str (ScreenConfigWidget.x_entry self)) as [x|] eqn:Hx;
    [|left; reflexivity].
  destruct (int_of_str (ScreenConfigWidget.y_entry self)) as [y|] eqn:Hy;
    [|left; reflexivity].
  cbn [ret].
  destruct ((ratio_w <=? 0) || (ratio_h <=? 0)) eqn:Hpos; [left; reflexivity|].
  apply orb_false_iff in Hpos as [Hw Hh].
  right. exists ratio_w, ratio_h, x, y.
  do 4 (split; [reflexivity|]). split; [lia|]. split; [lia|].
  cbv zeta. cbn [assign modify_app]. unfold on_screen_update.
  cbn [app disk App.store App.set_store].
  rewrite !lookup_total_insert_eq, !insert_insert_eq.
  fold (with_settings w (ScreenConfigWidget.screen_config self) ratio_w ratio_h x y).
  destruct (recalculate_all_resolutions _) as [[[]|e|] w2]; cbn [fst snd].
  - split; [reflexivity | left; reflexivity].
  - destruct e; cbn [is_ValueError];
      (split; [reflexivity|]); first [left; reflexivity | right; eauto].
  - split; [reflexivity | left; reflexivity].
Qed.

(** [apply_reference] leaves everything as it was, or assigns both sides of
    the reference, both positive, and recomputes. *)
Lemma apply_reference_cases w :
  apply_reference int_of_str w = (Val tt, w) \/
  exists new_width new_height,
    int_of_str (GlobalConfigWidget.ref_width_entry (App.global_config (app w)))
    = Some new_width /\
    int_of_str (GlobalConfigWidget.ref_height_entry (App.global_config (app w)))
    = Some new_height /\
    0 < new_width /\ 0 < new_height /\
    snd (apply_reference int_of_str w)
    = snd (recalculate_all_resolutions
             (mkWorld
                (App.set_global_config
                   (GlobalConfigWidget.set_reference new_width new_height
                      (App.global_config (app w))) (app w))
                (disk w))) /\
    fst (apply_reference int_of_str w) <> OutOfFuel.
Proof.
  unfold apply_reference, try_except_ValueError, bind, int_. cbn [get_app].
  destruct (int_of_str (GlobalConfigWidget.ref_width_entry _)) as [nw|] eqn:Hw;
    [|left; reflexivity].
  destruct (int_of_str (GlobalConfigWidget.ref_height_entry _)) as [nh|] eqn:Hh;
    [|left; reflexivity].
  cbn [ret].
  destruct ((nw <=? 0) || (nh <=? 0)) eqn:Hpos; [left; reflexivity|].
  apply orb_false_iff in Hpos as [Hnw Hnh].
  right. exists nw, nh. do 2 (split; [reflexivity|]). split; [lia|]. split; [lia|].
  cbn [modify_app]. unfold on_global_config_change.
  match goal with
  | |- context [recalculate_all_resolutions ?w0] =>
      pose proof (recalculate_all_resolutions_same_settings w0) as [_ Hfuel];
      destruct (recalculate_all_resolutions w0) as [[[]|e|] w2]
  end; cbn [fst snd] in *.
  - split; [reflexivity | discriminate].
  - destruct (is_ValueError e); split; first [reflexivity | discriminate].
  - contradiction.
Qed.

End EditRuns.

(** [on_slider_change] raises what [int] raises, before any change; or it
    assigns the scale and recomputes. *)
Lemma on_slider_change_run value w :
  on_slider_change value w
  = match Py.int_of_float value with
    | inl e => (Exc e, w)
    | inr scale_percent =>
        let w1 :=
          mkWorld
            (App.set_global_config
               (GlobalConfigWidget.set_scale_percent scale_percent
                  (App.global_config (app w))) (app w))
            (disk w) in
        match scale_factor_of scale_percent with
        | inl e => (Exc e, w1)
        | inr _ => recalculate_all_resolutions w1
        end
    end.
Proof.
  unfold on_slider_change, on_global_config_change.
  cbv beta iota zeta delta [bind lift ret raise modify_app].
  destruct (Py.int_of_float value) as [e|p]; [reflexivity|].
  destruct (scale_factor_of p); reflexivity.
Qed.

(** ** What the handlers keep *)

Lemma create_identity r s s' :
  identity_of s = identity_of s' ->
  ScreenConfigWidget.create r s = ScreenConfigWidget.create r s'.
Proof.
  unfold identity_of, ScreenConfigWidget.create. intros [= _ -> -> -> -> _].
  reflexivity.
Qed.

Lemma same_settings_well_formed w w' :
  same_settings w w' -> well_formed (app w) -> well_formed (app w').
Proof.
  intros Hs (Hcons & Hnum & Hstep).
  pose proof Hs as (Hscr & Hwid & _ & _ & _ & Hid).
  split; [eapply same_settings_consistent; eassumption|]. split.
  - intros k r Hk. rewrite Hscr in Hk. destruct (Hnum k r Hk) as [H1 H2].
    specialize (Hid r). unfold identity_of in Hid. injection Hid as -> _ _ _ _ ->.
    split; assumption.
  - unfold widgets_in_step. rewrite Hscr, Hwid. exact Hstep.
Qed.

Lemma same_settings_ratios_positive w w' :
  same_settings w w' -> ratios_positive (app w) -> ratios_positive (app w').
Proof.
  intros (Hscr & _ & _ & _ & _ & Hid) Hpos r Hr. rewrite Hscr in Hr.
  specialize (Hid r). unfold identity_of in Hid. injection Hid as _ -> -> _ _ _.
  apply Hpos, Hr.
Qed.

Lemma same_settings_reference_positive w w' :
  same_settings w w' -> reference_positive (app w) -> reference_positive (app w').
Proof. intros (_ & _ & Hg & _) Hpos. unfold reference_positive. rewrite Hg. exact Hpos. Qed.

Lemma fresh_not_listed w :
  consistent (app w) -> fresh (dom (App.store (app w))) ∉ App.screens (app w).
Proof.
  intros (_ & _ & Hin) Hr. apply Hin, elem_of_dom in Hr. exact (is_fresh _ Hr).
Qed.

Lemma with_new_screen_well_formed w :
  well_formed (app w) -> well_formed (app (with_new_screen w)).
Proof.
  intros (Hcons & Hnum & Hstep).
  pose proof (fresh_not_listed w Hcons) as Hfresh.
  destruct Hcons as (Hnd & Hlen & Hin).
  unfold with_new_screen. set (r := fresh (dom (App.store (app w)))) in *.
  split; [|split].
  - unfold consistent.
    cbn [app App.screens App.screen_widgets App.store App.set_store App.set_screens
         App.set_screen_widgets].
    split; [|split].
    + apply NoDup_app. split; [exact Hnd|]. split; [|apply NoDup_singleton].
      intros x Hx Hx'. apply list_elem_of_singleton in Hx' as ->. contradiction.
    + rewrite !length_app, Hlen. reflexivity.
    + intros x Hx. apply elem_of_app in Hx as [Hx|Hx].
      * destruct (decide (x = r)) as [->|Hne]; [contradiction|].
        rewrite lookup_insert_ne by congruence. apply Hin, Hx.
      * apply list_elem_of_singleton in Hx as ->. rewrite lookup_insert_eq. eauto.
  - intros k x.
    cbn [app App.screens App.screen_widgets App.store App.set_store App.set_screens
         App.set_screen_widgets].
    intros Hk. apply lookup_app_Some in Hk as [Hk|[Hge Hk]].
    + assert (x <> r) as Hne
        by (intros ->; apply Hfresh; eapply list_elem_of_lookup_2; exact Hk).
      rewrite lookup_total_insert_ne by congruence. apply Hnum, Hk.
    + apply list_lookup_singleton_Some in Hk as [Hk <-].
      rewrite lookup_total_insert_eq.
      assert (k = length (App.screens (app w))) as -> by lia.
      split; reflexivity.
  - unfold widgets_in_step.
    cbn [app App.screens App.screen_widgets App.store App.set_store App.set_screens
         App.set_screen_widgets].
    rewrite fmap_app, Hstep. reflexivity.
Qed.

Lemma without_screen_well_formed w index m :
  consistent (app w) ->
  (forall j r,
     delete index (App.screens (app w)) !! j = Some r ->
     m !!! r = renumbered (Z.of_nat j) (App.store (app w) !!! r)) ->
  (forall r, is_Some (App.store (app w) !! r) -> is_Some (m !! r)) ->
  well_formed (app (without_screen w index m)).
Proof.
  intros (Hnd & Hlen & Hin) Hm Hdom. unfold without_screen.
  assert (delete index (App.screens (app w)) `sublist_of` App.screens (app w)) as Hsub
    by apply sublist_delete.
  split; [|split].
  - unfold consistent.
    cbn [app App.screens App.screen_widgets App.store App.set_store App.set_screens
         App.set_screen_widgets].
    split; [eapply sublist_NoDup; eassumption|]. split; [apply length_fmap|].
    intros r Hr. apply Hdom, Hin. eapply list_elem_of_delete_inv; exact Hr.
  - intros j r.
    cbn [app App.screens App.screen_widgets App.store App.set_store App.set_screens
         App.set_screen_widgets].
    intros Hj. rewrite (Hm j r Hj). split; reflexivity.
  - unfold widgets_in_step.
    cbn [app App.screens App.screen_widgets App.store App.set_store App.set_screens
         App.set_screen_widgets].
    rewrite <- list_fmap_compose. apply list_fmap_id.
Qed.

Lemma with_settings_well_formed w self ratio_w ratio_h x y :
  well_formed (app w) -> well_formed (app (with_settings w self ratio_w ratio_h x y)).
Proof.
  intros ((Hnd & Hlen & Hin) & Hnum & Hstep). unfold with_settings.
  split; [|split].
  - unfold consistent.
    cbn [app App.screens App.screen_widgets App.store App.set_store].
    split; [exact Hnd|]. split; [exact Hlen|].
    intros r Hr. destruct (decide (r = self)) as [->|Hne].
    + rewrite lookup_insert_eq. eauto.
    + rewrite lookup_insert_ne by congruence. apply Hin, Hr.
  - intros k r. cbn [app App.screens App.store App.set_store]. intros Hk.
    destruct (decide (r = self)) as [->|Hne].
    + rewrite lookup_total_insert_eq. apply Hnum, Hk.
    + rewrite lookup_total_insert_ne by congruence. apply Hnum, Hk.
  - exact Hstep.
Qed.

(** X10.  In a consistent application [add_screen] appends one screen that
    was not in the list, with the length of the list as id, the color of that
    id, the ratio 16:9 and the position (0, 0), and appends its widget, whose
    fields show these settings; the settings of the other screens, the global
    settings and the disk are as they were.  When it returns, every screen of
    the list holds the resolution of its ratio. *)
Theorem add_screen_appends_a_default_screen :
  forall w,
    consistent (app w) ->
    exists r,
      (r ∉ App.screens (app w)) /\
      App.screens (app (snd (add_screen w))) = (App.screens (app w) ++ [r])%list /\
      identity_of (App.store (app (snd (add_screen w))) !!! r)
      = (Z.of_nat (length (App.screens (app w))), 16, 9, 0, 0,
         ScreenConfig.generate_color (Z.of_nat (length (App.screens (app w))))) /\
      (forall r',
         r' ∈ App.screens (app w) ->
         identity_of (App.store (app (snd (add_screen w))) !!! r')
         = identity_of (App.store (app w) !!! r')) /\
      App.screen_widgets (app (snd (add_screen w)))
      = (App.screen_widgets (app w) ++ [ScreenConfigWidget.mk r "16" "9" "0" "0"])%list /\
      App.global_config (app (snd (add_screen w))) = App.global_config (app w) /\
      disk (snd (add_screen w)) = disk w /\
      fst (add_screen w) <> OutOfFuel /\
      (fst (add_screen w) = Val tt ->
       forall r',
         r' ∈ App.screens (app (snd (add_screen w))) ->
         up_to_date (app (snd (add_screen w))) r').
Proof.
  intros w Hcons. pose proof (fresh_not_listed w Hcons) as Hfresh.
  exists (fresh (dom (App.store (app w)))). split; [exact Hfresh|].
  rewrite add_screen_run.
  destruct (recalculate_all_resolutions_run (with_new_screen w))
    as ((Hscr & Hwid & Hg & Hd & _ & Hid) & Hfuel & Hval & _).
  set (w' := snd (recalculate_all_resolutions (with_new_screen w))) in *.
  unfold with_new_screen in Hscr, Hwid, Hg, Hd, Hid.
  cbn [app disk App.screens App.screen_widgets App.store App.global_config
       App.set_store App.set_screens App.set_screen_widgets] in Hscr, Hwid, Hg, Hd, Hid.
  split; [exact Hscr|]. split.
  { rewrite Hid, lookup_total_insert_eq. reflexivity. }
  split.
  { intros r' Hr'. rewrite Hid. rewrite lookup_total_insert_ne; [reflexivity|].
    intros <-. contradiction. }
  split; [rewrite Hwid; reflexivity|]. split; [exact Hg|]. split; [exact Hd|].
  split; [exact Hfuel|].
  intros Hrun r' Hr'. destruct (Hval Hrun) as [_ Hall]. apply Hall.
  rewrite Hscr in Hr'. exact Hr'.
Qed.

Lemma fifth_screen_of_four :
  exists r,
    (r ∉ App.screens (app four_screens)) /\
    App.screens (app (snd (add_screen four_screens)))
    = (App.screens (app four_screens) ++ [r])%list /\
    identity_of (App.store (app (snd (add_screen four_screens))) !!! r)
    = (4, 16, 9, 0, 0, "#2F6ECC").
Proof.
  destruct (add_screen_appends_a_default_screen four_screens four_screens_consistent)
    as (r & Hfresh & Hscr & Hid & _).
  exists r. split; [exact Hfresh|]. split; [exact Hscr|].
  etrans; [exact Hid|]. vm_compute. reflexivity.
Defined.

(** X11.  [delete_screen] lets no exception out and always returns; for a
    screen that is not in the list it changes nothing. *)
Theorem delete_screen_never_raises :
  forall screen_config w,
    fst (delete_screen screen_config w) = Val tt /\
    (screen_config ∉ App.screens (app w) ->
     delete_screen screen_config w = (Val tt, w)).
Proof.
  intros sc w. split; [apply delete_screen_returns | apply delete_screen_absent].
Qed.

Lemma deleting_a_screen_that_is_not_listed :
  delete_screen 9%positive four_screens = (Val tt, four_screens).
Proof.
  apply (proj2 (delete_screen_never_raises 9%positive four_screens)).
  vm_compute. intros H. repeat (apply elem_of_cons in H as [H|H]; [discriminate H|]).
  apply elem_of_nil in H. exact H.
Defined.

Lemma init_well_formed : well_formed App.init.
Proof.
  split; [apply init_consistent|]. split; [|reflexivity].
  intros k r Hk. discriminate Hk.
Qed.

Lemma add_screen_well_formed w :
  well_formed (app w) -> well_formed (app (snd (add_screen w))).
Proof.
  intros Hwf. rewrite add_screen_run.
  destruct (recalculate_all_resolutions_run (with_new_screen w)) as (Hs & _).
  eapply same_settings_well_formed; [exact Hs|]. apply with_new_screen_well_formed, Hwf.
Qed.

Lemma delete_screen_well_formed screen_config w :
  well_formed (app w) -> well_formed (app (snd (delete_screen screen_config w))).
Proof.
  intros Hwf. destruct (decide (screen_config ∈ App.screens (app w))) as [Hin|Habs].
  - apply list_elem_of_lookup_1 in Hin as [index Hi].
    destruct (delete_screen_run w index screen_config (proj1 Hwf) Hi)
      as (m & -> & Hm & _ & Hdom).
    cbn [snd].
    destruct (recalculate_all_resolutions_run (without_screen w index m)) as (Hs & _).
    eapply same_settings_well_formed; [exact Hs|].
    apply without_screen_well_formed; [exact (proj1 Hwf) | exact Hm | exact Hdom].
  - rewrite (delete_screen_absent _ _ Habs). exact Hwf.
Qed.

Lemma update_config_well_formed int_of_str self w :
  well_formed (app w) -> well_formed (app (snd (update_config int_of_str self w))).
Proof.
  intros Hwf.
  destruct (update_config_cases int_of_str self w)
    as [->|(rw & rh & x & y & _ & _ & _ & _ & _ & _ & -> & _)]; [exact Hwf|].
  match goal with
  | |- context [recalculate_all_resolutions ?w0] =>
      destruct (recalculate_all_resolutions_run w0) as (Hs & _)
  end.
  eapply same_settings_well_formed; [exact Hs|]. apply with_settings_well_formed, Hwf.
Qed.

Lemma apply_reference_well_formed int_of_str w :
  well_formed (app w) -> well_formed (app (snd (apply_reference int_of_str w))).
Proof.
  intros Hwf.
  destruct (apply_reference_cases int_of_str w)
    as [->|(nw & nh & _ & _ & _ & _ & -> & _)]; [exact Hwf|].
  match goal with
  | |- context [recalculate_all_resolutions ?w0] =>
      destruct (recalculate_all_resolutions_run w0) as (Hs & _)
  end.
  eapply same_settings_well_formed; [exact Hs|]. exact Hwf.
Qed.

Lemma on_slider_change_well_formed value w :
  well_formed (app w) -> well_formed (app (snd (on_slider_change value w))).
Proof.
  intros Hwf. rewrite on_slider_change_run.
  destruct (Py.int_of_float value) as [e|p]; [exact Hwf|]. cbv zeta.
  destruct (scale_factor_of p) as [e|f]; [exact Hwf|].
  match goal with
  | |- context [recalculate_all_resolutions ?w0] =>
      destruct (recalculate_all_resolutions_run w0) as (Hs & _)
  end.
  eapply same_settings_well_formed; [exact Hs|]. exact Hwf.
Qed.

(** X12.  The application starts with its lists in order, and every handler
    leaves them in order, whatever it is given and however it ends: no screen
    is listed twice, every screen of the list is in the store, the screen at
    position [k] has the id [k] and the color of [k], and the widget at
    position [k] edits the screen at position [k]. *)
Theorem handlers_keep_the_lists_in_order :
  well_formed App.init /\
  forall w,
    well_formed (app w) ->
    well_formed (app (snd (add_screen w))) /\
    (forall screen_config, well_formed (app (snd (delete_screen screen_config w)))) /\
    (forall int_of_str self,
       well_formed (app (snd (update_config int_of_str self w)))) /\
    (forall int_of_str, well_formed (app (snd (apply_reference int_of_str w)))) /\
    (forall value, well_formed (app (snd (on_slider_change value w)))) /\
    (forall crop save fuel output_folder,
       well_formed (app (snd (extract_all crop save fuel output_folder w)))).
Proof.
  split; [exact init_well_formed|]. intros w Hwf.
  split; [apply add_screen_well_formed, Hwf|].
  split; [intros; apply delete_screen_well_formed, Hwf|].
  split; [intros; apply update_config_well_formed, Hwf|].
  split; [intros; apply apply_reference_well_formed, Hwf|].
  split; [intros; apply on_slider_change_well_formed, Hwf|].
  intros crop save fuel output_folder.
  destruct (extract_all_frame crop save fuel output_folder w) as [-> _]. exact Hwf.
Qed.

Lemma four_screens_well_formed : well_formed (app four_screens).
Proof.
  unfold four_screens. do 4 apply add_screen_well_formed. apply init_well_formed.
Qed.

Lemma lists_in_order_after_edits_of_four_screens :
  well_formed (app (snd (delete_screen 2%positive four_screens))) /\
  well_formed (app (snd (update_config decimal_int edited_widget four_screens))) /\
  well_formed (app (snd (on_slider_change 75 four_screens))).
Proof.
  destruct (proj2 handlers_keep_the_lists_in_order four_screens four_screens_well_formed)
    as (_ & Hdel & Hupd & _ & Hsl & _).
  split; [apply Hdel|]. split; [apply Hupd | apply Hsl].
Defined.

(** ** Positive settings, and the exceptions that cannot happen *)

Lemma truediv_raises a b e :
  Py.truediv a b = inl e ->
  b = 0 /\ e = ZeroDivisionError "division by zero" \/ exists msg, e = OverflowError msg.
Proof.
  unfold Py.truediv. destruct (b =? 0) eqn:Hb.
  - intros [= <-]. left. split; [lia | reflexivity].
  - cbv zeta. destruct (is_infinity _); [|discriminate]. intros [= <-]. right. eauto.
Qed.

Lemma float_of_int_raises n e :
  Py.float_of_int n = inl e -> exists msg, e = OverflowError msg.
Proof.
  unfold Py.float_of_int. cbv zeta. destruct (is_infinity _); [|discriminate].
  intros [= <-]. eauto.
Qed.

Lemma round_raises f e :
  Py.round f = inl e -> forall msg, e <> ZeroDivisionError msg.
Proof.
  unfold Py.round. destruct (Prim2SF f); intros [= <-]; discriminate.
Qed.

Lemma int_of_float_raises f e :
  Py.int_of_float f = inl e -> forall msg, e <> ZeroDivisionError msg.
Proof.
  unfold Py.int_of_float. destruct (Prim2SF f); intros [= <-]; discriminate.
Qed.

Lemma resolution_no_zero_division ratio_w ratio_h ref_width ref_height scale_percent e :
  0 < ratio_w -> 0 < ratio_h ->
  resolution_from_scaled_side ratio_w ratio_h ref_width ref_height scale_percent = inl e ->
  forall msg, e <> ZeroDivisionError msg.
Proof.
  intros Hw Hh. unfold resolution_from_scaled_side, scaled_max_side, scale_factor_of.
  destruct (Py.truediv scale_percent 100) as [e0|q0] eqn:Hq0.
  { intros [= <-] msg. apply truediv_raises in Hq0 as [[H _]|[m ->]];
      [lia | discriminate]. }
  destruct (Py.float_of_int _) as [e0|m] eqn:Hm.
  { intros [= <-] msg. apply float_of_int_raises in Hm as [m ->]. discriminate. }
  destruct (Py.round _) as [e0|first] eqn:Hfirst.
  { intros [= <-]. eapply round_raises. exact Hfirst. }
  clear Hq0.
  destruct (ratio_w >=? ratio_h); cbv beta iota;
    (destruct (Py.truediv _ _) as [e0|q] eqn:Hq;
     [intros [= <-] msg; apply truediv_raises in Hq as [[H _]|[m' ->]];
      [lia | discriminate]|]);
    (destruct (Py.round (_ * q)) as [e0|second] eqn:Hsecond;
     [intros [= <-]; eapply round_raises; exact Hsecond | discriminate]).
Qed.

Lemma scaled_no_zero_division n scale_factor e :
  scaled n scale_factor = inl e -> forall msg, e <> ZeroDivisionError msg.
Proof.
  unfold scaled. destruct (Py.float_of_int n) as [e0|f] eqn:Hf.
  - intros [= <-] msg. apply float_of_int_raises in Hf as [m ->]. discriminate.
  - apply int_of_float_raises.
Qed.

Lemma project_no_zero_division s scale_factor x_offset y_offset e :
  project s scale_factor x_offset y_offset = inl e ->
  forall msg, e <> ZeroDivisionError msg.
Proof.
  unfold project.
  destruct (scaled (ScreenConfig.x s) _) as [e0|x1] eqn:H1;
    [intros [= <-]; eapply scaled_no_zero_division; exact H1|].
  destruct (scaled (ScreenConfig.y s) _) as [e0|y1] eqn:H2;
    [intros [= <-]; eapply scaled_no_zero_division; exact H2|].
  destruct (scaled (ScreenConfig.x s + _) _) as [e0|x2] eqn:H3;
    [intros [= <-]; eapply scaled_no_zero_division; exact H3|].
  destruct (scaled (ScreenConfig.y s + _) _) as [e0|y2] eqn:H4;
    [intros [= <-]; eapply scaled_no_zero_division; exact H4 | discriminate].
Qed.

(** A loop raises what its body raises. *)
Lemma for_each_raises {A} (P : exn -> Prop) (l : list A) (body : A -> M unit) :
  (forall v w e, fst (body v w) = Exc e -> P e) ->
  forall w e, fst (for_each l body w) = Exc e -> P e.
Proof.
  intros Hbody. induction l as [|v l IH]; intros w e; [discriminate|].
  cbn [for_each]. unfold bind. specialize (Hbody v w).
  destruct (body v w) as [[a|e'|] w1]; cbn [fst] in *.
  - apply IH.
  - intros [= <-]. apply Hbody. reflexivity.
  - discriminate.
Qed.

Lemma update_preview_rectangles_no_zero_division w e :
  fst (update_preview_rectangles w) = Exc e -> forall msg, e <> ZeroDivisionError msg.
Proof.
  unfold update_preview_rectangles, draw_rectangles.
  cbv beta iota zeta delta [bind get_app ret modify_app].
  destruct (App.image (app w)); [|discriminate].
  destruct (App.background_image (app w)); [|discriminate].
  cbn [app App.x_offset App.y_offset App.set_canvas].
  destruct (App.x_offset (app w)) as [x_offset|]; [|discriminate].
  destruct (App.y_offset (app w)) as [y_offset|]; [|discriminate].
  apply (for_each_raises (fun e => forall msg, e <> ZeroDivisionError msg)).
  intros screen w1 e1. cbv beta iota zeta delta [bind read lift ret raise modify_app].
  destruct (project _ _ _ _) as [e0|box] eqn:Hp; [|discriminate].
  intros [= <-]. eapply project_no_zero_division. exact Hp.
Qed.

Lemma recalculate_no_zero_division w :
  ratios_positive (app w) ->
  forall msg, fst (recalculate_all_resolutions w) <> Exc (ZeroDivisionError msg).
Proof.
  intros Hpos msg. unfold recalculate_all_resolutions.
  cbv beta iota zeta delta [bind get_app].
  set (g := App.global_config (app w)).
  pose proof (calculate_loop_run (GlobalConfigWidget.ref_width g)
                (GlobalConfigWidget.ref_height g) (GlobalConfigWidget.scale_percent g)
                (App.screens (app w)) w) as Hloop.
  destruct (for_each _ _ w) as [[[]|e|] w1].
  - intros H. eapply update_preview_rectangles_no_zero_division; [exact H | reflexivity].
  - destruct Hloop as (r & Hr & He). destruct (Hpos r Hr) as [Hw Hh].
    cbn [fst]. intros [= ->].
    eapply resolution_no_zero_division; [exact Hw | exact Hh | exact He | reflexivity].
  - destruct Hloop.
Qed.

Lemma same_settings_positive w w' :
  same_settings w w' -> positive_settings (app w) -> positive_settings (app w').
Proof.
  intros Hs [H1 H2].
  split; [eapply same_settings_ratios_positive | eapply same_settings_reference_positive];
    eassumption.
Qed.

Lemma recalculate_positive w :
  positive_settings (app w) ->
  positive_settings (app (snd (recalculate_all_resolutions w))).
Proof.
  intros Hpos. destruct (recalculate_all_resolutions_run w) as (Hs & _).
  eapply same_settings_positive; eassumption.
Qed.

Lemma init_positive : positive_settings App.init.
Proof.
  split; [|split; reflexivity]. intros r Hr. apply elem_of_nil in Hr. contradiction.
Qed.

Lemma add_screen_positive w :
  positive_settings (app w) -> positive_settings (app (snd (add_screen w))).
Proof.
  intros [Hratio Href]. rewrite add_screen_run. apply recalculate_positive.
  split; [|exact Href]. intros r. unfold with_new_screen.
  cbn [app App.screens App.store App.set_store App.set_screens App.set_screen_widgets].
  intros Hr. destruct (decide (r = fresh (dom (App.store (app w))))) as [->|Hne].
  - rewrite lookup_total_insert_eq. split; reflexivity.
  - rewrite lookup_total_insert_ne by congruence. apply Hratio.
    apply elem_of_app in Hr as [Hr|Hr]; [exact Hr|].
    apply list_elem_of_singleton in Hr. contradiction.
Qed.

Lemma delete_screen_positive screen_config w :
  consistent (app w) -> positive_settings (app w) ->
  positive_settings (app (snd (delete_screen screen_config w))).
Proof.
  intros Hcons [Hratio Href].
  destruct (decide (screen_config ∈ App.screens (app w))) as [Hin|Habs].
  - apply list_elem_of_lookup_1 in Hin as [index Hi].
    destruct (delete_screen_run w index screen_config Hcons Hi) as (m & -> & Hm & _).
    cbn [snd]. apply recalculate_positive. split; [|exact Href].
    intros r. unfold without_screen.
    cbn [app App.screens App.store App.set_store App.set_screens App.set_screen_widgets].
    intros Hr. pose proof (list_elem_of_delete_inv _ _ _ Hr) as Hr'.
    apply list_elem_of_lookup_1 in Hr as [j Hj]. rewrite (Hm j r Hj).
    apply Hratio, Hr'.
  - rewrite (delete_screen_absent _ _ Habs). split; assumption.
Qed.

Lemma update_config_positive int_of_str self w :
  positive_settings (app w) ->
  positive_settings (app (snd (update_config int_of_str self w))).
Proof.
  intros [Hratio Href].
  destruct (update_config_cases int_of_str self w)
    as [->|(rw & rh & x & y & _ & _ & _ & _ & Hrw & Hrh & -> & _)]; [split; assumption|].
  apply recalculate_positive. split; [|exact Href].
  intros r. unfold with_settings. cbn [app App.screens App.store App.set_store].
  intros Hr. destruct (decide (r = ScreenConfigWidget.screen_config self)) as [->|Hne].
  - rewrite lookup_total_insert_eq. split; assumption.
  - rewrite lookup_total_insert_ne by congruence. apply Hratio, Hr.
Qed.

Lemma apply_reference_positive int_of_str w :
  positive_settings (app w) ->
  positive_settings (app (snd (apply_reference int_of_str w))).
Proof.
  intros [Hratio Href].
  destruct (apply_reference_cases int_of_str w)
    as [->|(nw & nh & _ & _ & Hnw & Hnh & -> & _)]; [split; assumption|].
  apply recalculate_positive. split; [exact Hratio | split; assumption].
Qed.

Lemma on_slider_change_positive value w :
  positive_settings (app w) ->
  positive_settings (app (snd (on_slider_change value w))).
Proof.
  intros Hpos. rewrite on_slider_change_run.
  destruct (Py.int_of_float value) as [e|p]; [exact Hpos|]. cbv zeta.
  destruct (scale_factor_of p) as [e|f]; [exact Hpos|].
  apply recalculate_positive. exact Hpos.
Qed.

(** X13.  The application starts with positive settings, and in a consistent
    application every handler keeps them positive, whatever it is given and
    however it ends: both terms of the ratio of every screen of the list, and
    both sides of the reference.  With positive ratios the recalculation of
    the resolutions never raises [ZeroDivisionError]. *)
Theorem handlers_keep_the_settings_positive :
  positive_settings App.init /\
  (forall w,
     consistent (app w) ->
     positive_settings (app w) ->
     positive_settings (app (snd (add_screen w))) /\
     (forall screen_config,
        positive_settings (app (snd (delete_screen screen_config w)))) /\
     (forall int_of_str self,
        positive_settings (app (snd (update_config int_of_str self w)))) /\
     (forall int_of_str, positive_settings (app (snd (apply_reference int_of_str w)))) /\
     (forall value, positive_settings (app (snd (on_slider_change value w))))) /\
  (forall w,
     ratios_positive (app w) ->
     forall msg, fst (recalculate_all_resolutions w) <> Exc (ZeroDivisionError msg)).
Proof.
  split; [exact init_positive|]. split; [|exact recalculate_no_zero_division].
  intros w Hcons Hpos.
  split; [apply add_screen_positive, Hpos|].
  split; [intros; apply delete_screen_positive; assumption|].
  split; [intros; apply update_config_positive, Hpos|].
  split; [intros; apply apply_reference_positive, Hpos|].
  intros; apply on_slider_change_positive, Hpos.
Qed.

Lemma four_screens_positive : positive_settings (app four_screens).
Proof.
  unfold four_screens. do 4 apply add_screen_positive. apply init_positive.
Qed.

Lemma settings_stay_positive_on_four_screens :
  positive_settings (app (snd (update_config decimal_int zero_height_widget four_screens)))
  /\ (forall msg,
        fst (recalculate_all_resolutions four_screens) <> Exc (ZeroDivisionError msg)).
Proof.
  destruct handlers_keep_the_settings_positive as (_ & Hkeep & Hzero).
  destruct (Hkeep four_screens four_screens_consistent four_screens_positive)
    as (_ & _ & Hupd & _).
  split; [apply Hupd|]. apply Hzero. exact (proj1 four_screens_positive).
Defined.

(** ** The Delete button *)

(** X14.  With the lists in order, the Delete button of the widget at
    position [k] deletes the screen at position [k]: it returns, the screen
    list loses exactly that entry, the lists stay in order, and the fields of
    every widget left show the settings of its screen. *)
Theorem delete_button_deletes_its_screen :
  forall w k self,
    well_formed (app w) ->
    App.screen_widgets (app w) !! k = Some self ->
    exists w',
      widget_delete_screen self w = (Val tt, w') /\
      App.screens (app w') = delete k (App.screens (app w)) /\
      well_formed (app w') /\
      widgets_fresh (app w').
Proof.
  intros w k self (Hcons & Hnum & Hstep) Hk.
  assert (App.screens (app w) !! k = Some (ScreenConfigWidget.screen_config self)) as Hi.
  { rewrite <- Hstep, list_lookup_fmap, Hk. reflexivity. }
  unfold widget_delete_screen.
  destruct (delete_screen_run w k _ Hcons Hi) as (m & -> & Hm & _ & Hdom).
  eexists. split; [reflexivity|].
  destruct (recalculate_all_resolutions_run (without_screen w k m)) as (Hs & _).
  pose proof Hs as (Hscr & Hwid & _ & _ & _ & Hid).
  split; [exact Hscr|]. split.
  - eapply same_settings_well_formed; [exact Hs|].
    apply without_screen_well_formed; assumption.
  - unfold widgets_fresh. rewrite Hscr, Hwid. unfold without_screen.
    cbn [app App.screens App.screen_widgets App.store App.set_store App.set_screens
         App.set_screen_widgets].
    apply list_fmap_ext. intros j r _. apply create_identity.
    rewrite Hid. reflexivity.
Qed.

Lemma delete_button_of_the_second_of_four :
  exists w',
    widget_delete_screen (ScreenConfigWidget.mk 2%positive "16" "9" "0" "0") four_screens
    = (Val tt, w') /\
    App.screens (app w') = delete 1%nat (App.screens (app four_screens)) /\
    well_formed (app w') /\
    widgets_fresh (app w').
Proof.
  apply (delete_button_deletes_its_screen four_screens 1%nat);
    [exact four_screens_well_formed | vm_compute; reflexivity].
Defined.

(** ** Fields that show what the screen holds *)

Lemma digit_of_char k :
  (k < 10)%N -> Z.of_nat (nat_of_ascii (pretty_N_char k)) = 48 + Z.of_N k.
Proof.
  intros Hk.
  assert (k = 0 \/ k = 1 \/ k = 2 \/ k = 3 \/ k = 4 \/ k = 5 \/ k = 6 \/ k = 7
          \/ k = 8 \/ k = 9)%N as H by lia.
  destruct H as [-> | [-> | [-> | [-> | [-> | [-> | [-> | [-> | [-> | ->]]]]]]]]];
    reflexivity.
Qed.

(** The digits [str] writes for a number are read back as that number. *)
Lemma pretty_N_go_digits x :
  forall s,
    exists d,
      Path.chars (pretty_N_go x s) = (d ++ Path.chars s)%list /\
      forall acc l,
        digits_value acc (d ++ l)
        = digits_value (acc * 10 ^ Z.of_nat (length d) + Z.of_N x) l.
Proof.
  induction (N.lt_wf_0 x) as [x _ IH]. intros s.
  destruct (decide (x = 0)%N) as [->|Hx].
  - rewrite pretty_N_go_0. exists []. split; [reflexivity|].
    intros acc l. cbn [List.app length]. f_equal. cbn. lia.
  - rewrite pretty_N_go_step by lia.
    destruct (IH (x `div` 10)%N ltac:(apply N.div_lt; lia)
                (String (pretty_N_char (x `mod` 10)) s)) as (d & Hd & Hv).
    exists (d ++ [pretty_N_char (x `mod` 10)%N])%list. split.
    + rewrite Hd. cbn [Path.chars list_ascii_of_string]. rewrite <- app_assoc.
      reflexivity.
    + intros acc l. rewrite <- app_assoc. cbn [List.app]. rewrite Hv.
      cbn [digits_value].
      assert (x `mod` 10 < 10)%N as Hlt by (apply N.mod_lt; lia).
      rewrite (digit_of_char _ Hlt).
      assert ((48 <=? 48 + Z.of_N (x `mod` 10)) && (48 + Z.of_N (x `mod` 10) <=? 57)
              = true) as ->.
      { pose proof (N2Z.is_nonneg (x `mod` 10)) as Hnn.
        assert (Z.of_N (x `mod` 10) < 10) as Hlt' by (apply (N2Z.inj_lt _ 10), Hlt).
        apply andb_true_intro. split; [apply Z.leb_le | apply Z.leb_le]; lia. }
      f_equal. rewrite length_app. cbn [length].
      rewrite Nat2Z.inj_add, Z.pow_add_r by lia. change (10 ^ Z.of_nat 1) with 10.
      rewrite N2Z.inj_div, N2Z.inj_mod. change (Z.of_N 10) with 10.
      pose proof (Z.div_mod (Z.of_N x) 10 ltac:(lia)). lia.
Qed.

Lemma decimal_int_pretty_positive (p : positive) :
  exists c l,
    Path.chars (pretty p) = c :: l /\ Ascii.eqb c "-" = false /\
    digits_value 0 (c :: l) = Some (Z.pos p).
Proof.
  unfold pretty, pretty_positive, pretty, pretty_N.
  rewrite decide_False by discriminate.
  destruct (pretty_N_go_digits (N.pos p) "") as (d & Hd & Hv).
  cbn [Path.chars list_ascii_of_string] in Hd. rewrite app_nil_r in Hd.
  specialize (Hv 0 []). rewrite app_nil_r in Hv. cbn [digits_value] in Hv.
  replace (0 * 10 ^ Z.of_nat (length d) + Z.of_N (N.pos p)) with (Z.pos p) in Hv
    by (cbn; lia).
  unfold Path.chars in *. rewrite Hd.
  destruct d as [|c l]; [discriminate Hv|].
  exists c, l. split; [reflexivity|]. split; [|exact Hv].
  destruct (Ascii.eqb c "-") eqn:Hc; [|reflexivity].
  apply Ascii.eqb_eq in Hc as ->. discriminate Hv.
Qed.

(** [int(str(z)) = z] *)
Lemma decimal_int_pretty (z : Z) : decimal_int (pretty z) = Some z.
Proof.
  destruct z as [|p|p].
  - reflexivity.
  - unfold decimal_int. change (pretty (Z.pos p)) with (pretty p).
    destruct (decimal_int_pretty_positive p) as (c & l & -> & -> & Hv). exact Hv.
  - unfold decimal_int. change (pretty (Z.neg p)) with ("-" +:+ pretty p).
    rewrite chars_app.
    change (Path.chars "-" ++ ?l)%list with ("-"%char :: l).
    change (Ascii.eqb "-" "-") with true. cbv iota.
    destruct (decimal_int_pretty_positive p) as (c & l & -> & _ & Hv).
    rewrite Hv. reflexivity.
Qed.

Lemma same_settings_with_settings w r :
  let s := App.store (app w) !!! r in
  same_settings w
    (with_settings w r (ScreenConfig.ratio_w s) (ScreenConfig.ratio_h s)
       (ScreenConfig.x s) (ScreenConfig.y s)).
Proof.
  intros s. unfold with_settings. do 4 (split; [reflexivity|]). split.
  - cbn [app App.store App.set_store]. rewrite dom_insert_L. apply union_subseteq_r.
  - intros r'. cbn [app App.store App.set_store].
    destruct (decide (r' = r)) as [->|Hne].
    + rewrite lookup_total_insert_eq. reflexivity.
    + rewrite lookup_total_insert_ne by congruence. reflexivity.
Qed.

(** X15.  With an [int] that reads back what [str] writes, a key release in
    a widget whose fields show the settings of its screen changes no setting:
    the screen list, the widgets, the global settings, the disk and the id,
    ratio, position and color of every screen are as they were. *)
Theorem unchanged_fields_change_no_setting :
  forall int_of_str : string -> option Z,
    (forall z, int_of_str (pretty z) = Some z) ->
    forall r w,
      same_settings w
        (snd (update_config int_of_str
                (ScreenConfigWidget.create r (App.store (app w) !!! r)) w)) /\
      fst (update_config int_of_str
             (ScreenConfigWidget.create r (App.store (app w) !!! r)) w) <> OutOfFuel.
Proof.
  intros int_of_str Hint r w.
  set (s := App.store (app w) !!! r).
  destruct (update_config_cases int_of_str (ScreenConfigWidget.create r s) w)
    as [->|(rw & rh & x & y & Hrw & Hrh & Hx & Hy & _ & _ & Hsnd & Hfst)].
  { split; [apply same_settings_refl | discriminate]. }
  cbn [ScreenConfigWidget.create ScreenConfigWidget.ratio_w_entry
       ScreenConfigWidget.ratio_h_entry ScreenConfigWidget.x_entry
       ScreenConfigWidget.y_entry ScreenConfigWidget.screen_config] in *.
  rewrite Hint in Hrw, Hrh, Hx, Hy.
  injection Hrw as <-. injection Hrh as <-. injection Hx as <-. injection Hy as <-.
  cbv zeta in Hsnd, Hfst. rewrite Hsnd.
  match type of Hsnd with
  | _ = snd (recalculate_all_resolutions ?w0) =>
      destruct (recalculate_all_resolutions_run w0) as (Hs & Hfuel & _);
      set (w1 := w0) in *
  end.
  split.
  - eapply same_settings_trans; [|exact Hs]. apply same_settings_with_settings.
  - destruct Hfst as [->|[-> _]]; [exact Hfuel | discriminate].
Qed.

Lemma key_release_in_an_unchanged_widget :
  same_settings four_screens
    (snd (update_config decimal_int
            (ScreenConfigWidget.create 1%positive
               (App.store (app four_screens) !!! 1%positive)) four_screens)) /\
  fst (update_config decimal_int
         (ScreenConfigWidget.create 1%positive
            (App.store (app four_screens) !!! 1%positive)) four_screens) <> OutOfFuel.
Proof.
  apply (unchanged_fields_change_no_setting decimal_int decimal_int_pretty
           1%positive four_screens).
Defined.

(** ** The scale slider *)

(** X16.  [on_slider_change] drops the fraction of the slider value; when
    that value is no number, or infinite, it raises before it changes
    anything.  Otherwise it assigns the scale, leaves the reference, the
    screen list and the settings of the screens as they were, and, when it
    returns, every screen of the list holds the resolution of its ratio at
    the new scale. *)
Theorem slider_sets_the_scale_and_recomputes :
  forall value w,
    match Py.int_of_float value with
    | inl e => on_slider_change value w = (Exc e, w)
    | inr scale_percent =>
        let w' := snd (on_slider_change value w) in
        App.global_config (app w')
        = GlobalConfigWidget.set_scale_percent scale_percent (App.global_config (app w)) /\
        App.screens (app w') = App.screens (app w) /\
        (forall r, identity_of (App.store (app w') !!! r)
                   = identity_of (App.store (app w) !!! r)) /\
        fst (on_slider_change value w) <> OutOfFuel /\
        (fst (on_slider_change value w) = Val tt ->
         forall r, r ∈ App.screens (app w) -> up_to_date (app w') r)
    end.
Proof.
  intros value w. rewrite on_slider_change_run.
  destruct (Py.int_of_float value) as [e|p]; [reflexivity|]. cbv zeta.
  destruct (scale_factor_of p) as [e|f].
  { cbn [fst snd app]. split; [reflexivity|]. split; [reflexivity|].
    split; [reflexivity|]. split; discriminate. }
  match goal with
  | |- context [recalculate_all_resolutions ?w0] =>
      destruct (recalculate_all_resolutions_run w0)
        as ((Hscr & _ & Hg & _ & _ & Hid) & Hfuel & Hval & _)
  end.
  split; [exact Hg|]. split; [exact Hscr|]. split; [exact Hid|].
  split; [exact Hfuel|]. intros Hrun. apply (Hval Hrun).
Qed.

Lemma slider_at_three_quarters_recomputes :
  App.global_config (app (snd (on_slider_change 75.75 four_screens)))
  = GlobalConfigWidget.set_scale_percent 75 (App.global_config (app four_screens)) /\
  up_to_date (app (snd (on_slider_change 75.75 four_screens))) 1%positive.
Proof.
  pose proof (slider_sets_the_scale_and_recomputes 75.75 four_screens) as H.
  change (Py.int_of_float 75.75) with (@inr exn Z 75) in H. cbv iota zeta in H.
  destruct H as (Hg & _ & _ & _ & Hval). split; [exact Hg|].
  apply Hval; [vm_compute; reflexivity|]. vm_compute. left.
Defined.

Example slider_at_three_quarters :
  Py.int_of_float 75.75 = inr 75 /\
  GlobalConfigWidget.scale_percent
    (App.global_config (app (snd (on_slider_change 75.75 four_screens)))) = 75 /\
  (fun r =>
     let s := App.store (app (snd (on_slider_change 75.75 four_screens))) !!! r in
     (ScreenConfig.width s, ScreenConfig.height s)) <$> [1%positive; 4%positive]
  = [(4160, 2340); (4160, 2340)].
Proof. repeat split; vm_compute; reflexivity. Qed.

(** ** The rectangles of the preview *)

(** The loop of [draw_rectangles], from a canvas [c]: it appends the
    rectangle of every screen in turn, or raises what the projection of a
    screen raises. *)
Lemma draw_loop_run (a : App.t) d (scale_factor : float) x_offset y_offset
    (l : list ref) :
  scale_factor = App.scale_factor a ->
  forall c,
    (exists rects,
       for_each l (fun screen =>
         let* s := read screen in
         let* box := lift (project s scale_factor x_offset y_offset) in
         modify_app (fun a =>
           App.set_canvas (App.canvas a ++ [Rectangle box (ScreenConfig.color s)]) a))
         (mkWorld (App.set_canvas c a) d)
       = (Val tt, mkWorld (App.set_canvas (c ++ rects) a) d) /\
       Forall2 (drawn a x_offset y_offset) l rects) \/
    (exists e r,
       r ∈ l /\
       project (App.store a !!! r) (App.scale_factor a) x_offset y_offset = inl e /\
       fst (for_each l (fun screen =>
              let* s := read screen in
              let* box := lift (project s scale_factor x_offset y_offset) in
              modify_app (fun a =>
                App.set_canvas (App.canvas a ++ [Rectangle box (ScreenConfig.color s)]) a))
              (mkWorld (App.set_canvas c a) d))
       = Exc e).
Proof.
  intros ->.
  set (body := fun screen : ref =>
         let* s := read screen in
         let* box := lift (project s (App.scale_factor a) x_offset y_offset) in
         modify_app (fun a =>
           App.set_canvas (App.canvas a ++ [Rectangle box (ScreenConfig.color s)]) a)).
  assert (forall v c,
            body v (mkWorld (App.set_canvas c a) d)
            = match project (App.store a !!! v) (App.scale_factor a) x_offset y_offset
              with
              | inl e => (Exc e, mkWorld (App.set_canvas c a) d)
              | inr box =>
                  (Val tt,
                   mkWorld
                     (App.set_canvas
                        (c ++ [Rectangle box (ScreenConfig.color (App.store a !!! v))]) a)
                     d)
              end) as Hbody.
  { intros v c. unfold body.
    cbv beta iota zeta delta [bind read lift ret raise modify_app app disk].
    cbn [App.store App.set_canvas App.canvas].
    destruct (project _ _ _ _); reflexivity. }
  clearbody body.
  induction l as [|v l IH]; intros c.
  - left. exists []. split; [|constructor]. cbn [for_each ret]. rewrite app_nil_r.
    reflexivity.
  - cbn [for_each]. unfold bind. rewrite Hbody.
    destruct (project (App.store a !!! v) (App.scale_factor a) x_offset y_offset)
      as [e|box] eqn:Hbox.
    + right. exists e, v. split; [left|]. split; [exact Hbox | reflexivity].
    + destruct (IH (c ++ [Rectangle box (ScreenConfig.color (App.store a !!! v))])%list)
        as [(rects & Hrun & Hall)|(e & r & Hr & He & Hrun)].
      * left. exists (Rectangle box (ScreenConfig.color (App.store a !!! v)) :: rects).
        split.
        -- rewrite Hrun. rewrite <- app_assoc. reflexivity.
        -- constructor; [|exact Hall]. split; [exact Hbox | reflexivity].
      * right. exists e, r. split; [right; exact Hr|]. split; [exact He | exact Hrun].
Qed.

(** X17.  With an image and a background shown, [update_preview_rectangles]
    replaces the rectangles of the canvas by one rectangle for every screen of
    the list, in the order of the list: the projection of the screen, outlined
    in its color; or it raises what the projection of a screen raises.
    Without an image or a background it changes nothing; with both but
    without the offsets it clears the rectangles and draws none. *)
Theorem preview_shows_one_rectangle_for_every_screen :
  forall w,
    (App.image (app w) = None \/ App.background_image (app w) = None ->
     update_preview_rectangles w = (Val tt, w)) /\
    (is_Some (App.image (app w)) ->
     is_Some (App.background_image (app w)) ->
     App.x_offset (app w) = None \/ App.y_offset (app w) = None ->
     update_preview_rectangles w
     = (Val tt, mkWorld (App.set_canvas [] (app w)) (disk w))) /\
    (forall x_offset y_offset,
       is_Some (App.image (app w)) ->
       is_Some (App.background_image (app w)) ->
       App.x_offset (app w) = Some x_offset ->
       App.y_offset (app w) = Some y_offset ->
       (exists rects,
          update_preview_rectangles w
          = (Val tt, mkWorld (App.set_canvas rects (app w)) (disk w)) /\
          Forall2 (drawn (app w) x_offset y_offset) (App.screens (app w)) rects) \/
       (exists e r,
          r ∈ App.screens (app w) /\
          project (App.store (app w) !!! r) (App.scale_factor (app w)) x_offset y_offset
          = inl e /\
          fst (update_preview_rectangles w) = Exc e)).
Proof.
  intros w. split; [|split].
  - unfold update_preview_rectangles. cbv beta iota zeta delta [bind get_app ret].
    intros [H|H].
    + rewrite H. reflexivity.
    + rewrite H. destruct (App.image (app w)); reflexivity.
  - intros [image Him] [background Hbg] Hoff.
    unfold update_preview_rectangles, draw_rectangles.
    cbv beta iota zeta delta [bind get_app ret].
    rewrite Him, Hbg. cbn [modify_app app disk App.x_offset App.y_offset App.set_canvas].
    destruct Hoff as [-> | ->]; [reflexivity|].
    destruct (App.x_offset (app w)); reflexivity.
  - intros x_offset y_offset [image Him] [background Hbg] Hx Hy.
    unfold update_preview_rectangles, draw_rectangles.
    cbv beta iota zeta delta [bind get_app ret].
    rewrite Him, Hbg. cbn [modify_app app disk App.x_offset App.y_offset App.set_canvas
                           App.screens App.scale_factor].
    rewrite Hx, Hy.
    destruct (draw_loop_run (app w) (disk w) (App.scale_factor (app w)) x_offset y_offset
                (App.screens (app w)) eq_refl []) as [(rects & Hrun & Hall)|Hexc].
    + left. exists rects. split; [|exact Hall].
      cbn [List.app] in Hrun. exact Hrun.
    + right. exact Hexc.
Qed.

Lemma preview_of_two_screens :
  exists rects,
    update_preview_rectangles preview_world
    = (Val tt, mkWorld (App.set_canvas rects (app preview_world)) (disk preview_world)) /\
    Forall2 (drawn (app preview_world) 10 20) [1%positive; 2%positive] rects.
Proof.
  destruct (proj2 (proj2 (preview_shows_one_rectangle_for_every_screen preview_world))
              10 20)
    as [H|(e & r & _ & _ & He)]; [eauto | eauto | reflexivity | reflexivity | exact H|].
  vm_compute in He. discriminate He.
Defined.

Example preview_of_two_screens_rectangles :
  App.canvas (app (snd (update_preview_rectangles preview_world)))
  = [Rectangle (10, 20, 11, 21) "#CC9709"; Rectangle (11, 20, 12, 21) "#C74405"].
Proof. vm_compute. reflexivity. Qed.

(** ** Loading an image and building the preview *)

Lemma draw_rectangles_run w x_offset y_offset :
  App.x_offset (app w) = Some x_offset ->
  App.y_offset (app w) = Some y_offset ->
  (exists rects,
     draw_rectangles w
     = (Val tt, mkWorld (App.set_canvas (App.canvas (app w) ++ rects) (app w)) (disk w)) /\
     Forall2 (drawn (app w) x_offset y_offset) (App.screens (app w)) rects) \/
  (exists e r,
     r ∈ App.screens (app w) /\
     project (App.store (app w) !!! r) (App.scale_factor (app w)) x_offset y_offset
     = inl e /\
     fst (draw_rectangles w) = Exc e).
Proof.
  intros Hx Hy. unfold draw_rectangles. cbv beta iota zeta delta [bind get_app].
  rewrite Hx, Hy.
  assert (w = mkWorld (App.set_canvas (App.canvas (app w)) (app w)) (disk w)) as Hw
    by (destruct w as [[] ?]; reflexivity).
  destruct (draw_loop_run (app w) (disk w) (App.scale_factor (app w)) x_offset y_offset
              (App.screens (app w)) eq_refl (App.canvas (app w)))
    as [(rects & Hrun & Hall)|(e & r & Hr & He & Hrun)]; rewrite <- Hw in Hrun.
  - left. exists rects. split; [exact Hrun | exact Hall].
  - right. exists e, r. split; [exact Hr|]. split; [exact He | exact Hrun].
Qed.

Lemma same_document_refl w : same_document w w.
Proof. repeat split. Qed.

Lemma same_document_trans w1 w2 w3 :
  same_document w1 w2 -> same_document w2 w3 -> same_document w1 w3.
Proof.
  intros (?&?&?&?&?&?&?) (?&?&?&?&?&?&?). repeat split; congruence.
Qed.

Lemma draw_rectangles_same_document w : same_document w (snd (draw_rectangles w)).
Proof.
  destruct (draw_rectangles_canvas_only w) as [c ->]. repeat split.
Qed.

Section PreviewRuns.

Variable open_ : gmap string node -> string -> exn + Image.t.
Variable resize : Image.t -> Z * Z -> exn + Image.t.
Variable photo_image : Image.t -> exn + unit.

(** [update_preview_full] changes the preview only, and always ends. *)
Lemma update_preview_full_same_document canvas_width canvas_height w :
  same_document w (snd (update_preview_full resize photo_image canvas_width
                          canvas_height w)) /\
  fst (update_preview_full resize photo_image canvas_width canvas_height w) <> OutOfFuel.
Proof.
  assert (wp (update_preview_full resize photo_image canvas_width canvas_height)
            (fun r w' => same_document w w' /\ r <> OutOfFuel) w) as H; [|exact H].
  assert (forall (r : result bool) w', same_document w w' -> r <> OutOfFuel ->
            same_document w w' /\ r <> OutOfFuel) as Hpack by auto.
  unfold update_preview_full. apply wp_get_app.
  destruct (App.image (app w)) as [image|];
    [|apply Hpack; [apply same_document_refl | discriminate]].
  apply wp_modify_app.
  destruct ((canvas_width <=? 1) || (canvas_height <=? 1));
    [apply Hpack; [repeat split | discriminate]|].
  destruct (Image.size image) as [img_width img_height].
  apply wp_lift. destruct (Py.truediv _ _) as [e|scale_w];
    [apply Hpack; [repeat split | discriminate]|].
  apply wp_lift. destruct (Py.truediv _ _) as [e|scale_h];
    [apply Hpack; [repeat split | discriminate]|].
  apply wp_modify_app.
  apply wp_lift. destruct (scaled img_width _) as [e|new_width];
    [apply Hpack; [repeat split | discriminate]|].
  apply wp_lift. destruct (scaled img_height _) as [e|new_height];
    [apply Hpack; [repeat split | discriminate]|].
  apply wp_lift. destruct (resize image _) as [e|background];
    [apply Hpack; [repeat split | discriminate]|].
  apply wp_modify_app.
  apply wp_lift. destruct (photo_image background) as [e|[]];
    [apply Hpack; [repeat split | discriminate]|].
  apply wp_modify_app, wp_modify_app, wp_bind.
  match goal with
  | |- wp draw_rectangles _ ?w5 =>
      pose proof (draw_rectangles_same_document w5) as Hdraw;
      pose proof (draw_rectangles_same_settings w5) as [_ Hfuel];
      unfold wp at 1;
      destruct (draw_rectangles w5) as [[[]|e|] w6]; cbn [fst snd] in *
  end.
  - apply Hpack; [|discriminate].
    eapply same_document_trans; [|exact Hdraw]. repeat split.
  - apply Hpack; [|discriminate].
    eapply same_document_trans; [|exact Hdraw]. repeat split.
  - contradiction.
Qed.

(** X18.  [load_image] lets no exception out.  When the dialog is cancelled,
    or when the file cannot be opened, it changes nothing: an image loaded
    before stays, with its path.  When the file opens, the image and its path
    are assigned together, even when building the preview fails and the label
    reads [Loading error]; the screens, the widgets, the global settings and
    the disk are as they were. *)
Theorem load_image_assigns_image_and_path_together :
  forall file_path canvas_width canvas_height w,
    (file_path = "" ->
     load_image open_ resize photo_image file_path canvas_width canvas_height w
     = (Val Cancelled, w)) /\
    (forall e,
       file_path <> "" ->
       open_ (disk w) file_path = inl e ->
       load_image open_ resize photo_image file_path canvas_width canvas_height w
       = (Val LoadingError, w)) /\
    (forall image,
       file_path <> "" ->
       open_ (disk w) file_path = inr image ->
       exists r w',
         load_image open_ resize photo_image file_path canvas_width canvas_height w
         = (Val r, w') /\
         r <> Cancelled /\
         App.image (app w') = Some image /\
         App.image_path (app w') = Some file_path /\
         App.store (app w') = App.store (app w) /\
         App.screens (app w') = App.screens (app w) /\
         App.screen_widgets (app w') = App.screen_widgets (app w) /\
         App.global_config (app w') = App.global_config (app w) /\
         disk w' = disk w).
Proof.
  intros file_path canvas_width canvas_height w. unfold load_image.
  split; [intros ->; reflexivity|].
  split.
  - intros e Hne Hopen. apply String.eqb_neq in Hne. rewrite Hne.
    unfold try_except. cbv beta iota zeta delta [bind get_disk lift raise ret].
    rewrite Hopen. reflexivity.
  - intros image Hne Hopen. apply String.eqb_neq in Hne. rewrite Hne.
    unfold try_except. cbv beta iota zeta delta [bind get_disk lift raise ret modify_app].
    rewrite Hopen. cbv beta iota. cbn [app disk].
    match goal with
    | |- context [update_preview_full _ _ _ _ ?w2] =>
        pose proof (update_preview_full_same_document canvas_width canvas_height w2)
          as [(H1 & H2 & H3 & H4 & H5 & H6 & H7) Hfuel];
        destruct (update_preview_full resize photo_image canvas_width canvas_height w2)
          as [[put_off|e|] w3]; cbn [fst snd app disk] in *
    end.
    + exists (Shown put_off), w3. split; [reflexivity|]. split; [discriminate|].
      repeat split; assumption.
    + exists LoadingError, w3. split; [reflexivity|]. split; [discriminate|].
      repeat split; assumption.
    + contradiction.
Qed.

(** [update_preview_full] when it has drawn: the scale, the background, the
    offsets and the rectangles it leaves. *)
Lemma update_preview_full_drawn canvas_width canvas_height w image w' :
  App.image (app w) = Some image ->
  update_preview_full resize photo_image canvas_width canvas_height w
  = (Val false, w') ->
  exists new_width new_height background x_offset y_offset,
    scaled (fst (Image.size image)) (App.scale_factor (app w')) = inr new_width /\
    scaled (snd (Image.size image)) (App.scale_factor (app w')) = inr new_height /\
    resize image (new_width, new_height) = inr background /\
    App.background_image (app w') = Some background /\
    App.x_offset (app w') = Some x_offset /\
    App.y_offset (app w') = Some y_offset /\
    0 <= canvas_width - new_width - 2 * x_offset <= 1 /\
    0 <= canvas_height - new_height - 2 * y_offset <= 1 /\
    Forall2 (drawn (app w') x_offset y_offset) (App.screens (app w'))
      (App.canvas (app w')).
Proof.
  intros Him. unfold update_preview_full.
  cbv beta iota zeta delta [bind get_app ret modify_app lift raise].
  rewrite Him.
  destruct ((canvas_width <=? 1) || (canvas_height <=? 1)); [discriminate|].
  destruct (Image.size image) as [img_width img_height]. cbn [fst snd app disk].
  destruct (Py.truediv canvas_width img_width) as [e|scale_w]; [discriminate|].
  destruct (Py.truediv canvas_height img_height) as [e|scale_h]; [discriminate|].
  set (scale_factor := (min_float scale_w scale_h * nine_tenths)%float).
  destruct (scaled img_width scale_factor) as [e|new_width] eqn:Hnw; [discriminate|].
  destruct (scaled img_height scale_factor) as [e|new_height] eqn:Hnh; [discriminate|].
  destruct (resize image (new_width, new_height)) as [e|background] eqn:Hbg;
    [discriminate|].
  destruct (photo_image background) as [e|[]]; [discriminate|].
  cbv beta iota. cbn [app disk].
  match goal with
  | |- context [draw_rectangles ?w5] =>
      destruct (draw_rectangles_run w5 ((canvas_width - new_width) / 2)
                  ((canvas_height - new_height) / 2) eq_refl eq_refl)
        as [(rects & Hrun & Hall)|(e & r & _ & _ & Hrun)];
      [rewrite Hrun | destruct (draw_rectangles w5) as [[[]|e'|] w6];
                      cbn [fst] in Hrun; discriminate]
  end.
  intros [= <-].
  exists new_width, new_height, background, ((canvas_width - new_width) / 2),
    ((canvas_height - new_height) / 2).
  cbn [app disk App.scale_factor App.background_image App.x_offset App.y_offset
       App.canvas App.screens App.set_canvas set_scale_factor set_background_image
       set_x_offset set_y_offset List.app].
  split; [exact Hnw|]. split; [exact Hnh|]. split; [exact Hbg|].
  split; [reflexivity|]. split; [reflexivity|]. split; [reflexivity|].
  pose proof (Z_div_mod_eq_full (canvas_width - new_width) 2) as Hx.
  pose proof (Z.mod_pos_bound (canvas_width - new_width) 2 ltac:(lia)) as Hx'.
  pose proof (Z_div_mod_eq_full (canvas_height - new_height) 2) as Hy.
  pose proof (Z.mod_pos_bound (canvas_height - new_height) 2 ltac:(lia)) as Hy'.
  split; [lia|]. split; [lia|]. exact Hall.
Qed.

(** X20.  Without an image [update_preview_full] changes nothing.  On a
    canvas not more than one pixel wide or high it clears the canvas and puts
    itself off.  When it has drawn, the background has the size
    [int(img_width * scale_factor)] by [int(img_height * scale_factor)], the
    offsets centre it on the canvas, the margin on the right and below being
    the one on the left and above or one pixel more, and the canvas holds the
    rectangle of every screen of the list. *)
Theorem update_preview_full_centres_the_background :
  forall canvas_width canvas_height w,
    (App.image (app w) = None ->
     update_preview_full resize photo_image canvas_width canvas_height w
     = (Val false, w)) /\
    (is_Some (App.image (app w)) ->
     canvas_width <= 1 \/ canvas_height <= 1 ->
     update_preview_full resize photo_image canvas_width canvas_height w
     = (Val true, mkWorld (App.set_canvas [] (app w)) (disk w))) /\
    (forall image w',
       App.image (app w) = Some image ->
       update_preview_full resize photo_image canvas_width canvas_height w
       = (Val false, w') ->
       exists new_width new_height background x_offset y_offset,
         scaled (fst (Image.size image)) (App.scale_factor (app w')) = inr new_width /\
         scaled (snd (Image.size image)) (App.scale_factor (app w')) = inr new_height /\
         resize image (new_width, new_height) = inr background /\
         App.background_image (app w') = Some background /\
         App.x_offset (app w') = Some x_offset /\
         App.y_offset (app w') = Some y_offset /\
         0 <= canvas_width - new_width - 2 * x_offset <= 1 /\
         0 <= canvas_height - new_height - 2 * y_offset <= 1 /\
         Forall2 (drawn (app w') x_offset y_offset) (App.screens (app w'))
           (App.canvas (app w'))).
Proof.
  intros canvas_width canvas_height w. unfold update_preview_full.
  split; [|split].
  - intros Him. cbv beta iota zeta delta [bind get_app ret]. rewrite Him. reflexivity.
  - intros [image Him] Hsmall. cbv beta iota zeta delta [bind get_app ret modify_app].
    rewrite Him.
    assert ((canvas_width <=? 1) || (canvas_height <=? 1) = true) as ->
      by (apply orb_true_iff; lia).
    reflexivity.
  - intros image w'. apply update_preview_full_drawn.
Qed.

End PreviewRuns.

(** What [int(n * scale_factor)] is for some [n], [int(0 * scale_factor)] is
    zero. *)
Lemma scaled_zero n scale_factor z :
  scaled n scale_factor = inr z -> scaled 0 scale_factor = inr 0.
Proof.
  unfold scaled. destruct (Py.float_of_int n) as [e|f]; [discriminate|].
  change (Py.float_of_int 0) with (@inr exn float 0%float). cbv iota.
  unfold Py.int_of_float. rewrite !mul_spec.
  change (Prim2SF 0) with (S754_zero false).
  destruct (Prim2SF scale_factor) as [s|s| |s m e].
  - intros _. reflexivity.
  - destruct (Prim2SF f) as [s'|s'| |s' m' e']; discriminate.
  - destruct (Prim2SF f) as [s'|s'| |s' m' e']; discriminate.
  - intros _. reflexivity.
Qed.

(** The projection of a screen at the origin starts at the offsets. *)
Lemma project_at_the_origin s scale_factor x_offset y_offset new_width new_height :
  ScreenConfig.x s = 0 ->
  ScreenConfig.y s = 0 ->
  scaled (ScreenConfig.width s) scale_factor = inr new_width ->
  scaled (ScreenConfig.height s) scale_factor = inr new_height ->
  project s scale_factor x_offset y_offset
  = inr (x_offset, y_offset, new_width + x_offset, new_height + y_offset).
Proof.
  intros Hx Hy Hw Hh. unfold project. rewrite Hx, Hy.
  rewrite (scaled_zero _ _ _ Hw). rewrite !Z.add_0_l, Hw, Hh. reflexivity.
Qed.

(** X19.  When [update_preview_full] has drawn, a screen at the origin that
    is as wide and as high as the image is outlined on the border of the
    background: its rectangle, in the color of the screen, runs from the
    offsets, where the background is put with its top left corner, to the
    offsets plus the width and the height the background was resized to. *)
Theorem screen_over_the_image_is_drawn_on_the_border_of_the_background :
  forall resize photo_image canvas_width canvas_height w image w' (k : nat) r,
    App.image (app w) = Some image ->
    update_preview_full resize photo_image canvas_width canvas_height w
    = (Val false, w') ->
    App.screens (app w) !! k = Some r ->
    ScreenConfig.x (App.store (app w) !!! r) = 0 ->
    ScreenConfig.y (App.store (app w) !!! r) = 0 ->
    ScreenConfig.width (App.store (app w) !!! r) = fst (Image.size image) ->
    ScreenConfig.height (App.store (app w) !!! r) = snd (Image.size image) ->
    exists new_width new_height background x_offset y_offset,
      resize image (new_width, new_height) = inr background /\
      App.background_image (app w') = Some background /\
      App.x_offset (app w') = Some x_offset /\
      App.y_offset (app w') = Some y_offset /\
      App.canvas (app w') !! k
      = Some (Rectangle
                (x_offset, y_offset, new_width + x_offset, new_height + y_offset)
                (ScreenConfig.color (App.store (app w) !!! r))).
Proof.
  intros resize photo_image canvas_width canvas_height w image w' k r
    Him Hrun Hk Hx Hy Hw Hh.
  destruct (update_preview_full_drawn resize photo_image canvas_width canvas_height
              w image w' Him Hrun)
    as (nw & nh & bg & xo & yo & Hnw & Hnh & Hbg & Hback & Hxo & Hyo & _ & _ & Hall).
  pose proof (update_preview_full_same_document resize photo_image canvas_width
                canvas_height w) as [(_ & _ & Hstore & Hscreens & _) _].
  rewrite Hrun in Hstore, Hscreens. cbn [snd] in Hstore, Hscreens.
  rewrite <- Hscreens in Hk.
  destruct (Forall2_lookup_l _ _ _ _ _ Hall Hk) as ([box outline] & Hrect & Hproj & Hcol).
  cbn [rect_coords rect_outline] in Hproj, Hcol.
  rewrite Hstore in Hproj, Hcol. rewrite <- Hw in Hnw. rewrite <- Hh in Hnh.
  rewrite (project_at_the_origin _ _ xo yo nw nh Hx Hy Hnw Hnh) in Hproj.
  injection Hproj as <-. subst outline.
  exists nw, nh, bg, xo, yo. auto.
Qed.


Lemma load_image_on_the_picture_world :
  load_image open_raster resize_flat photo_of "" 10 9 picture_world
  = (Val Cancelled, picture_world) /\
  load_image open_raster resize_flat photo_of "/pics/notes.txt" 10 9 picture_world
  = (Val LoadingError, picture_world) /\
  exists r w',
    load_image open_raster resize_flat photo_of "/pics/wall.png" 10 9 picture_world
    = (Val r, w') /\
    App.image (app w') = Some small_image /\
    App.image_path (app w') = Some "/pics/wall.png".
Proof.
  split; [|split].
  - apply (proj1 (load_image_assigns_image_and_path_together open_raster resize_flat
                    photo_of "" 10 9 picture_world)). reflexivity.
  - apply (proj1 (proj2 (load_image_assigns_image_and_path_together open_raster
                           resize_flat photo_of "/pics/notes.txt" 10 9 picture_world))
             (OSError "cannot identify image file")); [discriminate | reflexivity].
  - destruct (proj2 (proj2 (load_image_assigns_image_and_path_together open_raster
                              resize_flat photo_of "/pics/wall.png" 10 9 picture_world))
                small_image) as (r & w' & Hrun & _ & Him & Hpath & _);
      [discriminate | reflexivity|].
    exists r, w'. auto.
Defined.

(** An image 100 pixels wide and one pixel high on a canvas of 10 by 10: the
    background would be no pixel high, [resize] raises, and the label reads
    [Loading error] over an image that is loaded. *)
Example loading_error_with_the_image_loaded :
  let w' := snd (load_image open_raster resize_flat photo_of "/pics/strip.png" 10 10
                   strip_world) in
  fst (load_image open_raster resize_flat photo_of "/pics/strip.png" 10 10 strip_world)
  = Val LoadingError /\
  App.image (app w') = Some strip_image /\
  App.image_path (app w') = Some "/pics/strip.png".
Proof. repeat split; vm_compute; reflexivity. Qed.

Lemma preview_of_the_small_image :
  exists new_width new_height background x_offset y_offset,
    scaled 4 (App.scale_factor
                (app (snd (update_preview_full resize_flat photo_of 10 9 preview_world))))
    = inr new_width /\
    resize_flat small_image (new_width, new_height) = inr background /\
    App.x_offset (app (snd (update_preview_full resize_flat photo_of 10 9 preview_world)))
    = Some x_offset /\
    App.y_offset (app (snd (update_preview_full resize_flat photo_of 10 9 preview_world)))
    = Some y_offset /\
    0 <= 10 - new_width - 2 * x_offset <= 1 /\
    0 <= 9 - new_height - 2 * y_offset <= 1.
Proof.
  destruct (proj2 (proj2 (update_preview_full_centres_the_background resize_flat photo_of
                            10 9 preview_world))
              small_image
              (snd (update_preview_full resize_flat photo_of 10 9 preview_world)))
    as (nw & nh & bg & xo & yo & Hnw & _ & Hbg & _ & Hx & Hy & Hcx & Hcy & _);
    [reflexivity | vm_compute; reflexivity|].
  exists nw, nh, bg, xo, yo. auto 10.
Defined.

Example preview_of_the_small_image_numbers :
  let a := app (snd (update_preview_full resize_flat photo_of 10 9 preview_world)) in
  App.scale_factor a = 2.25%float /\
  App.x_offset a = Some 0 /\ App.y_offset a = Some 1 /\
  Image.size <$> App.background_image a = Some (9, 6) /\
  App.canvas a = [Rectangle (0, 1, 4, 5) "#CC9709"; Rectangle (4, 3, 9, 7) "#C74405"].
Proof. repeat split; vm_compute; reflexivity. Qed.

Lemma screen_over_the_small_image :
  exists new_width new_height background x_offset y_offset,
    resize_flat small_image (new_width, new_height) = inr background /\
    App.x_offset (app (snd (update_preview_full resize_flat photo_of 10 9 covered_world)))
    = Some x_offset /\
    App.y_offset (app (snd (update_preview_full resize_flat photo_of 10 9 covered_world)))
    = Some y_offset /\
    App.canvas (app (snd (update_preview_full resize_flat photo_of 10 9 covered_world)))
      !! 0%nat
    = Some (Rectangle
              (x_offset, y_offset, new_width + x_offset, new_height + y_offset)
              "#CC9709").
Proof.
  destruct (screen_over_the_image_is_drawn_on_the_border_of_the_background
              resize_flat photo_of 10 9 covered_world small_image
              (snd (update_preview_full resize_flat photo_of 10 9 covered_world))
              0%nat 1%positive)
    as (nw & nh & bg & xo & yo & Hbg & _ & Hx & Hy & Hrect);
    try (vm_compute; reflexivity).
  exists nw, nh, bg, xo, yo. auto.
Defined.

Example screen_over_the_small_image_numbers :
  let a := app (snd (update_preview_full resize_flat photo_of 10 9 covered_world)) in
  Image.size <$> App.background_image a = Some (9, 6) /\
  App.x_offset a = Some 0 /\ App.y_offset a = Some 1 /\
  App.canvas a = [Rectangle (0, 1, 9, 7) "#CC9709"; Rectangle (4, 3, 9, 7) "#C74405"].
Proof. repeat split; vm_compute; reflexivity. Qed.

(** ** A resolution half assigned *)

(** X21.  [calculate_resolution] assigns the first dimension before it
    divides the terms of the ratio: for a screen whose greater ratio term is
    zero it raises [ZeroDivisionError] and leaves the screen with its longer
    side assigned, the other side and everything else being as they were. *)
Theorem calculate_resolution_assigns_before_it_divides :
  forall self ref_width ref_height scale_percent w side first,
    scaled_max_side ref_width ref_height scale_percent = inr side ->
    Py.round side = inr first ->
    (ScreenConfig.ratio_w (App.store (app w) !!! self) = 0 ->
     ScreenConfig.ratio_h (App.store (app w) !!! self) <= 0 ->
     calculate_resolution self ref_width ref_height scale_percent w
     = (Exc (ZeroDivisionError "division by zero"),
        snd (assign self (ScreenConfig.set_width first) w))) /\
    (ScreenConfig.ratio_h (App.store (app w) !!! self) = 0 ->
     ScreenConfig.ratio_w (App.store (app w) !!! self) < 0 ->
     calculate_resolution self ref_width ref_height scale_percent w
     = (Exc (ZeroDivisionError "division by zero"),
        snd (assign self (ScreenConfig.set_height first) w))).
Proof.
  intros self rw rh sp w side first Hside Hfirst.
  unfold scaled_max_side in Hside.
  destruct (scale_factor_of sp) as [e|factor] eqn:Hf; [discriminate|].
  destruct (Py.float_of_int (Z.max rw rh)) as [e|m] eqn:Hm; [discriminate|].
  injection Hside as <-.
  split; intros H0 Hle; unfold calculate_resolution; destruct w as [a d]; run;
    rewrite Hf, Hm, Hfirst; cbn [app] in H0, Hle; rewrite H0.
  - assert ((0 >=? ScreenConfig.ratio_h (App.store a !!! self)) = true) as -> by lia.
    reflexivity.
  - assert ((ScreenConfig.ratio_w (App.store a !!! self) >=? 0) = false) as -> by lia.
    reflexivity.
Qed.

Lemma zero_ratio_leaves_the_width_assigned :
  calculate_resolution 2%positive 2560 1440 50 zero_ratio_world
  = (Exc (ZeroDivisionError "division by zero"),
     snd (assign 2%positive (ScreenConfig.set_width 3200) zero_ratio_world)).
Proof.
  apply (proj1 (calculate_resolution_assigns_before_it_divides 2%positive 2560 1440 50
                  zero_ratio_world 3200 3200 ltac:(vm_compute; reflexivity)
                  ltac:(vm_compute; reflexivity)));
    [vm_compute; reflexivity | vm_compute; discriminate].
Defined.

Example zero_ratio_screen_after_the_exception :
  let s := App.store (app (snd (calculate_resolution 2%positive 2560 1440 50
                                  zero_ratio_world))) !!! 2%positive in
  (ScreenConfig.width s, ScreenConfig.height s) = (3200, 1080).
Proof. vm_compute. reflexivity. Qed.

(** ** Names made of a ratio *)

(** Two lists that agree around a separator which their first parts do not
    hold agree part by part. *)
Lemma app_separator_inj {A} (c : A) (a a' b b' : list A) :
  c ∉ a -> c ∉ a' -> (a ++ c :: b = a' ++ c :: b')%list -> a = a' /\ b = b'.
Proof.
  revert a'. induction a as [|x a IH]; intros [|x' a'] Ha Ha' H; cbn in H.
  - injection H as ->. split; reflexivity.
  - injection H as <- _. exfalso. apply Ha'. left.
  - injection H as -> _. exfalso. apply Ha. left.
  - injection H as -> H. apply not_elem_of_cons in Ha as [_ Ha].
    apply not_elem_of_cons in Ha' as [_ Ha'].
    destruct (IH a' Ha Ha' H) as [-> ->]. split; reflexivity.
Qed.

Lemma pretty_N_go_chars (P : ascii -> Prop) x :
  (forall k, (k < 10)%N -> P (pretty_N_char k)) ->
  forall s, Forall P (Path.chars s) -> Forall P (Path.chars (pretty_N_go x s)).
Proof.
  intros HP. induction (N.lt_wf_0 x) as [x _ IH]. intros s Hs.
  destruct (decide (x = 0)%N) as [->|Hx].
  - rewrite pretty_N_go_0. exact Hs.
  - rewrite pretty_N_go_step by lia. apply IH.
    + apply N.div_lt; lia.
    + cbn. constructor; [|exact Hs]. apply HP, N.mod_lt. lia.
Qed.

Lemma pretty_N_char_digit k :
  (k < 10)%N -> pretty_N_char k <> "-"%char /\ pretty_N_char k <> ":"%char.
Proof.
  intros Hk.
  assert (k = 0 \/ k = 1 \/ k = 2 \/ k = 3 \/ k = 4 \/ k = 5 \/ k = 6 \/ k = 7
          \/ k = 8 \/ k = 9)%N as H by lia.
  destruct H as [-> | [-> | [-> | [-> | [-> | [-> | [-> | [-> | [-> | ->]]]]]]]]];
    split; discriminate.
Qed.

(** What [str] writes for a positive number: digits, and at least one. *)
Lemma pretty_positive_chars (p : positive) :
  Forall (fun c => c <> "-"%char /\ c <> ":"%char) (Path.chars (pretty p)) /\
  Path.chars (pretty p) <> [].
Proof.
  split.
  - unfold pretty, pretty_positive, pretty, pretty_N.
    rewrite decide_False by discriminate.
    apply pretty_N_go_chars; [exact pretty_N_char_digit | constructor].
  - destruct (decimal_int_pretty_positive p) as (c & l & -> & _). discriminate.
Qed.

Lemma pretty_Z_no_colon (z : Z) : ":"%char ∉ Path.chars (pretty z).
Proof.
  destruct z as [|p|p].
  - intros H. apply list_elem_of_singleton in H. discriminate H.
  - change (pretty (Z.pos p)) with (pretty p). intros H.
    destruct (pretty_positive_chars p) as [Hall _].
    rewrite Forall_forall in Hall. destruct (Hall _ H) as [_ Hc]. congruence.
  - change (pretty (Z.neg p)) with ("-" +:+ pretty p). rewrite chars_app.
    change (Path.chars "-" ++ ?l)%list with ("-"%char :: l).
    intros H. apply elem_of_cons in H as [H|H]; [discriminate H|].
    destruct (pretty_positive_chars p) as [Hall _].
    rewrite Forall_forall in Hall. destruct (Hall _ H) as [_ Hc]. congruence.
Qed.

(** What [str] writes for a number: no dash when the number is not negative,
    and a dash in front of digits when it is. *)
Lemma pretty_Z_dash (z : Z) :
  (0 <= z /\ ("-"%char ∉ Path.chars (pretty z)) /\
   exists c l, Path.chars (pretty z) = c :: l /\ c <> "-"%char) \/
  (z < 0 /\ exists l, Path.chars (pretty z) = "-"%char :: l /\ "-"%char ∉ l).
Proof.
  assert (forall p : positive, "-"%char ∉ Path.chars (pretty p)) as Hpos.
  { intros p H. destruct (pretty_positive_chars p) as [Hall _].
    rewrite Forall_forall in Hall. destruct (Hall _ H) as [Hc _]. congruence. }
  destruct z as [|p|p].
  - left. split; [lia|]. split.
    + intros H. apply list_elem_of_singleton in H. discriminate H.
    + exists "0"%char, []. split; [reflexivity | discriminate].
  - left. split; [lia|]. change (pretty (Z.pos p)) with (pretty p).
    split; [apply Hpos|].
    destruct (Path.chars (pretty p)) as [|c l] eqn:Hc.
    + destruct (pretty_positive_chars p) as [_ Hne]. contradiction.
    + exists c, l. split; [reflexivity|]. intros ->.
      apply (Hpos p). rewrite Hc. left.
  - right. split; [lia|]. change (pretty (Z.neg p)) with ("-" +:+ pretty p).
    rewrite chars_app. exists (Path.chars (pretty p)). split; [reflexivity | apply Hpos].
Qed.

Lemma ratio_with_dash_inj (w h w' h' : Z) :
  (Path.chars (pretty w) ++ "-"%char :: Path.chars (pretty h)
   = Path.chars (pretty w') ++ "-"%char :: Path.chars (pretty h'))%list ->
  w = w' /\ h = h'.
Proof.
  intros H.
  assert (Path.chars (pretty w) = Path.chars (pretty w') /\
          Path.chars (pretty h) = Path.chars (pretty h')) as [Hw Hh].
  { destruct (pretty_Z_dash w) as [(_ & Hno & c & l & Hc & Hne)|(_ & l & Hl & Hno)],
             (pretty_Z_dash w') as [(_ & Hno' & c' & l' & Hc' & Hne')|(_ & l' & Hl' & Hno')].
    - eapply app_separator_inj; eassumption.
    - rewrite Hc, Hl' in H. cbn in H. injection H as -> _. contradiction.
    - rewrite Hl, Hc' in H. cbn in H. injection H as <- _. contradiction.
    - rewrite Hl, Hl' in H |- *. cbn in H. injection H as H.
      destruct (app_separator_inj _ _ _ _ _ Hno Hno' H) as [-> ->].
      split; reflexivity. }
  split; apply (inj pretty), chars_inj; assumption.
Qed.

(** X22.  The ratio string of a screen, and the file name the export starts
    from, determine both terms of the ratio, whatever their signs: two screens
    get one of these names exactly when they have one ratio. *)
Theorem names_determine_the_ratio :
  forall s s',
    (get_ratio_string s = get_ratio_string s' <->
     ScreenConfig.ratio_w s = ScreenConfig.ratio_w s' /\
     ScreenConfig.ratio_h s = ScreenConfig.ratio_h s') /\
    (screen_stem s = screen_stem s' <->
     ScreenConfig.ratio_w s = ScreenConfig.ratio_w s' /\
     ScreenConfig.ratio_h s = ScreenConfig.ratio_h s').
Proof.
  intros s s'. split; split.
  - unfold get_ratio_string. intros H. apply (f_equal Path.chars) in H.
    rewrite !chars_app in H.
    change (Path.chars ":" ++ ?l)%list with (":"%char :: l) in H.
    destruct (app_separator_inj _ _ _ _ _ (pretty_Z_no_colon _) (pretty_Z_no_colon _) H)
      as [Hw Hh].
    split; apply (inj pretty), chars_inj; assumption.
  - unfold get_ratio_string. intros [-> ->]. reflexivity.
  - unfold screen_stem. intros H. apply String.app_inj in H.
    apply (f_equal Path.chars) in H. rewrite !chars_app in H.
    change (Path.chars "-" ++ ?l)%list with ("-"%char :: l) in H.
    apply ratio_with_dash_inj, H.
  - unfold screen_stem. intros [-> ->]. reflexivity.
Qed.

Example names_of_a_ratio :
  get_ratio_string (ScreenConfig.init 0 16 9 0 0) = "16:9" /\
  screen_stem (ScreenConfig.init 0 16 9 0 0) = "wallpaper_screen_16-9" /\
  screen_stem (ScreenConfig.init 0 1 (-2) 0 0) = "wallpaper_screen_1--2".
Proof. repeat split; vm_compute; reflexivity. Qed.

(** ** Adding and deleting, and recomputing twice *)

(** X23.  Adding a screen and deleting it again restores the screens: with
    the lists in order, [add_screen] appends a screen that was not listed;
    deleting that screen returns and leaves the screen list, the id, ratio,
    position and color of every screen, the global settings and the disk as
    they were before the screen was added, with the lists in order. *)
Theorem add_then_delete_restores_the_screens :
  forall w,
    well_formed (app w) ->
    exists r,
      (r ∉ App.screens (app w)) /\
      App.screens (app (snd (add_screen w))) = (App.screens (app w) ++ [r])%list /\
      exists w2,
        delete_screen r (snd (add_screen w)) = (Val tt, w2) /\
        App.screens (app w2) = App.screens (app w) /\
        (forall r',
           r' ∈ App.screens (app w) ->
           identity_of (App.store (app w2) !!! r')
           = identity_of (App.store (app w) !!! r')) /\
        App.global_config (app w2) = App.global_config (app w) /\
        disk w2 = disk w /\
        well_formed (app w2).
Proof.
  intros w Hwf. pose proof Hwf as (Hcons & Hnum & _).
  pose proof (fresh_not_listed w Hcons) as Hfresh.
  set (r := fresh (dom (App.store (app w)))) in *.
  pose proof (add_screen_well_formed w Hwf) as Hwf1.
  rewrite add_screen_run in Hwf1 |- *.
  destruct (recalculate_all_resolutions_run (with_new_screen w))
    as ((Hscr & _ & Hg & Hd & _ & Hid) & _).
  set (w1 := snd (recalculate_all_resolutions (with_new_screen w))) in *.
  unfold with_new_screen in Hscr, Hg, Hd, Hid.
  cbn [app disk App.screens App.screen_widgets App.store App.global_config
       App.set_store App.set_screens App.set_screen_widgets] in Hscr, Hg, Hd, Hid.
  fold r in Hscr, Hid.
  exists r. split; [exact Hfresh|]. split; [exact Hscr|].
  assert (App.screens (app w1) !! length (App.screens (app w)) = Some r) as Hi
    by (rewrite Hscr; apply list_lookup_middle; reflexivity).
  destruct (delete_screen_run w1 _ r (proj1 Hwf1) Hi) as (m & Hrun & Hm & _ & Hdom).
  rewrite Hscr, delete_middle, app_nil_r in Hm.
  eexists. split; [exact Hrun|].
  destruct (recalculate_all_resolutions_run
              (without_screen w1 (length (App.screens (app w))) m))
    as (Hs & _).
  set (w2 := snd (recalculate_all_resolutions
                    (without_screen w1 (length (App.screens (app w))) m))) in *.
  pose proof Hs as (Hscr2 & _ & Hg2 & Hd2 & _ & Hid2).
  unfold without_screen in Hscr2, Hg2, Hd2, Hid2.
  cbn [app disk App.screens App.screen_widgets App.store App.global_config
       App.set_store App.set_screens App.set_screen_widgets] in Hscr2, Hg2, Hd2, Hid2.
  rewrite Hscr, delete_middle, app_nil_r in Hscr2.
  split; [exact Hscr2|]. split; [|split; [congruence|split; [congruence|]]].
  - intros r' Hr'. rewrite Hid2.
    pose proof Hr' as Hj. apply list_elem_of_lookup_1 in Hj as [j Hj].
    rewrite (Hm j r' Hj). destruct (Hnum j r' Hj) as [Hidj Hcolj].
    assert (identity_of (App.store (app w1) !!! r')
            = identity_of (App.store (app w) !!! r')) as Hsame.
    { rewrite Hid. rewrite lookup_total_insert_ne; [reflexivity|].
      intros <-. contradiction. }
    unfold identity_of in Hsame |- *. unfold renumbered.
    cbn [ScreenConfig.id ScreenConfig.ratio_w ScreenConfig.ratio_h
         ScreenConfig.x ScreenConfig.y ScreenConfig.color
         ScreenConfig.set_id ScreenConfig.set_color].
    injection Hsame as _ -> -> -> -> _.
    rewrite Hidj, Hcolj. reflexivity.
  - eapply same_settings_well_formed; [exact Hs|].
    apply without_screen_well_formed; [exact (proj1 Hwf1) | | exact Hdom].
    rewrite Hscr, delete_middle, app_nil_r. exact Hm.
Qed.

Lemma add_then_delete_on_four_screens :
  exists r w2,
    delete_screen r (snd (add_screen four_screens)) = (Val tt, w2) /\
    App.screens (app w2) = App.screens (app four_screens) /\
    well_formed (app w2).
Proof.
  destruct (add_then_delete_restores_the_screens four_screens four_screens_well_formed)
    as (r & _ & _ & w2 & Hrun & Hscr & _ & _ & _ & Hwf).
  exists r, w2. auto.
Defined.

Lemma calculate_loop_same_settings ref_width ref_height scale_percent (l : list ref) w :
  same_settings w
    (snd (for_each l (fun screen =>
            calculate_resolution screen ref_width ref_height scale_percent) w)).
Proof.
  assert (wp (for_each l (fun screen =>
                calculate_resolution screen ref_width ref_height scale_percent))
            (fun r w' => same_settings w w' /\ r <> OutOfFuel) w) as [H _]; [|exact H].
  apply (wp_for_each (same_settings w)); [apply same_settings_refl|].
  intros screen w1 _ Hw1.
  eapply wp_mono; [apply calculate_resolution_same_settings|].
  intros r w2 [Hs Hr]. split; [|exact Hr].
  eapply same_settings_trans; eassumption.
Qed.

(** When the loop of the recalculation returns, every screen of the list is
    in the store. *)
Lemma calculate_loop_listed ref_width ref_height scale_percent (l : list ref) :
  forall w w',
    for_each l (fun screen =>
      calculate_resolution screen ref_width ref_height scale_percent) w = (Val tt, w') ->
    forall r, r ∈ l -> is_Some (App.store (app w') !! r).
Proof.
  induction l as [|v l IH]; intros w w' Hrun r Hr.
  { apply elem_of_nil in Hr. contradiction. }
  cbn [for_each] in Hrun.
  pose proof (calculate_resolution_run v ref_width ref_height scale_percent w) as Hv.
  cbv zeta in Hv.
  destruct (resolution_from_scaled_side _ _ _ _ _) as [e|[width height]].
  { unfold bind in Hrun.
    destruct (calculate_resolution v ref_width ref_height scale_percent w)
      as [[a|e'|] w1]; cbn [fst] in Hv; discriminate. }
  rewrite (bind_val _ _ _ _ _ Hv) in Hrun.
  apply elem_of_cons in Hr as [->|Hr]; [|eapply IH; eassumption].
  pose proof (calculate_loop_same_settings ref_width ref_height scale_percent l
                (with_resolution w v width height)) as (_ & _ & _ & _ & Hdom & _).
  rewrite Hrun in Hdom. cbn [snd] in Hdom.
  apply elem_of_dom, Hdom, elem_of_dom.
  unfold with_resolution. cbn [app App.store App.set_store].
  rewrite lookup_insert_eq. eauto.
Qed.

Lemma with_resolution_fixed w r s :
  App.store (app w) !! r = Some s ->
  with_resolution w r (ScreenConfig.width s) (ScreenConfig.height s) = w.
Proof.
  intros Hr. unfold with_resolution.
  rewrite (lookup_total_correct _ _ _ Hr).
  replace (ScreenConfig.set_height (ScreenConfig.height s)
             (ScreenConfig.set_width (ScreenConfig.width s) s)) with s
    by (destruct s; reflexivity).
  rewrite (insert_id _ _ _ Hr). symmetry. apply world_eta.
Qed.

(** Over screens that hold their resolutions the loop changes nothing. *)
Lemma calculate_loop_fixed ref_width ref_height scale_percent (l : list ref) w :
  (forall r, r ∈ l ->
     is_Some (App.store (app w) !! r) /\
     resolved ref_width ref_height scale_percent (App.store (app w) !!! r)) ->
  for_each l (fun screen =>
    calculate_resolution screen ref_width ref_height scale_percent) w = (Val tt, w).
Proof.
  induction l as [|v l IH]; intros Hall; [reflexivity|].
  cbn [for_each].
  destruct (Hall v ltac:(left)) as [[s Hs] Hres].
  pose proof (calculate_resolution_run v ref_width ref_height scale_percent w) as Hv.
  cbv zeta in Hv. unfold resolved in Hres. rewrite Hres in Hv.
  rewrite (lookup_total_correct _ _ _ Hs) in Hv.
  rewrite (with_resolution_fixed w v s Hs) in Hv.
  rewrite (bind_val _ _ _ _ _ Hv). apply IH.
  intros r Hr. apply Hall. right. exact Hr.
Qed.

Lemma update_preview_rectangles_again w w' :
  update_preview_rectangles w = (Val tt, w') ->
  update_preview_rectangles w' = (Val tt, w').
Proof.
  intros Hrun.
  destruct (update_preview_rectangles_canvas_only w) as [c Hc].
  rewrite Hrun in Hc. cbn [snd] in Hc. subst w'.
  revert Hrun. unfold update_preview_rectangles.
  cbv beta iota zeta delta [bind get_app ret modify_app].
  cbn [app disk App.image App.background_image App.set_canvas].
  destruct (App.image (app w)); [|intros _; reflexivity].
  destruct (App.background_image (app w)); [|intros _; reflexivity].
  intros H. exact H.
Qed.

(** X24.  Recomputing twice is recomputing once: from the world that
    [recalculate_all_resolutions] returns in, it returns with that world
    unchanged. *)
Theorem recalculation_is_idempotent :
  forall w w',
    recalculate_all_resolutions w = (Val tt, w') ->
    recalculate_all_resolutions w' = (Val tt, w').
Proof.
  intros w w' Hrun.
  destruct (recalculate_all_resolutions_run w) as (_ & _ & Hval & _).
  rewrite Hrun in Hval. cbn [fst snd] in Hval.
  destruct (Hval eq_refl) as [(m' & c' & Hw') Hall].
  revert Hrun. unfold recalculate_all_resolutions at 1.
  cbv beta iota zeta delta [bind get_app].
  set (g := App.global_config (app w)).
  destruct (for_each _ _ w) as [[[]|e|] w1] eqn:Hloop; try discriminate.
  intros Hupr.
  pose proof (calculate_loop_listed _ _ _ _ _ _ Hloop) as Hlisted.
  destruct (update_preview_rectangles_canvas_only w1) as [c Hc].
  rewrite Hupr in Hc. cbn [snd] in Hc.
  pose proof (calculate_loop_same_settings (GlobalConfigWidget.ref_width g)
                (GlobalConfigWidget.ref_height g) (GlobalConfigWidget.scale_percent g)
                (App.screens (app w)) w) as (Hscr & _ & Hg & _).
  rewrite Hloop in Hscr, Hg. cbn [snd] in Hscr, Hg.
  unfold recalculate_all_resolutions. cbv beta iota zeta delta [bind get_app].
  assert (App.screens (app w') = App.screens (app w)) as Hscr'
    by (rewrite Hc; cbn [app App.screens App.set_canvas]; exact Hscr).
  assert (App.global_config (app w') = g) as Hg'
    by (rewrite Hc; cbn [app App.global_config App.set_canvas]; exact Hg).
  rewrite Hscr', Hg'.
  rewrite calculate_loop_fixed.
  - apply (update_preview_rectangles_again w1). exact Hupr.
  - intros r Hr. split.
    + rewrite Hc. cbn [app App.store App.set_canvas]. apply Hlisted, Hr.
    + specialize (Hall r Hr). unfold up_to_date in Hall. rewrite Hg' in Hall.
      exact Hall.
Qed.

Lemma recalculation_of_four_screens_twice :
  recalculate_all_resolutions (snd (recalculate_all_resolutions four_screens))
  = (Val tt, snd (recalculate_all_resolutions four_screens)).
Proof.
  apply (recalculation_is_idempotent four_screens). vm_compute. reflexivity.
Defined.

(** ** The exceptions of the resolution computation *)

Lemma iter_pos_keeps {A} (P : A -> Prop) (f : A -> A) :
  (forall x, P x -> P (f x)) -> forall p x, P x -> P (SpecFloat.iter_pos f p x).
Proof.
  intros Hf. induction p as [p IH|p IH|]; intros x Hx; cbn [SpecFloat.iter_pos]; auto.
Qed.

Lemma shr_1_not_negative mrs : 0 <= shr_m mrs -> 0 <= shr_m (shr_1 mrs).
Proof. destruct mrs as [[|[p|p|]|[p|p|]] r s]; cbn; lia. Qed.

Lemma shr_fexp_not_negative m e l :
  0 <= m -> 0 <= shr_m (fst (shr_fexp prec emax m e l)).
Proof.
  intros Hm. unfold shr_fexp, shr.
  assert (0 <= shr_m (shr_record_of_loc m l)) as H0
    by (destruct l as [|[]]; exact Hm).
  destruct (fexp prec emax (Zdigits2 m + e) - e) as [|p|p]; cbn [fst]; try exact H0.
  apply (iter_pos_keeps (fun mrs => 0 <= shr_m mrs)); [apply shr_1_not_negative | exact H0].
Qed.

Lemma round_nearest_even_not_negative mx lx :
  0 <= mx -> 0 <= round_nearest_even mx lx.
Proof.
  intros Hm. unfold round_nearest_even.
  destruct lx as [|[]]; try destruct (Z.even mx); lia.
Qed.

(** Rounding a mantissa that is not negative never gives NaN. *)
Lemma binary_round_aux_a_number s m e l :
  0 <= m -> a_number (binary_round_aux prec emax s m e l).
Proof.
  intros Hm. unfold binary_round_aux.
  pose proof (shr_fexp_not_negative m e l Hm) as H1.
  destruct (shr_fexp prec emax m e l) as [mrs' e']. cbn [fst] in H1.
  pose proof (shr_fexp_not_negative
                (round_nearest_even (shr_m mrs') (loc_of_shr_record mrs')) e' loc_Exact
                (round_nearest_even_not_negative _ _ H1)) as H2.
  destruct (shr_fexp prec emax _ e' loc_Exact) as [mrs'' e'']. cbn [fst] in H2.
  destruct (shr_m mrs''); [discriminate| |lia].
  destruct (e'' <=? emax - prec); discriminate.
Qed.

Lemma binary_round_a_number s m e : a_number (binary_round prec emax s m e).
Proof.
  unfold binary_round. destruct (shl_align _ _ _) as [mz ez].
  apply binary_round_aux_a_number. lia.
Qed.

Lemma binary_normalize_a_number m e szero :
  a_number (binary_normalize prec emax m e szero).
Proof.
  destruct m; [discriminate | apply binary_round_a_number | apply binary_round_a_number].
Qed.

Lemma SFldexp_a_number x e : a_number x -> a_number (SFldexp prec emax x e).
Proof.
  destruct x as [s|s| |s m ex]; try (intros H; exact H).
  intros _. apply binary_round_a_number.
Qed.

Lemma Prim2SF_SF2Prim_a_number x : a_number x -> a_number (Prim2SF (SF2Prim x)).
Proof.
  destruct x as [[]|[]| |s m e]; intros H; try (vm_compute; discriminate).
  { contradiction. }
  assert (a_number (Prim2SF (Z.ldexp (of_uint63 (of_Z (Z.pos m))) e))) as Hf.
  { rewrite Z_ldexp_spec. apply SFldexp_a_number.
    rewrite of_uint63_spec. apply binary_normalize_a_number. }
  unfold SF2Prim. cbv zeta. destruct s; [|exact Hf].
  rewrite opp_spec. destruct (Prim2SF _); first [discriminate | contradiction].
Qed.

Lemma not_infinity_finite_or_zero f :
  is_infinity f = false -> a_number (Prim2SF f) -> finite_or_zero (Prim2SF f).
Proof.
  intros Hinf. unfold Prim2SF. rewrite Hinf.
  destruct (is_nan f); [intros H; contradiction|].
  destruct (is_zero f); [intros _; exact I|].
  destruct (Z.frexp f) as [r exp].
  destruct (shr_fexp prec emax _ _ loc_Exact) as [shr e'].
  destruct (shr_m shr); intros _; exact I.
Qed.

Lemma float_of_int_finite n f :
  Py.float_of_int n = inr f -> finite_or_zero (Prim2SF f).
Proof.
  unfold Py.float_of_int. cbv zeta.
  destruct (is_infinity _) eqn:Hinf; [discriminate|]. intros [= <-].
  apply not_infinity_finite_or_zero; [exact Hinf|].
  apply Prim2SF_SF2Prim_a_number, binary_normalize_a_number.
Qed.

Lemma truediv_finite a b f : Py.truediv a b = inr f -> finite_or_zero (Prim2SF f).
Proof.
  unfold Py.truediv. destruct (b =? 0); [discriminate|]. cbv zeta.
  destruct (is_infinity _) eqn:Hinf; [discriminate|]. intros [= <-].
  apply not_infinity_finite_or_zero; [exact Hinf|].
  apply Prim2SF_SF2Prim_a_number, binary_normalize_a_number.
Qed.

(** The product of two numbers that are finite or zero is not NaN. *)
Lemma SFmul_a_number x y :
  finite_or_zero x -> finite_or_zero y -> a_number (SFmul prec emax x y).
Proof.
  destruct x as [sx|sx| |sx mx ex], y as [sy|sy| |sy my ey];
    cbn [finite_or_zero]; try contradiction; intros _ _; try discriminate.
  cbn [SFmul]. apply binary_round_aux_a_number. lia.
Qed.

Lemma round_finite f z : Py.round f = inr z -> finite_or_zero (Prim2SF f).
Proof. unfold Py.round. destruct (Prim2SF f); try discriminate; intros _; exact I. Qed.

Lemma round_overflows f e :
  a_number (Prim2SF f) -> Py.round f = inl e -> exists msg, e = OverflowError msg.
Proof.
  unfold Py.round. destruct (Prim2SF f); try discriminate.
  - intros _ [= <-]. eauto.
  - intros H. contradiction.
Qed.

Lemma scale_factor_finite scale_percent :
  0 <= scale_percent <= 100 ->
  exists factor,
    scale_factor_of scale_percent = inr factor /\ finite_or_zero (Prim2SF factor).
Proof.
  intros Hsp.
  assert (forallb (fun sp =>
            match scale_factor_of sp with
            | inr factor =>
                match Prim2SF factor with
                | S754_zero _ | S754_finite _ _ _ => true
                | _ => false
                end
            | inl _ => false
            end) (seqZ 0 101) = true) as Hall by (vm_compute; reflexivity).
  rewrite forallb_forall in Hall.
  specialize (Hall scale_percent ltac:(apply list_elem_of_In, elem_of_seqZ; lia)).
  cbv beta in Hall.
  destruct (scale_factor_of scale_percent) as [e|factor]; [discriminate|].
  exists factor. split; [reflexivity|].
  destruct (Prim2SF factor); first [exact I | discriminate].
Qed.

(** X25.  At a scale between 0 and 100 [calculate_resolution] raises nothing
    but [OverflowError], or [ZeroDivisionError] for a screen whose greater
    ratio term is zero: it never raises [ValueError], so that the
    [except ValueError] of [update_config] and of [apply_reference] hides no
    failure of the resolution computation. *)
Theorem calculate_resolution_raises_no_value_error :
  forall self ref_width ref_height scale_percent w e,
    0 <= scale_percent <= 100 ->
    fst (calculate_resolution self ref_width ref_height scale_percent w) = Exc e ->
    (exists msg, e = OverflowError msg) \/
    e = ZeroDivisionError "division by zero" /\
    Z.max (ScreenConfig.ratio_w (App.store (app w) !!! self))
      (ScreenConfig.ratio_h (App.store (app w) !!! self)) = 0.
Proof.
  intros self rw rh sp w e Hsp Hexc.
  pose proof (calculate_resolution_run self rw rh sp w) as Hrun. cbv zeta in Hrun.
  set (s := App.store (app w) !!! self) in *.
  destruct (resolution_from_scaled_side _ _ rw rh sp) as [e'|[width height]] eqn:Hres.
  2:{ rewrite Hrun in Hexc. discriminate Hexc. }
  rewrite Hrun in Hexc. injection Hexc as ->.
  revert Hres. unfold resolution_from_scaled_side, scaled_max_side.
  destruct (scale_factor_finite sp Hsp) as (factor & -> & Hfactor).
  destruct (Py.float_of_int (Z.max rw rh)) as [e0|m] eqn:Hm.
  { intros [= <-]. left. eapply float_of_int_raises. exact Hm. }
  assert (a_number (Prim2SF (m * factor))) as Hside.
  { rewrite mul_spec. apply SFmul_a_number; [|exact Hfactor].
    eapply float_of_int_finite. exact Hm. }
  destruct (Py.round (m * factor)) as [e0|first] eqn:Hfirst.
  { intros [= <-]. left. eapply round_overflows; eassumption. }
  apply round_finite in Hfirst.
  destruct (ScreenConfig.ratio_w s >=? ScreenConfig.ratio_h s) eqn:Hge; cbv beta iota;
    (destruct (Py.truediv _ _) as [e0|q] eqn:Hq;
     [intros [= <-]; apply truediv_raises in Hq as [[H0 ->]|Hover];
      [right; split; [reflexivity | lia] | left; exact Hover]|]);
    (destruct (Py.round (m * factor * q)) as [e0|second] eqn:Hsecond;
     [|discriminate]);
    (intros [= <-]; left; eapply round_overflows; [|exact Hsecond];
     rewrite mul_spec; apply SFmul_a_number; [exact Hfirst|];
     eapply truediv_finite; exact Hq).
Qed.

Lemma zero_ratio_raises_zero_division :
  fst (calculate_resolution 2%positive 2560 1440 50 zero_ratio_world)
  = Exc (ZeroDivisionError "division by zero") /\
  ((exists msg, ZeroDivisionError "division by zero" = OverflowError msg) \/
   ZeroDivisionError "division by zero" = ZeroDivisionError "division by zero" /\
   Z.max (ScreenConfig.ratio_w (App.store (app zero_ratio_world) !!! 2%positive))
     (ScreenConfig.ratio_h (App.store (app zero_ratio_world) !!! 2%positive)) = 0).
Proof.
  assert (fst (calculate_resolution 2%positive 2560 1440 50 zero_ratio_world)
          = Exc (ZeroDivisionError "division by zero")) as Hrun
    by (vm_compute; reflexivity).
  split; [exact Hrun|].
  apply (calculate_resolution_raises_no_value_error 2%positive 2560 1440 50
           zero_ratio_world); [lia | exact Hrun].
Defined.
